(** * tap-helper: the signing and verification core

    A shallow embedding of [src/core/buffer.ts] (imported as [SBuffer]),
    of the utilities [sign], [verify], [signAndVerify], [sha256],
    [splitSignature], [joinSignature], [getKeypairBuff] (imported as
    [Utils]) and of the inscription builders [signAuth], [signMint],
    [signDmtMint], [signVerification], [signTokenAuth], [signTokenRedeem]
    (exported as [Tap]).

    JavaScript values are modelled by an inductive type, exceptions by an
    error result, and the in-place mutation of the protocol object by
    returning the object's final state next to the outcome of the call. *)

From Bignums Require Import BigZ.
From Stdlib Require Import ZArith NArith String Ascii List Lia Bool.
From Stdlib.Strings Require Import Byte.
Import ListNotations.
Local Open Scope Z_scope.

(* ================================================================= *)
(** ** Bytes *)

Definition bytes := list byte.

Definition byte_to_Z (b : byte) : Z := Z.of_N (Byte.to_N b).

Definition byte_of_Z (z : Z) : byte :=
  match Byte.of_N (Z.to_N (z mod 256)) with
  | Some b => b
  | None => x00
  end.

(** Big-endian value of a byte sequence. *)
Definition be_value (b : bytes) : Z :=
  fold_left (fun acc x => acc * 256 + byte_to_Z x) b 0.

(** [be_bytes n z]: the [n] low-order bytes of [z], most significant first. *)
Fixpoint be_bytes (n : nat) (z : Z) : bytes :=
  match n with
  | O => []
  | S n' => be_bytes n' (z / 256) ++ [byte_of_Z z]
  end.

(* ================================================================= *)
(** ** Strings

    A JavaScript string is a sequence of UTF-16 code units. *)

Definition jstring := list N.

(** An ASCII literal as a JavaScript string. *)
Definition str (s : string) : jstring :=
  map N_of_ascii (list_ascii_of_string s).

Fixpoint jstring_eqb (a b : jstring) : bool :=
  match a, b with
  | [], [] => true
  | x :: a', y :: b' => (x =? y)%N && jstring_eqb a' b'
  | _, _ => false
  end.

Definition is_high_surrogate (c : N) : bool :=
  ((0xD800 <=? c) && (c <=? 0xDBFF))%N.

Definition is_low_surrogate (c : N) : bool :=
  ((0xDC00 <=? c) && (c <=? 0xDFFF))%N.

Definition byte_of_N (n : N) : byte := byte_of_Z (Z.of_N n).

(** UTF-8 encoding of one code point. *)
Definition utf8_code_point (cp : N) : bytes :=
  (if cp <? 0x80 then [byte_of_N cp]
   else if cp <? 0x800 then
     [byte_of_N (0xC0 + cp / 64); byte_of_N (0x80 + cp mod 64)]
   else if cp <? 0x10000 then
     [byte_of_N (0xE0 + cp / 4096); byte_of_N (0x80 + (cp / 64) mod 64);
      byte_of_N (0x80 + cp mod 64)]
   else
     [byte_of_N (0xF0 + cp / 262144); byte_of_N (0x80 + (cp / 4096) mod 64);
      byte_of_N (0x80 + (cp / 64) mod 64); byte_of_N (0x80 + cp mod 64)])%N.

(** U+FFFD, what an unpaired surrogate is encoded as. *)
Definition utf8_replacement : bytes := [xef; xbf; xbd].

(** [Buffer.from(s)] (encoding "utf8"): surrogate pairs are combined into
    one code point, an unpaired surrogate becomes U+FFFD. *)
Fixpoint utf8 (s : jstring) : bytes :=
  match s with
  | [] => []
  | c :: t =>
      if is_high_surrogate c then
        match t with
        | d :: t' =>
            if is_low_surrogate d
            then utf8_code_point
                   (0x10000 + (c - 0xD800) * 1024 + (d - 0xDC00))%N ++ utf8 t'
            else utf8_replacement ++ utf8 t
        | [] => utf8_replacement
        end
      else if is_low_surrogate c then utf8_replacement ++ utf8 t
      else utf8_code_point c ++ utf8 t
  end.

(* ================================================================= *)
(** ** Digits

    Numerals in a base, as used by [BigInt.prototype.toString(radix)],
    [BigInt("...")] and the "hex" encoding of buffers. *)

Fixpoint digits_fuel (base : N) (fuel : nat) (n : N) (acc : list N) : list N :=
  match fuel with
  | O => acc
  | S f =>
      let acc' := (n mod base)%N :: acc in
      if (n / base =? 0)%N then acc' else digits_fuel base f (n / base)%N acc'
  end.

(** The digits of [n] in [base], most significant first; "0" for zero. *)
Definition to_digits (base n : N) : list N :=
  digits_fuel base (S (N.to_nat (N.log2 n))) n [].

Definition of_digits (base : N) (l : list N) : N :=
  fold_left (fun acc d => acc * base + d)%N l 0%N.

(** Digit to character, lower case as JavaScript prints them. *)
Definition digit_char (d : N) : N :=
  (if d <? 10 then 48 + d else 87 + d)%N.

(** Character to digit value, both cases accepted. *)
Definition char_digit (c : N) : option N :=
  (if (48 <=? c) && (c <=? 57) then Some (c - 48)
   else if (97 <=? c) && (c <=? 122) then Some (c - 87)
   else if (65 <=? c) && (c <=? 90) then Some (c - 55)
   else None)%N.

(** A digit of the given base, or nothing. *)
Definition char_digit_in (base c : N) : option N :=
  match char_digit c with
  | Some d => if (d <? base)%N then Some d else None
  | None => None
  end.

Fixpoint parse_digits (base : N) (s : jstring) : option (list N) :=
  match s with
  | [] => Some []
  | c :: t =>
      match char_digit_in base c, parse_digits base t with
      | Some d, Some l => Some (d :: l)
      | _, _ => None
      end
  end.

(* ================================================================= *)
(** ** Exceptions *)

Inductive ErrorName := Error | TypeError | SyntaxError | RangeError.

Record exn := Exn { exn_name : ErrorName; exn_message : jstring }.

Definition ErrorName_toString (n : ErrorName) : jstring :=
  match n with
  | Error => str "Error"
  | TypeError => str "TypeError"
  | SyntaxError => str "SyntaxError"
  | RangeError => str "RangeError"
  end.

(** [Error.prototype.toString], what [`${error}`] yields. *)
Definition exn_toString (e : exn) : jstring :=
  match exn_message e with
  | [] => ErrorName_toString (exn_name e)
  | m => ErrorName_toString (exn_name e) ++ str ": " ++ m
  end.

Inductive completion (A : Type) : Type :=
| Ok (a : A)
| Throw (e : exn).
Arguments Ok {A} a.
Arguments Throw {A} e.

Definition bind {A B : Type} (r : completion A) (k : A -> completion B) : completion B :=
  match r with
  | Ok a => k a
  | Throw e => Throw e
  end.

Notation "x <- r ;; k" := (bind r (fun x => k))
  (at level 61, r at next level, right associativity).
Notation "' p <- r ;; k" := (bind r (fun x => let p := x in k))
  (at level 61, p pattern, r at next level, right associativity).

(** [try { body } catch (error) { throw handler(error) }] *)
Definition try_catch_rethrow {A : Type} (body : completion A) (handler : exn -> exn)
  : completion A :=
  match body with
  | Ok a => Ok a
  | Throw e => Throw (handler e)
  end.

(* ================================================================= *)
(** ** SHA-256 (FIPS 180-4)

    [bcSha256] of bitcoinjs-lib is the standard SHA-256. *)

Module SHA256.

Definition mask32 : Z := 0xFFFFFFFF.
Definition add32 (a b : Z) : Z := (a + b) mod 2 ^ 32.
Definition rotr (n x : Z) : Z :=
  Z.lor (Z.shiftr x n) (Z.land (Z.shiftl x (32 - n)) mask32).
Definition Ch (x y z : Z) : Z :=
  Z.lxor (Z.land x y) (Z.land (Z.lxor x mask32) z).
Definition Maj (x y z : Z) : Z :=
  Z.lxor (Z.lxor (Z.land x y) (Z.land x z)) (Z.land y z).
Definition Sigma0 (x : Z) : Z := Z.lxor (Z.lxor (rotr 2 x) (rotr 13 x)) (rotr 22 x).
Definition Sigma1 (x : Z) : Z := Z.lxor (Z.lxor (rotr 6 x) (rotr 11 x)) (rotr 25 x).
Definition sigma0 (x : Z) : Z := Z.lxor (Z.lxor (rotr 7 x) (rotr 18 x)) (Z.shiftr x 3).
Definition sigma1 (x : Z) : Z := Z.lxor (Z.lxor (rotr 17 x) (rotr 19 x)) (Z.shiftr x 10).

(** The constants are fractional parts of roots of the first primes:
    of the cube roots of the first sixty-four for the round constants, of
    the square roots of the first eight for the initial hash value. *)
Definition is_prime (n : nat) : bool :=
  forallb (fun d => negb (n mod d =? 0)%nat) (seq 2 (n - 2)).

Definition primes : list Z :=
  Eval vm_compute in map Z.of_nat (filter is_prime (seq 2 310)).

(** Integer cube root below [2^41], one bit at a time. *)
Definition icbrt (n : Z) : Z :=
  fold_left (fun r b => let r' := r + 2 ^ Z.of_nat b in
                        if r' * r' * r' <=? n then r' else r)
            (rev (seq 0 41)) 0.

Definition K : list Z :=
  Eval vm_compute in map (fun q => icbrt (q * 2 ^ 96) mod 2 ^ 32) primes.

Record state := State { ha : Z; hb : Z; hc : Z; hd : Z; he : Z; hf : Z; hg : Z; hh : Z }.

Definition root_fraction (i : nat) : Z :=
  Z.sqrt (nth i primes 0 * 2 ^ 64) mod 2 ^ 32.

Definition H0 : state :=
  Eval vm_compute in
    State (root_fraction 0) (root_fraction 1) (root_fraction 2) (root_fraction 3)
          (root_fraction 4) (root_fraction 5) (root_fraction 6) (root_fraction 7).

(** The schedule is kept as a window of sixteen words [W t .. W (t+15)]. *)
Definition next_w (w : list Z) : Z :=
  add32 (add32 (sigma1 (nth 14 w 0)) (nth 9 w 0))
        (add32 (sigma0 (nth 1 w 0)) (nth 0 w 0)).

Definition round (sw : state * list Z) (k : Z) : state * list Z :=
  let (s, w) := sw in
  let t1 := add32 (add32 (add32 (hh s) (Sigma1 (he s))) (Ch (he s) (hf s) (hg s)))
                  (add32 k (nth 0 w 0)) in
  let t2 := add32 (Sigma0 (ha s)) (Maj (ha s) (hb s) (hc s)) in
  (State (add32 t1 t2) (ha s) (hb s) (hc s) (add32 (hd s) t1) (he s) (hf s) (hg s),
   tl w ++ [next_w w]).

Fixpoint words (n : nat) (l : list Z) : list Z :=
  match n with
  | O => []
  | S n' =>
      (nth 0 l 0 * 16777216 + nth 1 l 0 * 65536 + nth 2 l 0 * 256 + nth 3 l 0)
        :: words n' (skipn 4 l)
  end.

Definition compress (s : state) (block : list Z) : state :=
  let (s', _) := fold_left round K (s, words 16 block) in
  State (add32 (ha s) (ha s')) (add32 (hb s) (hb s')) (add32 (hc s) (hc s'))
        (add32 (hd s) (hd s')) (add32 (he s) (he s')) (add32 (hf s) (hf s'))
        (add32 (hg s) (hg s')) (add32 (hh s) (hh s')).

Definition pad (msg : list Z) : list Z :=
  let len := Z.of_nat (length msg) in
  msg ++ [0x80] ++ repeat 0 (Z.to_nat ((55 - len) mod 64))
      ++ map byte_to_Z (be_bytes 8 (8 * len)).

Fixpoint absorb (n : nat) (s : state) (l : list Z) : state :=
  match n with
  | O => s
  | S n' => absorb n' (compress s (firstn 64 l)) (skipn 64 l)
  end.

Definition digest (s : state) : bytes :=
  be_bytes 4 (ha s) ++ be_bytes 4 (hb s) ++ be_bytes 4 (hc s) ++ be_bytes 4 (hd s) ++
  be_bytes 4 (he s) ++ be_bytes 4 (hf s) ++ be_bytes 4 (hg s) ++ be_bytes 4 (hh s).

Definition hash (msg : bytes) : bytes :=
  let p := pad (map byte_to_Z msg) in
  digest (absorb (length p / 64) H0 p).

End SHA256.

Definition bcSha256 (b : bytes) : bytes := SHA256.hash b.


(** HMAC-SHA256 (RFC 2104). *)
Definition xor_byte (c : Z) (b : byte) : byte := byte_of_Z (Z.lxor (byte_to_Z b) c).

Definition hmac_sha256 (key msg : bytes) : bytes :=
  let key' := if (64 <? length key)%nat then bcSha256 key else key in
  let k := key' ++ repeat x00 (64 - length key') in
  bcSha256 (map (xor_byte 0x5c) k ++ bcSha256 (map (xor_byte 0x36) k ++ msg)).

(* ================================================================= *)
(** ** The curve secp256k1 and ECDSA over it

    The arithmetic that tiny-secp256k1 delegates to libsecp256k1, over
    Bignums integers so that it evaluates on 256-bit inputs. *)

Module Secp256k1.

Local Open Scope bigZ_scope.

Definition p : bigZ := Eval vm_compute in BigZ.of_Z (2 ^ 256 - 2 ^ 32 - 977)%Z.
Definition n : bigZ :=
  Eval vm_compute in BigZ.of_Z 0xFFFFFFFFFFFFFFFFFFFFFFFFFFFFFFFEBAAEDCE6AF48A03BBFD25E8CD0364141%Z.
Definition Gx : bigZ :=
  Eval vm_compute in BigZ.of_Z 0x79BE667EF9DCBBAC55A06295CE870B07029BFCDB2DCE28D959F2815B16F81798%Z.
Definition Gy : bigZ :=
  Eval vm_compute in BigZ.of_Z 0x483ADA7726A3C4655DA4FBFC0E1108A8FD17B448A68554199C47D08FFB10D4B8%Z.

Definition fmul (a b : bigZ) : bigZ := (a * b) mod p.
Definition fsub (a b : bigZ) : bigZ := (a - b) mod p.
Definition fadd (a b : bigZ) : bigZ := (a + b) mod p.

Fixpoint pow_pos (m a : bigZ) (e : positive) : bigZ :=
  match e with
  | xH => a mod m
  | xO e' => let h := pow_pos m a e' in (h * h) mod m
  | xI e' => let h := pow_pos m a e' in ((h * h) mod m * a) mod m
  end.

Definition modpow (m a : bigZ) (e : Z) : bigZ :=
  match e with
  | Zpos q => pow_pos m a q
  | _ => 1 mod m
  end.

(** Inverse modulo a prime. *)
Definition inv (m a : bigZ) : bigZ := modpow m a (BigZ.to_Z m - 2).

(** Points in Jacobian coordinates; [Z = 0] is the point at infinity. *)
Definition jac := (bigZ * bigZ * bigZ)%type.
Definition infinity : jac := (0, 1, 0).

Definition jdouble (P : jac) : jac :=
  let '(X, Y, Zc) := P in
  if (Y =? 0) || (Zc =? 0) then infinity else
  let A := fmul X X in
  let B := fmul Y Y in
  let C := fmul B B in
  let D := fmul 2 (fsub (fsub (fmul (fadd X B) (fadd X B)) A) C) in
  let E := fmul 3 A in
  let X3 := fsub (fmul E E) (fmul 2 D) in
  (X3, fsub (fmul E (fsub D X3)) (fmul 8 C), fmul 2 (fmul Y Zc)).

Definition jadd (P Q : jac) : jac :=
  let '(X1, Y1, Z1) := P in
  let '(X2, Y2, Z2) := Q in
  if Z1 =? 0 then Q else if Z2 =? 0 then P else
  let Z1Z1 := fmul Z1 Z1 in
  let Z2Z2 := fmul Z2 Z2 in
  let U1 := fmul X1 Z2Z2 in
  let U2 := fmul X2 Z1Z1 in
  let S1 := fmul Y1 (fmul Z2 Z2Z2) in
  let S2 := fmul Y2 (fmul Z1 Z1Z1) in
  if U1 =? U2 then (if S1 =? S2 then jdouble P else infinity) else
  let H := fsub U2 U1 in
  let R := fsub S2 S1 in
  let H2 := fmul H H in
  let H3 := fmul H H2 in
  let V := fmul U1 H2 in
  let X3 := fsub (fsub (fmul R R) H3) (fmul 2 V) in
  (X3, fsub (fmul R (fsub V X3)) (fmul S1 H3), fmul H (fmul Z1 Z2)).

Fixpoint jmul_pos (k : positive) (P : jac) : jac :=
  match k with
  | xH => P
  | xO k' => jdouble (jmul_pos k' P)
  | xI k' => jadd (jdouble (jmul_pos k' P)) P
  end.

Definition jmul (k : bigZ) (P : jac) : jac :=
  match BigZ.to_Z k with
  | Zpos q => jmul_pos q P
  | _ => infinity
  end.

Definition point := (bigZ * bigZ)%type.

Definition of_affine (P : point) : jac := (fst P, snd P, 1).

Definition to_affine (P : jac) : option point :=
  let '(X, Y, Zc) := P in
  if Zc =? 0 then None else
  let zi := inv p Zc in
  let zi2 := fmul zi zi in
  Some (fmul X zi2, fmul Y (fmul zi zi2)).

Definition G : jac := (Gx, Gy, 1).

Definition on_curve (P : point) : bool :=
  let (x, y) := P in
  (0 <=? x) && (x <? p) && (0 <=? y) && (y <? p) &&
  (fmul y y =? fadd (fmul x (fmul x x)) 7).

(** The point with abscissa [x] and the given parity of the ordinate. *)
Definition lift_x (x : bigZ) (odd : bool) : option point :=
  if (x <? 0) || (p <=? x) then None else
  let c := fadd (fmul x (fmul x x)) 7 in
  let y := modpow p c ((BigZ.to_Z p + 1) / 4)%Z in
  if fmul y y =? c
  then Some (x, if Bool.eqb (BigZ.odd y) odd then y else fsub 0 y)
  else None.

(** SEC1 public keys: 33 bytes compressed, 65 bytes uncompressed or hybrid. *)
Definition parse_point (b : bytes) : option point :=
  match b with
  | t :: rest =>
      let tag := byte_to_Z t in
      if ((tag =? 2) || (tag =? 3))%Z && (length rest =? 32)%nat then
        lift_x (BigZ.of_Z (be_value rest)) (tag =? 3)%Z
      else if ((tag =? 4) || (tag =? 6) || (tag =? 7))%Z && (length rest =? 64)%nat then
        let P := (BigZ.of_Z (be_value (firstn 32 rest)),
                  BigZ.of_Z (be_value (skipn 32 rest))) in
        if on_curve P &&
           ((tag =? 4)%Z || Bool.eqb (BigZ.odd (snd P)) (tag =? 7)%Z)
        then Some P else None
      else None
  | [] => None
  end.

Definition serialize_compressed (P : point) : bytes :=
  (if BigZ.odd (snd P) then x03 else x02) :: be_bytes 32 (BigZ.to_Z (fst P)).

Definition serialize_uncompressed (P : point) : bytes :=
  x04 :: be_bytes 32 (BigZ.to_Z (fst P)) ++ be_bytes 32 (BigZ.to_Z (snd P)).

(** ECDSA verification of [(r, s)] on the hash value [z] under key [Q];
    a high [s] is accepted, as [verify] without [strict] does. *)
Definition ecdsa_verify (z r s : bigZ) (Q : point) : bool :=
  if (r <=? 0) || (n <=? r) || (s <=? 0) || (n <=? s) then false else
  let si := inv n s in
  let u1 := (z * si) mod n in
  let u2 := (r * si) mod n in
  match to_affine (jadd (jmul u1 G) (jmul u2 (of_affine Q))) with
  | Some (x, _) => x mod n =? r
  | None => false
  end.

(** Public-key recovery, recovery id in 0..3. *)
Definition ecdsa_recover (z r s : bigZ) (recid : Z) : option point :=
  if (r <=? 0) || (n <=? r) || (s <=? 0) || (n <=? s) then None else
  let x := if Z.testbit recid 1 then r + n else r in
  match lift_x x (Z.testbit recid 0) with
  | None => None
  | Some R =>
      let ri := inv n r in
      let u1 := ((n - z mod n) * ri) mod n in
      let u2 := (s * ri) mod n in
      to_affine (jadd (jmul u1 G) (jmul u2 (of_affine R)))
  end.

(** The deterministic nonce of RFC 6979 as libsecp256k1 instantiates it:
    HMAC-SHA256 seeded with the key followed by the hash. [attempt n]
    is the state after [n] rejected candidates. *)
Definition drbg := (bytes * bytes)%type.

Definition drbg_init (seed : bytes) : drbg :=
  let V0 := repeat x01 32 in
  let K0 := repeat x00 32 in
  let K1 := hmac_sha256 K0 (V0 ++ [x00] ++ seed) in
  let V1 := hmac_sha256 K1 V0 in
  let K2 := hmac_sha256 K1 (V1 ++ [x01] ++ seed) in
  (K2, hmac_sha256 K2 V1).

Definition drbg_generate (s : drbg) : drbg :=
  let (K, V) := s in (K, hmac_sha256 K V).

Definition drbg_retry (s : drbg) : drbg :=
  let (K, V) := s in
  let K' := hmac_sha256 K (V ++ [x00]) in
  (K', hmac_sha256 K' V).

(** One signing attempt with nonce [k]: nothing when [r] or [s] is zero. *)
Definition sign_with_nonce (z d k : bigZ) : option (bigZ * bigZ * Z) :=
  match to_affine (jmul k G) with
  | None => None
  | Some (x, y) =>
      let r := x mod n in
      let s := (inv n k * ((z + r * d) mod n)) mod n in
      let recid := Z.add (if n <=? x then 2%Z else 0%Z) (if BigZ.odd y then 1%Z else 0%Z) in
      if (r =? 0) || (s =? 0) then None
      else if n / 2 <? s then Some (r, n - s, Z.lxor recid 1)
      else Some (r, s, recid)
  end.

Fixpoint sign_loop (fuel : nat) (z d : bigZ) (st : drbg) : option (bigZ * bigZ * Z) :=
  match fuel with
  | O => None
  | S fuel' =>
      let st' := drbg_generate st in
      let k := BigZ.of_Z (be_value (snd st')) in
      if (k =? 0) || (n <=? k) then sign_loop fuel' z d (drbg_retry st')
      else match sign_with_nonce z d k with
           | Some sig => Some sig
           | None => sign_loop fuel' z d (drbg_retry st')
           end
  end.

(** Candidates tried before giving up; a candidate is rejected with
    probability about [2^-128]. *)
Definition nonce_attempts : nat := 8.

Definition ecdsa_sign (h d : bytes) : option (bytes * Z) :=
  match sign_loop nonce_attempts (BigZ.of_Z (be_value h) mod n)
                  (BigZ.of_Z (be_value d)) (drbg_init (d ++ h)) with
  | Some (r, s, recid) =>
      Some (be_bytes 32 (BigZ.to_Z r) ++ be_bytes 32 (BigZ.to_Z s), recid)
  | None => None
  end.

End Secp256k1.

(* ================================================================= *)
(** ** The JavaScript engine

    Numbers are IEEE doubles; the program never computes with them, it only
    converts them to and from text and tests them. The number type and
    these conversions are taken from the engine, as is the Unicode case
    mapping of [String.prototype.toLowerCase]. *)

Class Engine := {
  number : Type;
  (** [Number::toString(n)], radix 10: [n.toString()], [`${n}`], ["" + n] *)
  Number_toString : number -> jstring;
  (** [Number(s)] on a string *)
  StringToNumber : jstring -> number;
  (** neither [NaN] nor an infinity *)
  Number_isFinite : number -> bool;
  (** [ToBoolean]: neither zero nor [NaN] *)
  Number_ToBoolean : number -> bool;
  (** the number that is a natural number below [2^53] *)
  Number_of_N : N -> number;
  String_toLowerCase : jstring -> jstring;
}.

Section Values.
Context {E : Engine}.

Local Set Warnings "-register-all".

Inductive value : Type :=
| VUndefined
| VNull
| VBool (b : bool)
| VNumber (n : number)
| VString (s : jstring)
| VBuffer (b : bytes)            (** a Node [Buffer] *)
| VUint8Array (b : bytes)        (** a [Uint8Array] that is not a [Buffer] *)
| VArray (l : list value)
| VObject (props : list (jstring * value)).
(** An object is the list of its own properties in enumeration order. *)

Definition ToBoolean (v : value) : bool :=
  match v with
  | VUndefined | VNull => false
  | VBool b => b
  | VNumber n => Number_ToBoolean n
  | VString s => match s with [] => false | _ => true end
  | _ => true
  end.

Fixpoint lookup (k : jstring) (props : list (jstring * value)) : option value :=
  match props with
  | [] => None
  | (k', v) :: rest => if jstring_eqb k k' then Some v else lookup k rest
  end.

(** How an error message names the value, [undefined] or [null], on
    which a property was looked for. *)
Definition nullish_name (v : value) : jstring :=
  match v with
  | VNull => str "null"
  | _ => str "undefined"
  end.

Definition cannot_read (v : value) (k : jstring) : exn :=
  Exn TypeError (str "Cannot read properties of " ++ nullish_name v
                   ++ str " (reading '" ++ k ++ str "')").

(** [v.k] for a name [k] that is no index and that no built-in prototype
    defines, as is the case of [prv], [salt], [sig], [hash], [r], [s] and
    [v]: an own property of an object, [undefined] on anything else but
    [null] and [undefined]. *)
Definition Get (v : value) (k : jstring) : completion value :=
  match v with
  | VUndefined | VNull => Throw (cannot_read v k)
  | VObject props =>
      Ok (match lookup k props with Some x => x | None => VUndefined end)
  | _ => Ok VUndefined
  end.

(** Array indices are enumerated first, in ascending order. *)
Definition array_index (k : jstring) : option N :=
  match parse_digits 10 k with
  | Some (d :: ds) =>
      let n := of_digits 10 (d :: ds) in
      if (negb ((d =? 0)%N && negb (length ds =? 0)%nat) && (n <? 4294967295)%N)%bool
      then Some n else None
  | _ => None
  end.

Fixpoint insert_prop (k : jstring) (x : value) (props : list (jstring * value))
  : list (jstring * value) :=
  match props with
  | [] => [(k, x)]
  | (k', v) :: rest =>
      match array_index k, array_index k' with
      | Some i, Some j => if (i <? j)%N then (k, x) :: props
                          else (k', v) :: insert_prop k x rest
      | Some _, None => (k, x) :: props
      | None, _ => (k', v) :: insert_prop k x rest
      end
  end.

Fixpoint replace_prop (k : jstring) (x : value) (props : list (jstring * value))
  : list (jstring * value) :=
  match props with
  | [] => []
  | (k', v) :: rest =>
      if jstring_eqb k k' then (k', x) :: rest
      else (k', v) :: replace_prop k x rest
  end.

(** Defining or assigning an own property: an existing one keeps its place. *)
Definition set_prop (k : jstring) (x : value) (props : list (jstring * value))
  : list (jstring * value) :=
  match lookup k props with
  | Some _ => replace_prop k x props
  | None => insert_prop k x props
  end.

(** An object literal, its properties defined from left to right. *)
Definition object_literal (fields : list (jstring * value)) : value :=
  VObject (fold_left (fun props kv => set_prop (fst kv) (snd kv) props) fields []).

Definition cannot_set (v : value) (k : jstring) : exn :=
  Exn TypeError (str "Cannot set properties of " ++ nullish_name v
                   ++ str " (setting '" ++ k ++ str "')").

Definition cannot_create (k : jstring) : exn :=
  Exn TypeError (str "Cannot create property '" ++ k ++ str "'").

(** [v.k = x] in strict mode, yielding the new state of [v]. A property
    added to an array or to a buffer is not tracked; [signAndVerify]
    assigns to objects only, having read a string from them before. *)
Definition Put (v : value) (k : jstring) (x : value) : completion value :=
  match v with
  | VUndefined | VNull => Throw (cannot_set v k)
  | VObject props => Ok (VObject (set_prop k x props))
  | VBool _ | VNumber _ | VString _ => Throw (cannot_create k)
  | VBuffer _ | VUint8Array _ | VArray _ => Ok v
  end.

(** A natural number in decimal. *)
Definition decimal (n : N) : jstring := map digit_char (to_digits 10 n).

(** The properties [0], [1], ... of a string, an array or a typed array. *)
Definition indexed (l : list value) : list (jstring * value) :=
  map (fun ix => (decimal (N.of_nat (fst ix)), snd ix))
      (combine (seq 0 (length l)) l).

(** [{ ...v }]: the own enumerable properties of [v], in their order. *)
Definition spread (v : value) : value :=
  match v with
  | VObject props => VObject props
  | VArray l => VObject (indexed l)
  | VString s => VObject (indexed (map (fun c => VString [c]) s))
  | VBuffer b | VUint8Array b =>
      VObject (indexed (map (fun x => VNumber (Number_of_N (Byte.to_N x))) b))
  | VUndefined | VNull | VBool _ | VNumber _ => VObject []
  end.

(* ----------------------------------------------------------------- *)
(** *** [JSON.stringify] *)

Definition unicode_escape (c : N) : jstring :=
  let d := map digit_char (to_digits 16 c) in
  [92; 117]%N ++ repeat 48%N (4 - length d) ++ d.

Definition quote_unit (c : N) : jstring :=
  (if c =? 8 then [92; 98]
   else if c =? 9 then [92; 116]
   else if c =? 10 then [92; 110]
   else if c =? 12 then [92; 102]
   else if c =? 13 then [92; 114]
   else if c =? 34 then [92; 34]
   else if c =? 92 then [92; 92]
   else if c <? 32 then unicode_escape c
   else [c])%N.

Fixpoint quote_units (s : jstring) : jstring :=
  match s with
  | [] => []
  | c :: t =>
      if is_high_surrogate c then
        match t with
        | d :: t' =>
            if is_low_surrogate d then c :: d :: quote_units t'
            else unicode_escape c ++ quote_units t
        | [] => unicode_escape c
        end
      else if is_low_surrogate c then unicode_escape c ++ quote_units t
      else quote_unit c ++ quote_units t
  end.

(** [QuoteJSONString] *)
Definition quote (s : jstring) : jstring := [34%N] ++ quote_units s ++ [34%N].

Fixpoint join (sep : jstring) (l : list jstring) : jstring :=
  match l with
  | [] => []
  | [x] => x
  | x :: rest => x ++ sep ++ join sep rest
  end.

Definition JSON_number (n : number) : jstring :=
  if Number_isFinite n then Number_toString n else str "null".

(** [JSON.stringify(v)]; nothing stands for [undefined]. *)
Fixpoint JSON_stringify (v : value) : option jstring :=
  match v with
  | VUndefined => None
  | VNull => Some (str "null")
  | VBool b => Some (if b then str "true" else str "false")
  | VNumber n => Some (JSON_number n)
  | VString s => Some (quote s)
  | VBuffer b =>
      Some (str "{" ++ quote (str "type") ++ str ":" ++ quote (str "Buffer") ++ str ","
              ++ quote (str "data") ++ str ":["
              ++ join (str ",") (map (fun x => decimal (Byte.to_N x)) b) ++ str "]}")
  | VUint8Array b =>
      Some (str "{"
              ++ join (str ",")
                   (map (fun ix => quote (decimal (N.of_nat (fst ix))) ++ str ":"
                                     ++ decimal (Byte.to_N (snd ix)))
                        (combine (seq 0 (length b)) b))
              ++ str "}")
  | VArray l =>
      Some (str "[" ++
            join (str ",")
              (map (fun x => match JSON_stringify x with
                             | Some s => s
                             | None => str "null"
                             end) l) ++ str "]")
  | VObject props =>
      Some (str "{" ++
            join (str ",")
              (flat_map (fun kv => match JSON_stringify (snd kv) with
                                   | Some s => [quote (fst kv) ++ str ":" ++ s]
                                   | None => []
                                   end) props) ++ str "}")
  end.

(** [JSON.stringify(o[k])] for a plain object [o], as a spread makes one.
    The own property [k] is read when there is one. Otherwise [k] is
    looked for in [Object.prototype], which the object inherits from: its
    methods ([constructor], [toString], [valueOf], [hasOwnProperty], ...)
    are functions, which have no JSON text, as [undefined] has none; its
    accessor [__proto__] yields [Object.prototype] itself, an object
    without enumerable properties, whose JSON text is [{}]. On a value
    that is no plain object the member is read as [Get] reads it. *)
Definition JSON_stringify_member (o : value) (k : jstring)
  : completion (option jstring) :=
  match o with
  | VObject props =>
      Ok (match lookup k props with
          | Some x => JSON_stringify x
          | None => if jstring_eqb k (str "__proto__") then Some (str "{}") else None
          end)
  | _ => x <- Get o k ;; Ok (JSON_stringify x)
  end.

End Values.

(* ================================================================= *)
(** ** Buffers and BigInt *)

(** [buffer.toString("hex")] *)
Definition Buffer_toString_hex (b : bytes) : jstring :=
  flat_map (fun x => [digit_char (Byte.to_N x / 16); digit_char (Byte.to_N x mod 16)]%N) b.

(** The value of a character as a hexadecimal digit in Node's decoder,
    which looks at the low byte of the code unit only. *)
Definition unhex (c : N) : option N := char_digit_in 16 (c mod 256).

(** [Buffer.from(s, "hex")]: decoding stops at the first pair that is not
    two hexadecimal digits; a trailing single character is dropped. *)
Fixpoint Buffer_from_hex (s : jstring) : bytes :=
  match s with
  | a :: b :: t =>
      match unhex a, unhex b with
      | Some x, Some y => byte_of_N (16 * x + y) :: Buffer_from_hex t
      | _, _ => []
      end
  | _ => []
  end.

(** [s.padStart(targetLength, fill)] for a one-character [fill]. *)
Definition padStart (s : jstring) (targetLength : nat) (fill : N) : jstring :=
  repeat fill (targetLength - length s) ++ s.

Definition is_white_space (c : N) : bool :=
  (((9 <=? c) && (c <=? 13)) || (c =? 32) || (c =? 0xA0) || (c =? 0x1680)
   || ((0x2000 <=? c) && (c <=? 0x200A)) || (c =? 0x2028) || (c =? 0x2029)
   || (c =? 0x202F) || (c =? 0x205F) || (c =? 0x3000) || (c =? 0xFEFF))%N.

Fixpoint trim_start (s : jstring) : jstring :=
  match s with
  | c :: t => if is_white_space c then trim_start t else s
  | [] => []
  end.

Definition trim (s : jstring) : jstring := rev (trim_start (rev (trim_start s))).

(** A non-empty numeral of the given base. *)
Definition numeral (base : N) (s : jstring) : option Z :=
  match s with
  | [] => None
  | _ => option_map (fun l => Z.of_N (of_digits base l)) (parse_digits base s)
  end.

(** [StringToBigInt]: white space is trimmed, the empty string is zero, a
    radix prefix takes no sign, a decimal numeral may have one. *)
Definition StringToBigInt (s : jstring) : option Z :=
  match trim s with
  | [] => Some 0
  | c :: t =>
      let radix_prefix :=
        match t with
        | x :: ds =>
            if (c =? 48)%N then
              if ((x =? 120) || (x =? 88))%N then Some (16%N, ds)
              else if ((x =? 111) || (x =? 79))%N then Some (8%N, ds)
              else if ((x =? 98) || (x =? 66))%N then Some (2%N, ds)
              else None
            else None
        | [] => None
        end in
      match radix_prefix with
      | Some (base, ds) => numeral base ds
      | None =>
          if (c =? 43)%N then numeral 10 t
          else if (c =? 45)%N then option_map Z.opp (numeral 10 t)
          else numeral 10 (c :: t)
      end
  end.

(** [BigInt(s)] *)
Definition BigInt (s : jstring) : completion Z :=
  match StringToBigInt s with
  | Some z => Ok z
  | None => Throw (Exn SyntaxError (str "Cannot convert " ++ s ++ str " to a BigInt"))
  end.

(** [z.toString(radix)] *)
Definition BigInt_toString (radix : N) (z : Z) : jstring :=
  (if z <? 0 then str "-" else []) ++ map digit_char (to_digits radix (Z.abs_N z)).

(* ----------------------------------------------------------------- *)
(** *** [src/core/buffer.ts] *)

Module SBuffer.

Definition toBigInt (buffer : bytes) : completion Z :=
  BigInt (str "0x" ++ Buffer_toString_hex buffer).

Definition toBigIntStr (buffer : bytes) : completion jstring :=
  x <- toBigInt buffer ;; Ok (BigInt_toString 10 x).

(** The default of the parameter [length]. *)
Definition default_length : nat := 64.

Definition fromBigInt (input : Z) (length : nat) : bytes :=
  Buffer_from_hex (padStart (BigInt_toString 16 input) length 48%N).

Definition fromBigIntStr (input : jstring) (length : nat) : completion bytes :=
  x <- BigInt input ;; Ok (fromBigInt x length).

End SBuffer.

(* ================================================================= *)
(** ** The curve library

    [ecc] is tiny-secp256k1. Each function either returns or throws. *)

Class Ecc {E : Engine} := {
  (** [ecc.signRecoverable(h, d)]: the 64-byte signature and the recovery id *)
  ecc_signRecoverable : bytes -> bytes -> completion (bytes * number);
  (** [ecc.verify(h, Q, signature)] *)
  ecc_verify : bytes -> bytes -> bytes -> completion bool;
  (** [ecc.recover(h, signature, recoveryId, compressed)]; nothing is [null] *)
  ecc_recover : bytes -> bytes -> number -> bool -> completion (option bytes);
}.

(* ================================================================= *)
(** ** The utilities: [sign], [verify], [signAndVerify] and the codec *)

Module Utils.
Section Utils.
Context {E : Engine} {C : Ecc}.

Record KeypairBuffer := { privKeyBuffer : bytes; pubKeyBuffer : bytes }.

Record Test := { valid : bool; pub : jstring; pubRecovered : jstring }.

Record VerificationResult := { test : Test; result : option jstring }.

Record RecoverableSignature := { signature : value; recoveryId : number }.

Inductive OutputFormat := OutputNumber | OutputHex.

(** [`${v}`]. The code below interpolates strings and [undefined] only
    (its other operands have passed a [typeof x === "string"] test); the
    other primitives are given as the engine prints them, and an object
    as [Object.prototype.toString] does. *)
Definition ToString (v : value) : jstring :=
  match v with
  | VUndefined => str "undefined"
  | VNull => str "null"
  | VBool b => if b then str "true" else str "false"
  | VNumber n => Number_toString n
  | VString s => s
  | _ => str "[object Object]"
  end.

(** [sha256(input)]: a string is hashed through [Buffer.from(input)]. *)
Definition sha256 (input : jstring + bytes) : bytes :=
  match input with
  | inl s => bcSha256 (utf8 s)
  | inr b => bcSha256 b
  end.

(** The object [{ v, r, s }] of three strings. *)
Definition Signature_object (v r s : jstring) : value :=
  object_literal [(str "v", VString v); (str "r", VString r); (str "s", VString s)].

(** [splitSignature(sig, outputFormat)]; [signature instanceof Uint8Array]
    holds of a [Uint8Array] and of a [Buffer]. *)
Definition splitSignature (sig : RecoverableSignature) (outputFormat : OutputFormat)
  : completion value :=
  match signature sig with
  | VBuffer b | VUint8Array b =>
      if negb (length b =? 64)%nat then
        Throw (Exn Error (str "Invalid signature length"))
      else
        let r := firstn 32 b in
        let s := firstn 32 (skipn 32 b) in
        match outputFormat with
        | OutputHex =>
            Ok (Signature_object (Number_toString (recoveryId sig))
                  (Buffer_toString_hex r) (Buffer_toString_hex s))
        | OutputNumber =>
            r' <- SBuffer.toBigIntStr r ;;
            s' <- SBuffer.toBigIntStr s ;;
            Ok (Signature_object (Number_toString (recoveryId sig)) r' s')
        end
  | _ => Throw (Exn Error (str "Invalid signature type"))
  end.

(** [joinSignature(sig)]: the 64 bytes and the recovery id. [typeof sig]
    is ["object"] for objects, arrays and typed arrays, and for [null]. *)
Definition joinSignature (sig : value) : completion (bytes * number) :=
  match sig with
  | VObject _ | VArray _ | VBuffer _ | VUint8Array _ =>
      r <- Get sig (str "r") ;;
      s <- Get sig (str "s") ;;
      v <- Get sig (str "v") ;;
      match r, s, v with
      | VString r, VString s, VString v =>
          r' <- SBuffer.fromBigIntStr r SBuffer.default_length ;;
          s' <- SBuffer.fromBigIntStr s SBuffer.default_length ;;
          Ok (r' ++ s', StringToNumber v)
      | _, _, _ => Throw (Exn Error (str "Invalid signature format"))
      end
  | _ => Throw (Exn Error (str "Invalid signature type"))
  end.

(** [sign(message, privKeyBuffer, salt)]: the signature object and the
    hash. The guard passes two strings and a [Buffer]; the rest is the
    [try] block, whose errors are caught and thrown again. *)
Definition sign (message privKeyBuffer salt : value) : completion (value * bytes) :=
  match message, privKeyBuffer, salt with
  | VString message, VBuffer privKeyBuffer, VString salt =>
      try_catch_rethrow
        (let msgHash := sha256 (inl (message ++ salt)) in
         recoverableSig <- ecc_signRecoverable msgHash privKeyBuffer ;;
         signature <- splitSignature
                        {| signature := VUint8Array (fst recoverableSig);
                           recoveryId := snd recoverableSig |} OutputNumber ;;
         Ok (signature, msgHash))
        (fun error =>
           Exn Error (str "Failed to sign the message: " ++ exn_toString error))
  | _, _, _ => Throw (Exn Error (str "Invalid input types"))
  end.

(** [verify(hash, pubKeyBuffer, signature, protocol)] *)
Definition verify (hash pubKeyBuffer : bytes) (signature protocol : value)
  : completion VerificationResult :=
  sig <- joinSignature signature ;;
  isValid <- ecc_verify hash pubKeyBuffer (fst sig) ;;
  recovered <- ecc_recover hash (fst sig) (snd sig) true ;;
  let pubRecovered :=
    Buffer_toString_hex
      (match recovered with Some b => b | None => repeat x00 33 end) in
  Ok {| test := {| valid := isValid;
                   pub := Buffer_toString_hex pubKeyBuffer;
                   pubRecovered := pubRecovered |};
        result := JSON_stringify protocol |}.

(** [protocol.prv ? protocol.prv.k : protocol.k] *)
Definition read_placed (protocol : value) (k : jstring) : completion value :=
  prv <- Get protocol (str "prv") ;;
  if ToBoolean prv then Get prv k else Get protocol k.

(** [protocol.prv ? (protocol.prv.k = x) : (protocol.k = x)], yielding the
    new state of the protocol object. The object under [prv] is assigned
    to in place: the protocol object then holds its new state. The draft
    is taken to be a tree, in which that object is referred to from [prv]
    only. *)
Definition write_placed (protocol : value) (k : jstring) (x : value)
  : completion value :=
  prv <- Get protocol (str "prv") ;;
  if ToBoolean prv
  then prv' <- Put prv k x ;; Put protocol (str "prv") prv'
  else Put protocol k x.

(** [messageKey ? JSON.stringify(test_protocol[messageKey]) : baseMessage];
    a message key that is [null] or the empty string is falsy. The member
    of [test_protocol], a plain object, is an own property or one that it
    inherits. *)
Definition test_message (test_protocol baseMessage : value)
    (messageKey : option jstring) : completion value :=
  match messageKey with
  | Some (c :: k) =>
      text <- JSON_stringify_member test_protocol (c :: k) ;;
      Ok (match text with Some s => VString s | None => VUndefined end)
  | _ => Ok baseMessage
  end.

(** The part of [signAndVerify] after the two assignments. *)
Definition self_check (protocol : value) (keypair : KeypairBuffer)
    (baseMessage : value) (messageKey : option jstring) (salt : value)
  : completion VerificationResult :=
  let test_protocol := spread protocol in
  test_message <- test_message test_protocol baseMessage messageKey ;;
  let test_msgHash := sha256 (inl (ToString test_message ++ ToString salt)) in
  test_sig <- read_placed test_protocol (str "sig") ;;
  verify test_msgHash (pubKeyBuffer keypair) test_sig protocol.

(** [signAndVerify] assigns to the protocol object it is given: the
    state of that object when the call ends is returned with the outcome. *)
Definition signAndVerify (protocol : value) (keypair : KeypairBuffer)
    (baseMessage : value) (messageKey : option jstring)
  : value * completion VerificationResult :=
  match (salt <- read_placed protocol (str "salt") ;;
         signed <- sign baseMessage (VBuffer (privKeyBuffer keypair)) salt ;;
         Ok (salt, signed)) with
  | Throw e => (protocol, Throw e)
  | Ok (salt, (signature, msgHash)) =>
      match write_placed protocol (str "sig") signature with
      | Throw e => (protocol, Throw e)
      | Ok protocol1 =>
          match write_placed protocol1 (str "hash")
                  (VString (Buffer_toString_hex msgHash)) with
          | Throw e => (protocol1, Throw e)
          | Ok protocol2 =>
              (protocol2, self_check protocol2 keypair baseMessage messageKey salt)
          end
      end
  end.

(** [getKeypairBuff(privKey, pubKey)]: a key is a hex string or a [Buffer]. *)
Definition getKeypairBuff (privKey pubKey : jstring + bytes)
  : completion KeypairBuffer :=
  let privKeyBuffer :=
    match privKey with inr b => b | inl s => Buffer_from_hex s end in
  let pubKeyBuffer :=
    match pubKey with inr b => b | inl s => Buffer_from_hex s end in
  if (negb (length privKeyBuffer =? 32) || negb (length pubKeyBuffer =? 33))%nat
  then Throw (Exn Error (str "Invalid key length"))
  else Ok {| privKeyBuffer := privKeyBuffer; pubKeyBuffer := pubKeyBuffer |}.

End Utils.
End Utils.

(* ================================================================= *)
(** ** The inscription builders *)

Module Tap.
Section Tap.
Context {E : Engine} {C : Ecc}.

(** A [salt] argument: given as a number or a string, or left out. When
    it is left out the default [Math.random()] is evaluated; [random] is
    the number that this evaluation yields. *)
Definition salt_arg := option (number + jstring).

(** ["" + salt] *)
Definition salt_text (salt : salt_arg) (random : number) : jstring :=
  match salt with
  | None => Number_toString random
  | Some (inl n) => Number_toString n
  | Some (inr s) => s
  end.

(** A builder yields the protocol object it has built, in its final
    state, and the outcome; no object is built when the keys are refused. *)
Definition built := (option value * completion Utils.VerificationResult)%type.

Definition with_keypair (privKey pubKey : jstring + bytes)
    (k : Utils.KeypairBuffer -> value * completion Utils.VerificationResult)
  : built :=
  match Utils.getKeypairBuff privKey pubKey with
  | Throw e => (None, Throw e)
  | Ok keypair => let (protocol, r) := k keypair in (Some protocol, r)
  end.

Definition signAuth (privKey pubKey : jstring + bytes) (messageKey : jstring)
    (message : value) (salt : salt_arg) (random : number) : built :=
  with_keypair privKey pubKey (fun keypair =>
    let protocol :=
      object_literal
        [(str "p", VString (str "tap"));
         (str "op", VString (str "privilege-auth"));
         (str "sig", VNull);
         (str "hash", VNull);
         (str "salt", VString (salt_text salt random));
         (messageKey, message)] in
    let baseMessage :=
      match JSON_stringify message with Some s => VString s | None => VUndefined end in
    Utils.signAndVerify protocol keypair baseMessage (Some messageKey)).

Definition signMint (privKey pubKey : jstring + bytes) (ticker : jstring)
    (amount : number) (address : jstring) (salt : salt_arg) (random : number)
  : built :=
  with_keypair privKey pubKey (fun keypair =>
    let p := str "tap" in
    let op := str "token-mint" in
    let tick := String_toLowerCase ticker in
    let protocol :=
      object_literal
        [(str "p", VString p);
         (str "op", VString op);
         (str "tick", VString tick);
         (str "amt", VNumber amount);
         (str "prv",
          object_literal
            [(str "sig", VNull);
             (str "hash", VNull);
             (str "address", VString address);
             (str "salt", VString (salt_text salt random))])] in
    let baseMessage :=
      p ++ str "-" ++ op ++ str "-" ++ tick ++ str "-" ++ Number_toString amount
        ++ str "-" ++ address ++ str "-" in
    Utils.signAndVerify protocol keypair (VString baseMessage) None).

Definition signDmtMint (privKey pubKey : jstring + bytes) (ticker : jstring)
    (block : number) (dependency address : jstring) (salt : salt_arg)
    (random : number) : built :=
  with_keypair privKey pubKey (fun keypair =>
    let p := str "tap" in
    let op := str "dmt-mint" in
    let tick := String_toLowerCase ticker in
    let protocol :=
      object_literal
        [(str "p", VString p);
         (str "op", VString op);
         (str "tick", VString tick);
         (str "blk", VNumber block);
         (str "dep", VString dependency);
         (str "prv",
          object_literal
            [(str "sig", VNull);
             (str "hash", VNull);
             (str "address", VString address);
             (str "salt", VString (salt_text salt random))])] in
    let baseMessage :=
      p ++ str "-" ++ op ++ str "-" ++ tick ++ str "-" ++ Number_toString block
        ++ str "-" ++ dependency ++ str "-" ++ address ++ str "-" in
    Utils.signAndVerify protocol keypair (VString baseMessage) None).

Definition signVerification (privKey pubKey : jstring + bytes)
    (privilege_authority_id sha256_hash collection : jstring) (sequence : number)
    (address : jstring) (salt : salt_arg) (random : number) : built :=
  with_keypair privKey pubKey (fun keypair =>
    let protocol :=
      object_literal
        [(str "p", VString (str "tap"));
         (str "op", VString (str "privilege-auth"));
         (str "sig", VNull);
         (str "hash", VNull);
         (str "address", VString address);
         (str "salt", VString (salt_text salt random));
         (str "prv", VString privilege_authority_id);
         (str "verify", VString sha256_hash);
         (str "col", VString collection);
         (str "seq", VNumber sequence)] in
    let baseMessage :=
      privilege_authority_id ++ str "-" ++ collection ++ str "-" ++ sha256_hash
        ++ str "-" ++ Number_toString sequence ++ str "-" ++ address ++ str "-" in
    Utils.signAndVerify protocol keypair (VString baseMessage) None).

Definition generateTokenAuthScript (privKey pubKey : jstring + bytes)
    (messageKey : jstring) (message : value) (salt : salt_arg) (random : number)
  : built :=
  with_keypair privKey pubKey (fun keypair =>
    let protocol :=
      object_literal
        [(str "p", VString (str "tap"));
         (str "op", VString (str "token-auth"));
         (str "sig", VNull);
         (str "hash", VNull);
         (str "salt", VString (salt_text salt random));
         (messageKey, message)] in
    let baseMessage :=
      match JSON_stringify message with Some s => VString s | None => VUndefined end in
    Utils.signAndVerify protocol keypair baseMessage (Some messageKey)).

Definition signTokenAuth (privKey pubKey : jstring + bytes)
    (authTokens : option (list jstring)) (salt : salt_arg) (random : number)
  : built :=
  let authTokens := match authTokens with Some l => l | None => [] end in
  generateTokenAuthScript privKey pubKey (str "auth")
    (VArray (map VString authTokens)) salt random.

Definition signTokenRedeem (privKey pubKey : jstring + bytes)
    (redeemItems : option (list value)) (auth data : option jstring)
    (salt : salt_arg) (random : number) : built :=
  let redeemItems := match redeemItems with Some l => l | None => [] end in
  let auth := match auth with Some s => s | None => [] end in
  let data := match data with Some s => s | None => [] end in
  let message :=
    object_literal
      [(str "items", VArray redeemItems);
       (str "auth", VString auth);
       (str "data", VString data)] in
  generateTokenAuthScript privKey pubKey (str "redeem") message salt random.

End Tap.
End Tap.

(* ================================================================= *)
(** ** An engine and the curve library to run the embedding on

    [IntegerEngine] is the engine restricted to the numbers that are
    integers (of absolute value below [2^53], written without fraction or
    exponent) or [NaN], and to the case mapping of ASCII letters.
    [TinySecp256k1] is the library's argument validation, as
    tiny-secp256k1 2.x performs it, in front of the arithmetic of
    [Secp256k1]. *)

Module IntegerEngine.

Inductive num := Int (z : Z) | NaN.

Definition toString (n : num) : jstring :=
  match n with
  | Int z => BigInt_toString 10 z
  | NaN => str "NaN"
  end.

(** [Number(s)] for the strings of this engine's domain: white space is
    trimmed, the empty string is zero, and an integer numeral of absolute
    value up to [2^53] is read as [BigInt(s)] reads it; a string that is
    no numeric literal gives [NaN]. A literal with a fraction or an
    exponent, [Infinity] and the integers beyond [2^53] are numbers that
    this engine does not have: it is not [Number] on them. The closed
    lemmas apply it to the recovery ids ['0'] and ['1'] only. *)
Definition ofString (s : jstring) : num :=
  match StringToBigInt s with
  | Some z => Int z
  | None => NaN
  end.

Definition lower_unit (c : N) : N :=
  (if (65 <=? c) && (c <=? 90) then c + 32 else c)%N.

#[export] Instance engine : Engine := {|
  number := num;
  Number_toString := toString;
  StringToNumber := ofString;
  Number_isFinite := fun n => match n with Int _ => true | NaN => false end;
  Number_ToBoolean := fun n => match n with Int z => negb (z =? 0) | NaN => false end;
  Number_of_N := fun n => Int (Z.of_N n);
  String_toLowerCase := map lower_unit;
|}.

End IntegerEngine.

Module TinySecp256k1.
Import IntegerEngine.

Definition ERROR_BAD_PRIVATE : exn := Exn TypeError (str "Expected Private").
Definition ERROR_BAD_POINT : exn := Exn TypeError (str "Expected Point").
Definition ERROR_BAD_HASH : exn := Exn TypeError (str "Expected Hash").
Definition ERROR_BAD_SIGNATURE : exn := Exn TypeError (str "Expected Signature").
Definition ERROR_BAD_RECOVERY_ID : exn := Exn TypeError (str "Bad Recovery Id").

Definition order : Z := BigZ.to_Z Secp256k1.n.
Definition field : Z := BigZ.to_Z Secp256k1.p.

Definition validate (ok : bool) (e : exn) : completion unit :=
  if ok then Ok tt else Throw e.

Definition isHash (h : bytes) : bool := (length h =? 32)%nat.

Definition isPrivate (d : bytes) : bool :=
  (length d =? 32)%nat && (0 <? be_value d) && (be_value d <? order).

Definition isPoint (q : bytes) : bool :=
  match Secp256k1.parse_point q with Some _ => true | None => false end.

Definition isSignature (sig : bytes) : bool :=
  (length sig =? 64)%nat && (be_value (firstn 32 sig) <? order)
  && (be_value (skipn 32 sig) <? order).

Definition isZero (b : bytes) : bool := be_value b =? 0.

Definition isXOnlyPoint (x : bytes) : bool :=
  match Secp256k1.lift_x (BigZ.of_Z (be_value x)) false with
  | Some _ => true
  | None => false
  end.

(** [ToInt32] of a recovery id. *)
Definition ToInt32 (n : num) : Z :=
  match n with
  | Int z => (z + 2 ^ 31) mod 2 ^ 32 - 2 ^ 31
  | NaN => 0
  end.

Definition signRecoverable (h d : bytes) : completion (bytes * num) :=
  _ <- validate (isHash h) ERROR_BAD_HASH ;;
  _ <- validate (isPrivate d) ERROR_BAD_PRIVATE ;;
  match Secp256k1.ecdsa_sign h d with
  | Some (sig, recid) => Ok (sig, Int recid)
  | None => Throw (Exn Error (str "no nonce found"))
  end.

Definition verify (h q sig : bytes) : completion bool :=
  _ <- validate (isHash h) ERROR_BAD_HASH ;;
  _ <- validate (isPoint q) ERROR_BAD_POINT ;;
  _ <- validate (isSignature sig) ERROR_BAD_SIGNATURE ;;
  Ok (match Secp256k1.parse_point q with
      | Some Q =>
          Secp256k1.ecdsa_verify (BigZ.of_Z (be_value h))
            (BigZ.of_Z (be_value (firstn 32 sig)))
            (BigZ.of_Z (be_value (skipn 32 sig))) Q
      | None => false
      end).

Definition recover (h sig : bytes) (recoveryId : num) (compressed : bool)
  : completion (option bytes) :=
  let recid := ToInt32 recoveryId in
  _ <- validate (isHash h) ERROR_BAD_HASH ;;
  _ <- validate (isSignature sig) ERROR_BAD_SIGNATURE ;;
  _ <- validate (negb (isZero (firstn 32 sig))) ERROR_BAD_SIGNATURE ;;
  _ <- validate (negb (isZero (skipn 32 sig))) ERROR_BAD_SIGNATURE ;;
  _ <- validate (negb (Z.testbit recid 1)
                 || (be_value (firstn 32 sig) <? field - order))
                ERROR_BAD_RECOVERY_ID ;;
  _ <- validate (isXOnlyPoint (firstn 32 sig)) ERROR_BAD_SIGNATURE ;;
  _ <- validate ((0 <=? recid) && (recid <=? 3)) ERROR_BAD_SIGNATURE ;;
  Ok (option_map
        (if compressed then Secp256k1.serialize_compressed
         else Secp256k1.serialize_uncompressed)
        (Secp256k1.ecdsa_recover (BigZ.of_Z (be_value h))
           (BigZ.of_Z (be_value (firstn 32 sig)))
           (BigZ.of_Z (be_value (skipn 32 sig))) recid)).

#[export] Instance ecc : Ecc := {|
  ecc_signRecoverable := signRecoverable;
  ecc_verify := verify;
  ecc_recover := recover;
|}.

End TinySecp256k1.


(* ================================================================= *)
(** ** Notions used in the statements *)

(** The two hexadecimal digits of each byte. *)
Definition nibbles (b : bytes) : list N :=
  flat_map (fun x => [Byte.to_N x / 16; Byte.to_N x mod 16]%N) b.

(** [l] is the numeral of [n] in [base]: its digits, most significant
    first, as many as needed and no more. *)
Record numeral_of (base n : N) (l : list N) : Prop := {
  numeral_value : of_digits base l = n;
  numeral_digits : Forall (fun d => d < base)%N l;
  numeral_nonempty : l <> [];
  numeral_short : forall k, (0 < k)%nat -> (n < base ^ N.of_nat k)%N -> (length l <= k)%nat;
  numeral_long : forall k, (base ^ N.of_nat k <= n)%N -> (k < length l)%nat;
}.

(** The characters of a numeral: digits and lower-case letters. *)
Definition numeral_char (c : N) : Prop :=
  (48 <= c <= 57)%N \/ (97 <= c <= 122)%N.

(** The one way in which encoding does not distribute over concatenation:
    the left string ends with a high surrogate and the right one starts
    with a low surrogate, so that the two form a pair once joined. *)
Definition joins_surrogates (m s : jstring) : bool :=
  is_high_surrogate (last m 0%N) && is_low_surrogate (hd 0%N s).

(** What a call has returned, if it has. *)
Definition returned {A : Type} (c : completion A) : option A :=
  match c with
  | Ok a => Some a
  | Throw _ => None
  end.

Definition invalid_input_types : exn := Exn Error (str "Invalid input types").

Definition failed_to_sign (error : exn) : exn :=
  Exn Error (str "Failed to sign the message: " ++ exn_toString error).

Section Notions.
Context {E : Engine} {C : Ecc}.

(** What the [try] block of [sign] does with validated arguments. *)
Definition sign_body (message : jstring) (privKeyBuffer : bytes) (salt : jstring)
  : completion (value * bytes) :=
  let msgHash := bcSha256 (utf8 (message ++ salt)) in
  recoverableSig <- ecc_signRecoverable msgHash privKeyBuffer ;;
  signature <- Utils.splitSignature
                 {| Utils.signature := VUint8Array (fst recoverableSig);
                    Utils.recoveryId := snd recoverableSig |} Utils.OutputNumber ;;
  Ok (signature, msgHash).

(** [protocol.prv] of an object. *)
Definition prv_of (props : list (jstring * value)) : value :=
  match lookup (str "prv") props with Some x => x | None => VUndefined end.

(** The two shapes of a protocol object in which the placed field [k] is
    found: on the object itself when its [prv] is falsy, on the object
    that is its [prv] otherwise. *)
Inductive shape (protocol : value) (k : jstring) (found : value) : Prop :=
| Flat (props : list (jstring * value))
    (Hprotocol : protocol = VObject props)
    (Hprv : ToBoolean (prv_of props) = false)
    (Hk : lookup k props = Some found)
| Nested (props pprops : list (jstring * value))
    (Hprotocol : protocol = VObject props)
    (Hprv : lookup (str "prv") props = Some (VObject pprops))
    (Hk : lookup k pprops = Some found).

End Notions.

(** *** What a run yields *)

Section Outcomes.
Context {E : Engine} {C : Ecc}.

(** What [verify] returns once the signature is joined: the verdict of
    the library on the bytes [raw], the key it recovers from them, and the
    JSON text of the protocol object. *)
Definition library_verdict (hash pubKeyBuffer raw : bytes) (recoveryId : number)
    (protocol : value) : completion Utils.VerificationResult :=
  isValid <- ecc_verify hash pubKeyBuffer raw ;;
  recovered <- ecc_recover hash raw recoveryId true ;;
  Ok {| Utils.test :=
          {| Utils.valid := isValid;
             Utils.pub := Buffer_toString_hex pubKeyBuffer;
             Utils.pubRecovered :=
               Buffer_toString_hex
                 (match recovered with Some b => b | None => repeat x00 33 end) |};
        Utils.result := JSON_stringify protocol |}.

(** The signature object that [splitSignature] makes of 64 bytes and a
    recovery id, with [r] and [s] as decimal numerals. *)
Definition signature_of (raw : bytes) (recoveryId : number) : value :=
  Utils.Signature_object (Number_toString recoveryId)
    (decimal (Z.to_N (be_value (firstn 32 raw))))
    (decimal (Z.to_N (be_value (skipn 32 raw)))).

(** The state in which [signAndVerify] leaves a protocol object with the
    properties [props] once it has signed: [sig] and [hash] are assigned on
    the object that is its [prv] when there is one, on the protocol object
    itself otherwise. *)
Definition signed_draft (props : list (jstring * value)) (signature : value)
    (msgHash : bytes) : value :=
  let assigned fields :=
    set_prop (str "hash") (VString (Buffer_toString_hex msgHash))
      (set_prop (str "sig") signature fields) in
  match lookup (str "prv") props with
  | Some (VObject pprops) =>
      VObject (set_prop (str "prv") (VObject (assigned pprops)) props)
  | _ => VObject (assigned props)
  end.

End Outcomes.

(* ================================================================= *)
(** ** The data of the repository's tests *)

Module TestData.
Import IntegerEngine TinySecp256k1.

Definition pk : jstring :=
  str "6c94b29a47f0f4b7380f2f3975a612d4f5db4b56bbe8471d258ba3e125dbdce5".

Definition pub : jstring :=
  str "03087906bf9472c7db48daee1478b7e70f4b3ce01436a241e3418b72ecdc87884b".

Definition keypair : Utils.KeypairBuffer :=
  {| Utils.privKeyBuffer := Buffer_from_hex pk;
     Utils.pubKeyBuffer := Buffer_from_hex pub |}.

Definition verifyingHash : bytes :=
  Buffer_from_hex
    (str "5471b88a5e721a74fa4d75a3c95fa045e951643c948fdd79af5fa5d10ac99e1a").

Definition signature : value :=
  Utils.Signature_object (str "0")
    (str "34249651214269469717861213398711965184800430928931385332066625619914023697843")
    (str "36706060356166294409252831878099979084287150562193464995607767095211250500217").

Definition invalidSignature : value :=
  Utils.Signature_object (str "0") (str "0") (str "0").

(** A signature whose [r] is a string that is no numeral. *)
Definition garbageSignature : value :=
  Utils.Signature_object (str "0") (str "abc") (str "1").

(** A hash that [signature] does not sign, and the key that is recovered
    from the two. *)
Definition unsigned_hash : bytes := bcSha256 (utf8 (str "test_message")).

Definition stray_key : bytes :=
  Buffer_from_hex
    (str "0376fb5387313c5cdd15fd8b95869849196012d53544dbccec42adf05d8266c001").

(** The key of the test "should throw an error when signing fails". *)
Definition test_privKey : bytes := utf8 (str "test_privKey").

(** The protocol object of the test with a null message key. *)
Definition protocol : value :=
  object_literal
    [(str "p", VString (str "tap"));
     (str "op", VString (str "privilege-auth"));
     (str "sig", VNull);
     (str "hash", VNull);
     (str "salt", VString (str "test_salt"))].

Definition message : value :=
  object_literal [(str "message", VString (str "test_baseMessage"))].

(** The protocol object of the test with the message key ["auth"]. *)
Definition keyed_protocol : value :=
  object_literal
    [(str "p", VString (str "tap"));
     (str "op", VString (str "privilege-auth"));
     (str "sig", VNull);
     (str "hash", VNull);
     (str "salt", VString (str "test_salt"));
     (str "auth", message)].

(** The arguments and the result of the README's [signMint] example. *)
Definition readme_ticker : jstring := str "tap-token-auth".

Definition readme_minter : jstring :=
  str "tb1p96fnzkff6af94z0zpaahqws45rjcw5fd6wk3pe2w7cqz279wl6rqzw0k37".

Definition readme_salt : jstring := str "0.4840164898423085".

Definition readme_mint_hash : jstring :=
  str "b117c449ebba4b9f033ad46daa55a1004369463cdc757bd98a27ac05317e7165".

Definition readme_mint_pub : jstring :=
  str "02801d73a46adffac2a0bc9bddce670a64b99e97df87a1c86aa38dab8f642cdcdd".

Definition readme_mint_sig : value :=
  Utils.Signature_object (str "0")
    (str "28840735240323581642649166158114847033326200650757009309461520982937724983138")
    (str "43031653986158326967040449621257596604714194318555432467794807862498111678116").

(** The two halves of U+1F600 as two strings. *)
Definition high_half : jstring := [0xD83D%N].
Definition low_half : jstring := [0xDE00%N].

(** [2^256] and [2^260] in decimal: one and two hexadecimal digits more
    than the sixty-four that thirty-two bytes hold. *)
Definition two_to_256 : jstring :=
  str "115792089237316195423570985008687907853269984665640564039457584007913129639936".

Definition two_to_260 : jstring :=
  str "1852673427797059126777135760139006525652319754650249024631321344126610074238976".

End TestData.

(* ================================================================= *)
(** * Properties *)

(** ** Numerals *)

Section Numerals.
Variable base : N.
Hypothesis base_ge_2 : (2 <= base)%N.

Lemma pow_base_pos (k : nat) : (0 < base ^ N.of_nat k)%N.
Proof. apply N.neq_0_lt_0, N.pow_nonzero. lia. Qed.

Lemma fold_digits_acc (l : list N) (a : N) :
  fold_left (fun acc d => acc * base + d)%N l a
  = (a * base ^ N.of_nat (length l) + of_digits base l)%N.
Proof.
  unfold of_digits. revert a.
  induction l as [|d l IH]; intros a; cbn [fold_left length].
  - rewrite N.pow_0_r. lia.
  - rewrite IH, (IH (0 * base + d)%N), Nat2N.inj_succ, N.pow_succ_r'. ring.
Qed.

Lemma of_digits_app (l1 l2 : list N) :
  of_digits base (l1 ++ l2)
  = (of_digits base l1 * base ^ N.of_nat (length l2) + of_digits base l2)%N.
Proof.
  unfold of_digits at 1. rewrite fold_left_app. apply fold_digits_acc.
Qed.

Lemma of_digits_snoc (l : list N) (d : N) :
  of_digits base (l ++ [d]) = (of_digits base l * base + d)%N.
Proof.
  rewrite of_digits_app. cbn [length]. change (N.of_nat 1) with 1%N.
  rewrite N.pow_1_r. unfold of_digits at 2. cbn [fold_left]. lia.
Qed.

Lemma of_digits_zeros (k : nat) (l : list N) :
  of_digits base (repeat 0%N k ++ l) = of_digits base l.
Proof.
  rewrite of_digits_app.
  assert (H : of_digits base (repeat 0%N k) = 0%N).
  { induction k as [|k IH]; [reflexivity|].
    change (repeat 0%N (S k)) with ([0%N] ++ repeat 0%N k).
    rewrite of_digits_app, IH. unfold of_digits. cbn [fold_left]. lia. }
  rewrite H. lia.
Qed.

Lemma digits_fuel_S (f : nat) (n : N) (acc : list N) :
  digits_fuel base (S f) n acc
  = if (n / base =? 0)%N then (n mod base)%N :: acc
    else digits_fuel base f (n / base)%N ((n mod base)%N :: acc).
Proof. reflexivity. Qed.

Lemma digits_fuel_spec (f : nat) :
  forall (n : N) (acc : list N),
    (n < 2 ^ N.of_nat (S f))%N ->
    exists l, digits_fuel base (S f) n acc = l ++ acc /\ numeral_of base n l.
Proof.
  induction f as [|f IH]; intros n acc Hn; rewrite digits_fuel_S.
  - assert (Hq : (n / base = 0)%N).
    { apply N.div_small. change (2 ^ N.of_nat 1)%N with 2%N in Hn. lia. }
    rewrite Hq. cbn [N.eqb].
    assert (Hm : (n mod base = n)%N).
    { apply N.mod_small. change (2 ^ N.of_nat 1)%N with 2%N in Hn. lia. }
    rewrite Hm. exists [n]. split; [reflexivity|].
    change (2 ^ N.of_nat 1)%N with 2%N in Hn.
    split.
    + unfold of_digits. cbn. lia.
    + constructor; [lia|constructor].
    + discriminate.
    + intros k Hk _. cbn. lia.
    + intros k Hk. destruct k as [|k]; [cbn; lia|].
      exfalso. rewrite Nat2N.inj_succ, N.pow_succ_r' in Hk.
      pose proof (pow_base_pos k). nia.
  - destruct (N.eqb_spec (n / base) 0) as [Hq|Hq].
    + assert (Hlt : (n < base)%N).
      { destruct (N.lt_ge_cases n base) as [?|Hge]; [assumption|].
        exfalso. assert (1 <= n / base)%N; [|lia].
        apply N.div_le_lower_bound; lia. }
      rewrite N.mod_small by assumption.
      exists [n]. split; [reflexivity|]. split.
      * unfold of_digits. cbn. lia.
      * constructor; [lia|constructor].
      * discriminate.
      * intros k Hk _. cbn. lia.
      * intros k Hk. destruct k as [|k]; [cbn; lia|].
        exfalso. rewrite Nat2N.inj_succ, N.pow_succ_r' in Hk.
        pose proof (pow_base_pos k). nia.
    + assert (Hdiv : (n / base < 2 ^ N.of_nat (S f))%N).
      { rewrite (Nat2N.inj_succ (S f)), N.pow_succ_r' in Hn.
        apply N.Div0.div_lt_upper_bound.
        assert (0 < 2 ^ N.of_nat (S f))%N by (apply N.neq_0_lt_0, N.pow_nonzero; lia).
        nia. }
      destruct (IH (n / base)%N ((n mod base)%N :: acc) Hdiv) as (l & El & Hl).
      exists (l ++ [(n mod base)%N]). split.
      { rewrite El, <- app_assoc. reflexivity. }
      destruct Hl as [Hv Hd Hne Hs Hg]. split.
      * rewrite of_digits_snoc, Hv.
        pose proof (N.div_mod n base ltac:(lia)). lia.
      * apply Forall_app. split; [assumption|].
        constructor; [apply N.mod_lt; lia|constructor].
      * destruct l; discriminate.
      * intros k Hk Hnk. rewrite length_app. cbn [length].
        destruct k as [|[|k]]; [lia| |].
        { exfalso. change (N.of_nat 1) with 1%N in Hnk. rewrite N.pow_1_r in Hnk.
          apply Hq, N.div_small. assumption. }
        assert (length l <= S k)%nat; [|lia].
        apply Hs; [lia|].
        apply N.Div0.div_lt_upper_bound.
        rewrite (Nat2N.inj_succ (S k)), N.pow_succ_r' in Hnk. assumption.
      * intros k Hk. rewrite length_app. cbn [length].
        destruct k as [|k]; [lia|].
        assert (k < length l)%nat; [|lia].
        apply Hg. rewrite Nat2N.inj_succ, N.pow_succ_r' in Hk.
        apply N.div_le_lower_bound; lia.
Qed.

Lemma to_digits_spec (n : N) : numeral_of base n (to_digits base n).
Proof.
  unfold to_digits.
  destruct (digits_fuel_spec (N.to_nat (N.log2 n)) n []) as (l & El & Hl).
  - rewrite Nat2N.inj_succ, N2Nat.id.
    destruct n as [|q]; [cbn; lia|].
    apply N.log2_spec. lia.
  - rewrite El, app_nil_r. assumption.
Qed.

End Numerals.

(** ** Digits as characters *)

Lemma char_digit_digit_char (d : N) :
  (d < 36)%N -> char_digit (digit_char d) = Some d.
Proof.
  intros Hd. unfold char_digit, digit_char.
  destruct (N.ltb_spec d 10).
  - replace ((48 <=? 48 + d) && (48 + d <=? 57))%N with true
      by (symmetry; apply andb_true_intro; split; apply N.leb_le; lia).
    f_equal. lia.
  - replace ((48 <=? 87 + d) && (87 + d <=? 57))%N with false
      by (symmetry; apply andb_false_intro2, N.leb_gt; lia).
    replace ((97 <=? 87 + d) && (87 + d <=? 122))%N with true
      by (symmetry; apply andb_true_intro; split; apply N.leb_le; lia).
    f_equal. lia.
Qed.

Lemma parse_digits_print (base : N) (l : list N) :
  (base <= 36)%N -> Forall (fun d => d < base)%N l ->
  parse_digits base (map digit_char l) = Some l.
Proof.
  intros Hb Hl. induction Hl as [|d l Hd _ IH]; [reflexivity|].
  cbn [map parse_digits]. unfold char_digit_in.
  rewrite char_digit_digit_char by lia.
  apply N.ltb_lt in Hd. rewrite Hd, IH. reflexivity.
Qed.

Lemma digit_char_numeral (d : N) : (d < 36)%N -> numeral_char (digit_char d).
Proof.
  intros Hd. unfold numeral_char, digit_char.
  destruct (N.ltb_spec d 10); lia.
Qed.

Lemma Forall_numeral_char (base : N) (l : list N) :
  (base <= 36)%N -> Forall (fun d => d < base)%N l ->
  Forall numeral_char (map digit_char l).
Proof.
  intros Hb Hl. apply Forall_map. eapply Forall_impl; [|exact Hl].
  cbn. intros d Hd. apply digit_char_numeral. lia.
Qed.

Lemma numeral_char_not_white (c : N) : numeral_char c -> is_white_space c = false.
Proof.
  intros Hc. unfold is_white_space.
  repeat (apply orb_false_intro);
    first [ apply N.eqb_neq; unfold numeral_char in Hc; lia
          | apply andb_false_iff; unfold numeral_char in Hc;
            destruct (N.leb_spec 9 c); [right; apply N.leb_gt; lia|left; reflexivity]
          | apply andb_false_iff; unfold numeral_char in Hc;
            left; apply N.leb_gt; lia ].
Qed.

Lemma trim_start_id (s : jstring) :
  match s with c :: _ => is_white_space c = false | [] => True end ->
  trim_start s = s.
Proof.
  destruct s as [|c t]; [reflexivity|]. cbn. intros ->. reflexivity.
Qed.

(** Trimming leaves a string alone that neither starts nor ends with
    white space. *)
Lemma trim_id (s : jstring) :
  Forall (fun c => is_white_space c = false) s -> trim s = s.
Proof.
  intros Hs. unfold trim.
  rewrite (trim_start_id s) by (destruct Hs; [exact I|assumption]).
  rewrite trim_start_id; [apply rev_involutive|].
  apply Forall_rev in Hs. destruct Hs; [exact I|assumption].
Qed.

Lemma numeral_print (base : N) (l : list N) :
  (base <= 36)%N -> l <> [] -> Forall (fun d => d < base)%N l ->
  numeral base (map digit_char l) = Some (Z.of_N (of_digits base l)).
Proof.
  intros Hb Hne Hl. unfold numeral.
  rewrite parse_digits_print by assumption.
  destruct l; [contradiction|reflexivity].
Qed.

(** [BigInt] reads back what [toString()] prints of a natural number. *)
Lemma StringToBigInt_decimal (n : N) :
  StringToBigInt (map digit_char (to_digits 10 n)) = Some (Z.of_N n).
Proof.
  destruct (to_digits_spec 10 ltac:(lia) n) as [Hv Hd Hne _ _].
  unfold StringToBigInt.
  rewrite trim_id.
  2:{ eapply Forall_impl; [apply numeral_char_not_white|].
      apply (Forall_numeral_char 10); [lia|assumption]. }
  pose proof (numeral_print 10 _ ltac:(lia) Hne Hd) as Hnum.
  rewrite Hv in Hnum.
  destruct (to_digits 10 n) as [|d l]; [contradiction|].
  cbn [map] in *.
  assert (Hc : (48 <= digit_char d <= 57)%N).
  { inversion Hd; subst. unfold digit_char.
    destruct (N.ltb_spec d 10); lia. }
  assert (Hx : match map digit_char l with
               | x :: ds =>
                   (if (digit_char d =? 48)%N then
                      if ((x =? 120) || (x =? 88))%N then Some (16%N, ds)
                      else if ((x =? 111) || (x =? 79))%N then Some (8%N, ds)
                      else if ((x =? 98) || (x =? 66))%N then Some (2%N, ds)
                      else None
                    else None)
               | [] => None
               end = None).
  { destruct l as [|e l]; [reflexivity|]. cbn [map].
    assert (He : (48 <= digit_char e <= 57)%N).
    { inversion Hd as [|? ? _ Hd']; subst. inversion Hd'; subst. unfold digit_char.
      destruct (N.ltb_spec e 10); lia. }
    destruct (digit_char d =? 48)%N; [|reflexivity].
    repeat match goal with
           | |- context [(digit_char e =? ?k)%N] =>
               replace (digit_char e =? k)%N with false
                 by (symmetry; apply N.eqb_neq; lia)
           end.
    reflexivity. }
  rewrite Hx.
  replace (digit_char d =? 43)%N with false by (symmetry; apply N.eqb_neq; lia).
  replace (digit_char d =? 45)%N with false by (symmetry; apply N.eqb_neq; lia).
  exact Hnum.
Qed.

(** [BigInt] reads a hexadecimal numeral after the prefix [0x]. *)
Lemma StringToBigInt_hex (l : list N) :
  l <> [] -> Forall (fun d => d < 16)%N l ->
  StringToBigInt (str "0x" ++ map digit_char l) = Some (Z.of_N (of_digits 16 l)).
Proof.
  intros Hne Hl. unfold StringToBigInt.
  rewrite trim_id.
  2:{ apply Forall_app. split.
      - repeat constructor.
      - eapply Forall_impl; [apply numeral_char_not_white|].
        apply (Forall_numeral_char 16); [lia|assumption]. }
  cbn. apply numeral_print; [lia|assumption|assumption].
Qed.

(** ** Bytes *)

Lemma byte_to_Z_range (b : byte) : 0 <= byte_to_Z b < 256.
Proof.
  unfold byte_to_Z. pose proof (Byte.to_N_bounded b). lia.
Qed.

Lemma byte_of_to_Z (b : byte) : byte_of_Z (byte_to_Z b) = b.
Proof.
  unfold byte_of_Z. pose proof (byte_to_Z_range b).
  rewrite Z.mod_small by assumption.
  unfold byte_to_Z. rewrite N2Z.id, Byte.of_to_N. reflexivity.
Qed.

Lemma byte_to_of_Z (z : Z) : byte_to_Z (byte_of_Z z) = z mod 256.
Proof.
  unfold byte_of_Z, byte_to_Z.
  pose proof (Z.mod_pos_bound z 256 ltac:(lia)) as Hz.
  destruct (Byte.of_N (Z.to_N (z mod 256))) as [b|] eqn:Eb.
  - apply Byte.to_of_N in Eb. rewrite Eb. lia.
  - apply Byte.of_N_None_iff in Eb. lia.
Qed.

Lemma byte_to_Z_inj (a b : byte) : byte_to_Z a = byte_to_Z b -> a = b.
Proof.
  intros H. rewrite <- (byte_of_to_Z a), <- (byte_of_to_Z b), H. reflexivity.
Qed.

Lemma be_value_acc (b : bytes) (a : Z) :
  fold_left (fun acc x => acc * 256 + byte_to_Z x) b a
  = a * 256 ^ Z.of_nat (length b) + be_value b.
Proof.
  unfold be_value. revert a.
  induction b as [|x b IH]; intros a; cbn [fold_left length].
  - cbn. lia.
  - rewrite IH, (IH (0 * 256 + byte_to_Z x)), Nat2Z.inj_succ, Z.pow_succ_r by lia.
    ring.
Qed.

Lemma be_value_cons (x : byte) (b : bytes) :
  be_value (x :: b) = byte_to_Z x * 256 ^ Z.of_nat (length b) + be_value b.
Proof.
  unfold be_value at 1. cbn [fold_left]. rewrite be_value_acc. lia.
Qed.

Lemma be_value_app (a b : bytes) :
  be_value (a ++ b) = be_value a * 256 ^ Z.of_nat (length b) + be_value b.
Proof.
  unfold be_value at 1. rewrite fold_left_app. apply be_value_acc.
Qed.

Lemma be_value_range (b : bytes) : 0 <= be_value b < 256 ^ Z.of_nat (length b).
Proof.
  induction b as [|x b IH].
  - cbn. lia.
  - rewrite be_value_cons. cbn [length]. rewrite Nat2Z.inj_succ, Z.pow_succ_r by lia.
    pose proof (byte_to_Z_range x). nia.
Qed.

(** Buffers of one length with one big-endian value are equal. *)
Lemma be_value_inj (a : bytes) :
  forall b, length a = length b -> be_value a = be_value b -> a = b.
Proof.
  induction a as [|x a IH]; intros [|y b] Hlen Hv; try discriminate; [reflexivity|].
  injection Hlen as Hlen.
  rewrite !be_value_cons, <- Hlen in Hv.
  pose proof (be_value_range a) as Ha.
  pose proof (be_value_range b) as Hb. rewrite <- Hlen in Hb.
  pose proof (byte_to_Z_range x). pose proof (byte_to_Z_range y).
  assert (Hxy : byte_to_Z x = byte_to_Z y) by nia.
  apply byte_to_Z_inj in Hxy. subst y.
  f_equal. apply IH; [assumption|lia].
Qed.

(** ** The "hex" encoding of buffers *)

Lemma pow_16_256 (k : nat) : Z.of_N (16 ^ N.of_nat (2 * k)) = 256 ^ Z.of_nat k.
Proof.
  rewrite N2Z.inj_pow. change (Z.of_N 16) with 16.
  replace (Z.of_N (N.of_nat (2 * k))) with (2 * Z.of_nat k) by lia.
  rewrite Z.pow_mul_r by lia. reflexivity.
Qed.

Lemma Buffer_toString_hex_nibbles (b : bytes) :
  Buffer_toString_hex b = map digit_char (nibbles b).
Proof.
  unfold Buffer_toString_hex, nibbles.
  induction b as [|x b IH]; [reflexivity|].
  cbn [flat_map map app]. rewrite IH. reflexivity.
Qed.

Lemma nibbles_digits (b : bytes) : Forall (fun d => d < 16)%N (nibbles b).
Proof.
  unfold nibbles. induction b as [|x b IH]; [constructor|].
  cbn [flat_map app]. pose proof (Byte.to_N_bounded x).
  constructor; [apply N.Div0.div_lt_upper_bound; lia|].
  constructor; [apply N.mod_lt; lia|assumption].
Qed.

Lemma nibbles_length (b : bytes) : length (nibbles b) = (2 * length b)%nat.
Proof.
  unfold nibbles. induction b as [|x b IH]; [reflexivity|].
  cbn [flat_map app length]. rewrite IH. lia.
Qed.

Lemma nibbles_value (b : bytes) : Z.of_N (of_digits 16 (nibbles b)) = be_value b.
Proof.
  induction b as [|x b IH]; [reflexivity|].
  change (nibbles (x :: b))
    with ([Byte.to_N x / 16; Byte.to_N x mod 16]%N ++ nibbles b).
  rewrite (of_digits_app 16 ltac:(lia)), be_value_cons, nibbles_length.
  rewrite N2Z.inj_add, N2Z.inj_mul, IH.
  replace (Z.of_N (16 ^ N.of_nat (2 * length b)))
    with (256 ^ Z.of_nat (length b)).
  2:{ symmetry. apply pow_16_256. }
  f_equal. f_equal.
  unfold of_digits. cbn [fold_left]. unfold byte_to_Z.
  pose proof (N.div_mod (Byte.to_N x) 16 ltac:(lia)). lia.
Qed.

Lemma digit_char_low_byte (d : N) : (d < 36)%N -> (digit_char d mod 256 = digit_char d)%N.
Proof.
  intros Hd. apply N.mod_small. unfold digit_char.
  destruct (d <? 10)%N; lia.
Qed.

Lemma Buffer_from_hex_pair (x y : N) (t : list N) :
  (x < 16)%N -> (y < 16)%N ->
  Buffer_from_hex (digit_char x :: digit_char y :: t)
  = byte_of_N (16 * x + y) :: Buffer_from_hex t.
Proof.
  intros Hx Hy. cbn [Buffer_from_hex]. unfold unhex, char_digit_in.
  rewrite !digit_char_low_byte by lia.
  rewrite !char_digit_digit_char by lia.
  apply N.ltb_lt in Hx, Hy. rewrite Hx, Hy. reflexivity.
Qed.

(** Decoding an even number of hexadecimal digits: one byte for every two
    digits, with the value of the numeral. *)
Lemma Buffer_from_hex_digits (k : nat) :
  forall D : list N,
    length D = (2 * k)%nat -> Forall (fun d => d < 16)%N D ->
    length (Buffer_from_hex (map digit_char D)) = k
    /\ be_value (Buffer_from_hex (map digit_char D)) = Z.of_N (of_digits 16 D).
Proof.
  induction k as [|k IH]; intros D Hlen HD.
  - destruct D; [|discriminate]. split; reflexivity.
  - destruct D as [|x [|y D]]; try (exfalso; cbn in Hlen; lia).
    inversion HD as [|? ? Hx HD']; subst. inversion HD' as [|? ? Hy HD'']; subst.
    cbn [map]. rewrite Buffer_from_hex_pair by assumption.
    destruct (IH D) as [IHl IHv]; [cbn in Hlen; lia|assumption|].
    split; [cbn [length]; rewrite IHl; reflexivity|].
    rewrite be_value_cons, IHl, IHv.
    change (x :: y :: D) with ([x; y] ++ D).
    rewrite (of_digits_app 16 ltac:(lia)).
    replace (length D) with (2 * k)%nat by (cbn in Hlen; lia).
    rewrite N2Z.inj_add, N2Z.inj_mul, pow_16_256.
    f_equal. f_equal.
    unfold byte_of_N. rewrite byte_to_of_Z.
    unfold of_digits. cbn [fold_left].
    rewrite Z.mod_small by lia. lia.
Qed.

(** Dropping the last digit of an odd numeral divides its value by the base. *)
Lemma Buffer_from_hex_odd (k : nat) :
  forall (D : list N) (d : N),
    length D = (2 * k)%nat -> Forall (fun d => d < 16)%N D -> (d < 16)%N ->
    Buffer_from_hex (map digit_char (D ++ [d])) = Buffer_from_hex (map digit_char D).
Proof.
  induction k as [|k IH]; intros D d Hlen HD Hd.
  - destruct D; [|discriminate]. reflexivity.
  - destruct D as [|x [|y D]]; try (exfalso; cbn in Hlen; lia).
    inversion HD as [|? ? Hx HD']; subst. inversion HD' as [|? ? Hy HD'']; subst.
    cbn [map app]. rewrite !Buffer_from_hex_pair by assumption.
    f_equal. apply (IH D d); [cbn in Hlen; lia|assumption|assumption].
Qed.

Lemma padStart_digits (l : list N) (n : nat) :
  padStart (map digit_char l) n 48%N
  = map digit_char (repeat 0%N (n - length l) ++ l).
Proof.
  unfold padStart. rewrite length_map, map_app. f_equal.
  induction (n - length l)%nat as [|m IH]; [reflexivity|].
  cbn [repeat map]. rewrite IH. reflexivity.
Qed.

(** ** [src/core/buffer.ts] *)

Lemma toBigInt_value (b : bytes) :
  b <> [] -> SBuffer.toBigInt b = Ok (be_value b).
Proof.
  intros Hb. unfold SBuffer.toBigInt, BigInt.
  rewrite Buffer_toString_hex_nibbles, StringToBigInt_hex, nibbles_value.
  - reflexivity.
  - intros H. apply (f_equal (@length N)) in H. rewrite nibbles_length in H.
    destruct b; [contradiction|discriminate].
  - apply nibbles_digits.
Qed.

Lemma BigInt_toString_nat (radix n : N) :
  BigInt_toString radix (Z.of_N n) = map digit_char (to_digits radix n).
Proof.
  unfold BigInt_toString.
  replace (Z.of_N n <? 0) with false by (symmetry; apply Z.ltb_ge; lia).
  rewrite Zabs2N.id. reflexivity.
Qed.

(** [toBigIntStr] prints the big-endian value of a non-empty buffer. *)
Lemma toBigIntStr_value (b : bytes) :
  b <> [] ->
  SBuffer.toBigIntStr b = Ok (map digit_char (to_digits 10 (Z.to_N (be_value b)))).
Proof.
  intros Hb. unfold SBuffer.toBigIntStr. rewrite toBigInt_value by assumption.
  cbn [bind]. pose proof (be_value_range b).
  rewrite <- (Z2N.id (be_value b)) at 1 by lia.
  rewrite BigInt_toString_nat. reflexivity.
Qed.

Lemma fromBigIntStr_decimal (n : N) (len : nat) :
  SBuffer.fromBigIntStr (map digit_char (to_digits 10 n)) len
  = Ok (SBuffer.fromBigInt (Z.of_N n) len).
Proof.
  unfold SBuffer.fromBigIntStr, BigInt. rewrite StringToBigInt_decimal. reflexivity.
Qed.

(** A value that fits in [k] bytes is written on exactly [k] bytes when
    the requested number of hexadecimal digits is [2 * k]. *)
Lemma fromBigInt_fits (n : N) (k : nat) :
  (n < 16 ^ N.of_nat (2 * k))%N -> (0 < k)%nat ->
  length (SBuffer.fromBigInt (Z.of_N n) (2 * k)) = k
  /\ be_value (SBuffer.fromBigInt (Z.of_N n) (2 * k)) = Z.of_N n.
Proof.
  intros Hn Hk. unfold SBuffer.fromBigInt.
  rewrite BigInt_toString_nat, padStart_digits.
  destruct (to_digits_spec 16 ltac:(lia) n) as [Hv Hd _ Hs _].
  specialize (Hs (2 * k)%nat ltac:(lia) Hn).
  destruct (Buffer_from_hex_digits k
              (repeat 0%N (2 * k - length (to_digits 16 n)) ++ to_digits 16 n))
    as [Hl Hval].
  - rewrite length_app, repeat_length. lia.
  - apply Forall_app. split; [|assumption].
    apply Forall_forall. intros d Hin. apply repeat_spec in Hin. subst d. lia.
  - split; [assumption|].
    rewrite Hval, (of_digits_zeros 16 ltac:(lia)), Hv. reflexivity.
Qed.

(** [fromBigIntStr] undoes [toBigIntStr] on a buffer of [k] bytes when
    asked for [2 * k] hexadecimal digits. *)
Lemma fromBigIntStr_toBigIntStr (b : bytes) (k : nat) :
  length b = k -> (0 < k)%nat ->
  (s <- SBuffer.toBigIntStr b ;; SBuffer.fromBigIntStr s (2 * k)) = Ok b.
Proof.
  intros Hlen Hk.
  rewrite toBigIntStr_value by (destruct b; [cbn in Hlen; lia|discriminate]).
  cbn [bind]. rewrite fromBigIntStr_decimal. f_equal.
  pose proof (be_value_range b) as Hr. rewrite Hlen in Hr.
  destruct (fromBigInt_fits (Z.to_N (be_value b)) k) as [Hl Hv].
  - apply N2Z.inj_lt. rewrite pow_16_256, Z2N.id; apply Hr.
  - assumption.
  - rewrite Z2N.id in Hl, Hv |- * by apply Hr.
    apply be_value_inj; [congruence|assumption].
Qed.

(** ** The signature codec *)

Section Codec.
Context {E : Engine}.

Lemma Signature_object_fields (v r s : jstring) :
  Get (Utils.Signature_object v r s) (str "r") = Ok (VString r)
  /\ Get (Utils.Signature_object v r s) (str "s") = Ok (VString s)
  /\ Get (Utils.Signature_object v r s) (str "v") = Ok (VString v).
Proof. repeat split. Qed.

Lemma joinSignature_Signature_object (v r s : jstring) :
  Utils.joinSignature (Utils.Signature_object v r s)
  = (r' <- SBuffer.fromBigIntStr r SBuffer.default_length ;;
     s' <- SBuffer.fromBigIntStr s SBuffer.default_length ;;
     Ok (r' ++ s', StringToNumber v)).
Proof. reflexivity. Qed.

Lemma splitSignature_number (b : bytes) (rid : number) (sig : value) :
  length b = 64%nat -> sig = VBuffer b \/ sig = VUint8Array b ->
  Utils.splitSignature {| Utils.signature := sig; Utils.recoveryId := rid |}
    Utils.OutputNumber
  = (r' <- SBuffer.toBigIntStr (firstn 32 b) ;;
     s' <- SBuffer.toBigIntStr (firstn 32 (skipn 32 b)) ;;
     Ok (Utils.Signature_object (Number_toString rid) r' s')).
Proof.
  intros Hlen [-> | ->]; unfold Utils.splitSignature; cbn [Utils.signature];
    rewrite Hlen; reflexivity.
Qed.

(** Joining undoes splitting, as far as the engine reads the recovery id
    back from its text. *)
Lemma joinSignature_splitSignature_engine (b : bytes) (rid : number) (sig : value) :
  length b = 64%nat -> sig = VBuffer b \/ sig = VUint8Array b ->
  (s <- Utils.splitSignature {| Utils.signature := sig; Utils.recoveryId := rid |}
          Utils.OutputNumber ;;
   Utils.joinSignature s)
  = Ok (b, StringToNumber (Number_toString rid)).
Proof.
  intros Hlen Hsig. rewrite (splitSignature_number b rid sig Hlen Hsig).
  pose proof (fromBigIntStr_toBigIntStr (firstn 32 b) 32) as Hr.
  pose proof (fromBigIntStr_toBigIntStr (firstn 32 (skipn 32 b)) 32) as Hs.
  rewrite length_firstn in Hr, Hs. rewrite length_skipn in Hs.
  specialize (Hr ltac:(lia) ltac:(lia)). specialize (Hs ltac:(lia) ltac:(lia)).
  destruct (SBuffer.toBigIntStr (firstn 32 b)) as [r'|e]; [|discriminate].
  destruct (SBuffer.toBigIntStr (firstn 32 (skipn 32 b))) as [s'|e]; [|discriminate].
  cbn [bind] in *. rewrite joinSignature_Signature_object.
  change SBuffer.default_length with (2 * 32)%nat.
  rewrite Hr, Hs. cbn [bind]. do 2 f_equal.
  rewrite <- (firstn_skipn 32 b) at 3. f_equal.
  apply firstn_all2. rewrite length_skipn. lia.
Qed.

End Codec.

(** ** UTF-8 and concatenation *)

Lemma surrogate_kinds_disjoint (c : N) :
  is_low_surrogate c = true -> is_high_surrogate c = false.
Proof.
  unfold is_low_surrogate, is_high_surrogate. intros H.
  apply andb_prop in H. destruct H as [H _]. apply N.leb_le in H.
  apply andb_false_intro2, N.leb_gt. lia.
Qed.

Lemma utf8_app_bounded (n : nat) :
  forall m s : jstring,
    (length m <= n)%nat -> joins_surrogates m s = false ->
    utf8 (m ++ s) = utf8 m ++ utf8 s.
Proof.
  induction n as [|n IH]; intros m s Hlen Hj.
  - destruct m; [reflexivity|cbn in Hlen; lia].
  - destruct m as [|c t]; [reflexivity|].
    assert (Ht : joins_surrogates t s = false \/ t = []).
    { destruct t as [|d t']; [right; reflexivity|left]. exact Hj. }
    assert (IHt : utf8 (t ++ s) = utf8 t ++ utf8 s).
    { destruct Ht as [Ht | ->]; [|reflexivity].
      apply IH; [cbn in Hlen; lia|assumption]. }
    cbn [app utf8].
    destruct (is_high_surrogate c) eqn:Hc.
    + destruct t as [|d t'].
      * cbn [app]. unfold joins_surrogates in Hj. cbn [last] in Hj.
        rewrite Hc in Hj. cbn [andb] in Hj.
        destruct s as [|d s']; [reflexivity|].
        cbn [hd] in Hj. rewrite Hj. reflexivity.
      * cbn [app]. destruct (is_low_surrogate d) eqn:Hd.
        -- rewrite <- app_assoc. f_equal.
           destruct t' as [|e t''].
           ++ reflexivity.
           ++ apply IH; [cbn in Hlen |- *; lia|exact Hj].
        -- rewrite <- app_assoc. f_equal. exact IHt.
    + destruct (is_low_surrogate c); rewrite <- app_assoc; f_equal; exact IHt.
Qed.

(** Encoding distributes over concatenation unless the concatenation
    joins two surrogates. *)
Lemma utf8_app (m s : jstring) :
  joins_surrogates m s = false -> utf8 (m ++ s) = utf8 m ++ utf8 s.
Proof. apply (utf8_app_bounded (length m)). lia. Qed.

(** ** The digest *)

Lemma be_bytes_length (n : nat) (z : Z) : length (be_bytes n z) = n.
Proof.
  revert z. induction n as [|n IH]; intros z; [reflexivity|].
  cbn [be_bytes]. rewrite length_app, IH. cbn. lia.
Qed.

Lemma bcSha256_length (b : bytes) : length (bcSha256 b) = 32%nat.
Proof.
  unfold bcSha256, SHA256.hash, SHA256.digest.
  rewrite !length_app, !be_bytes_length. reflexivity.
Qed.

(** ** Properties of objects *)

Lemma jstring_eqb_eq (a b : jstring) : jstring_eqb a b = true <-> a = b.
Proof.
  revert b. induction a as [|x a IH]; intros [|y b]; cbn [jstring_eqb];
    try (split; [discriminate|discriminate]); [split; reflexivity|].
  rewrite andb_true_iff, N.eqb_eq, IH. split.
  - intros [-> ->]. reflexivity.
  - intros H. injection H as -> ->. split; reflexivity.
Qed.

Lemma jstring_eqb_refl (a : jstring) : jstring_eqb a a = true.
Proof. apply jstring_eqb_eq. reflexivity. Qed.

Lemma jstring_eqb_neq (a b : jstring) : a <> b -> jstring_eqb a b = false.
Proof.
  intros H. destruct (jstring_eqb a b) eqn:Eab; [|reflexivity].
  apply jstring_eqb_eq in Eab. contradiction.
Qed.

Section Objects.
Context {E : Engine}.

Lemma lookup_replace_same (k : jstring) (x : value) (props : list (jstring * value)) :
  lookup k props <> None -> lookup k (replace_prop k x props) = Some x.
Proof.
  induction props as [|[k' v] rest IH]; cbn [lookup replace_prop]; [congruence|].
  destruct (jstring_eqb k k') eqn:Ek; intros H; cbn [lookup]; rewrite Ek.
  - reflexivity.
  - apply IH, H.
Qed.

Lemma lookup_replace_other (k k' : jstring) (x : value) (props : list (jstring * value)) :
  k <> k' -> lookup k (replace_prop k' x props) = lookup k props.
Proof.
  intros Hk. induction props as [|[k0 v] rest IH]; cbn [lookup replace_prop]; [reflexivity|].
  destruct (jstring_eqb k' k0) eqn:E0; cbn [lookup].
  - apply jstring_eqb_eq in E0. subst k0.
    rewrite jstring_eqb_neq by assumption. reflexivity.
  - rewrite IH. reflexivity.
Qed.

Lemma lookup_insert_same (k : jstring) (x : value) (props : list (jstring * value)) :
  lookup k props = None -> lookup k (insert_prop k x props) = Some x.
Proof.
  induction props as [|[k' v] rest IH]; cbn [lookup insert_prop].
  - rewrite jstring_eqb_refl. reflexivity.
  - destruct (jstring_eqb k k') eqn:Ek; [discriminate|]. intros H.
    destruct (array_index k) as [i|]; [destruct (array_index k') as [j|];
      [destruct (i <? j)%N|]|];
      cbn [lookup]; rewrite ?jstring_eqb_refl, ?Ek; auto.
Qed.

Lemma lookup_insert_other (k k' : jstring) (x : value) (props : list (jstring * value)) :
  k <> k' -> lookup k (insert_prop k' x props) = lookup k props.
Proof.
  intros Hk. induction props as [|[k0 v] rest IH]; cbn [lookup insert_prop].
  - rewrite jstring_eqb_neq by assumption. reflexivity.
  - destruct (array_index k') as [i|]; [destruct (array_index k0) as [j|];
      [destruct (i <? j)%N|]|];
      cbn [lookup]; rewrite ?(jstring_eqb_neq k k') by assumption;
      rewrite ?IH; reflexivity.
Qed.

(** Assigning a property makes it read as assigned and leaves the
    others as they were. *)
Lemma lookup_set_same (k : jstring) (x : value) (props : list (jstring * value)) :
  lookup k (set_prop k x props) = Some x.
Proof.
  unfold set_prop. destruct (lookup k props) eqn:El.
  - apply lookup_replace_same. congruence.
  - apply lookup_insert_same. assumption.
Qed.

Lemma lookup_set_other (k k' : jstring) (x : value) (props : list (jstring * value)) :
  k <> k' -> lookup k (set_prop k' x props) = lookup k props.
Proof.
  intros Hk. unfold set_prop. destruct (lookup k' props).
  - apply lookup_replace_other. assumption.
  - apply lookup_insert_other. assumption.
Qed.

End Objects.

(** ** [sign] and [verify] *)

Section Engine_and_curve.
Context {E : Engine} {C : Ecc}.

Lemma sign_validated (m : jstring) (k : bytes) (s : jstring) :
  Utils.sign (VString m) (VBuffer k) (VString s)
  = try_catch_rethrow (sign_body m k s) failed_to_sign.
Proof. reflexivity. Qed.

Lemma sign_not_validated (message privKeyBuffer salt : value) :
  (forall m, message <> VString m) \/ (forall k, privKeyBuffer <> VBuffer k)
  \/ (forall s, salt <> VString s) ->
  Utils.sign message privKeyBuffer salt = Throw invalid_input_types.
Proof.
  intros H. unfold Utils.sign.
  destruct message; try reflexivity.
  destruct privKeyBuffer; try reflexivity.
  destruct salt; try reflexivity.
  exfalso. destruct H as [H | [H | H]]; eapply H; reflexivity.
Qed.

Lemma splitSignature_Ok_inv (rs : Utils.RecoverableSignature) (fmt : Utils.OutputFormat)
    (sig : value) :
  Utils.splitSignature rs fmt = Ok sig ->
  exists v r s, sig = Utils.Signature_object v r s.
Proof.
  unfold Utils.splitSignature. intros H.
  assert (Hb : forall b,
    (if negb (length b =? 64)%nat then Throw (Exn Error (str "Invalid signature length"))
     else match fmt with
          | Utils.OutputHex =>
              Ok (Utils.Signature_object (Number_toString (Utils.recoveryId rs))
                    (Buffer_toString_hex (firstn 32 b))
                    (Buffer_toString_hex (firstn 32 (skipn 32 b))))
          | Utils.OutputNumber =>
              r' <- SBuffer.toBigIntStr (firstn 32 b) ;;
              s' <- SBuffer.toBigIntStr (firstn 32 (skipn 32 b)) ;;
              Ok (Utils.Signature_object (Number_toString (Utils.recoveryId rs)) r' s')
          end) = Ok sig ->
    exists v r s, sig = Utils.Signature_object v r s).
  { intros b Hb. destruct (negb (length b =? 64)%nat); [discriminate|].
    destruct fmt.
    - destruct (SBuffer.toBigIntStr (firstn 32 b)) as [r'|]; [|discriminate].
      destruct (SBuffer.toBigIntStr (firstn 32 (skipn 32 b))) as [s'|]; [|discriminate].
      cbn [bind] in Hb. injection Hb as <-. eauto.
    - injection Hb as <-. eauto. }
  destruct (Utils.signature rs); try discriminate; eapply Hb; exact H.
Qed.

(** A call of [sign] that returns has passed the validation, has hashed
    the concatenation and has had the hash signed by the library. *)
Lemma sign_Ok_inv (message privKeyBuffer salt signature : value) (msgHash : bytes) :
  Utils.sign message privKeyBuffer salt = Ok (signature, msgHash) ->
  exists m k s rs v r' s',
    message = VString m /\ privKeyBuffer = VBuffer k /\ salt = VString s
    /\ msgHash = bcSha256 (utf8 (m ++ s))
    /\ ecc_signRecoverable msgHash k = Ok rs
    /\ Utils.splitSignature
         {| Utils.signature := VUint8Array (fst rs); Utils.recoveryId := snd rs |}
         Utils.OutputNumber = Ok signature
    /\ signature = Utils.Signature_object v r' s'.
Proof.
  intros H.
  destruct message as [| | | |m| | | |]; try discriminate.
  destruct privKeyBuffer as [| | | | |k| | |]; try discriminate.
  destruct salt as [| | | |s| | | |]; try discriminate.
  rewrite sign_validated in H. unfold sign_body in H.
  destruct (ecc_signRecoverable (bcSha256 (utf8 (m ++ s))) k) as [rs|e] eqn:Ers;
    [|discriminate].
  cbn [bind try_catch_rethrow] in H.
  destruct (Utils.splitSignature _ _) as [sig|e] eqn:Esp; [|discriminate].
  cbn [bind] in H. injection H as <- <-.
  destruct (splitSignature_Ok_inv _ _ _ Esp) as (v & r' & s' & ->).
  exists m, k, s, rs, v, r', s'. repeat split; assumption.
Qed.

(** [verify] returns what the library says once the signature is joined. *)
Lemma verify_joined (hash pubKeyBuffer : bytes) (signature protocol : value)
    (raw : bytes) (rid : number) :
  Utils.joinSignature signature = Ok (raw, rid) ->
  Utils.verify hash pubKeyBuffer signature protocol
  = (isValid <- ecc_verify hash pubKeyBuffer raw ;;
     recovered <- ecc_recover hash raw rid true ;;
     Ok {| Utils.test :=
             {| Utils.valid := isValid;
                Utils.pub := Buffer_toString_hex pubKeyBuffer;
                Utils.pubRecovered :=
                  Buffer_toString_hex
                    (match recovered with Some b => b | None => repeat x00 33 end) |};
           Utils.result := JSON_stringify protocol |}).
Proof. intros H. unfold Utils.verify. rewrite H. reflexivity. Qed.

Lemma verify_Ok_inv (hash pubKeyBuffer : bytes) (signature protocol : value)
    (r : Utils.VerificationResult) :
  Utils.verify hash pubKeyBuffer signature protocol = Ok r ->
  exists raw rid recovered,
    Utils.joinSignature signature = Ok (raw, rid)
    /\ ecc_verify hash pubKeyBuffer raw = Ok (Utils.valid (Utils.test r))
    /\ ecc_recover hash raw rid true = Ok recovered
    /\ Utils.pub (Utils.test r) = Buffer_toString_hex pubKeyBuffer
    /\ Utils.pubRecovered (Utils.test r)
       = Buffer_toString_hex (match recovered with Some b => b | None => repeat x00 33 end)
    /\ Utils.result r = JSON_stringify protocol.
Proof.
  intros H. destruct (Utils.joinSignature signature) as [[raw rid]|e] eqn:Ej.
  2:{ unfold Utils.verify in H. rewrite Ej in H. discriminate. }
  rewrite (verify_joined _ _ _ _ _ _ Ej) in H.
  destruct (ecc_verify hash pubKeyBuffer raw) as [b|] eqn:Ev; [|discriminate].
  destruct (ecc_recover hash raw rid true) as [rec|] eqn:Er; [|discriminate].
  cbn [bind] in H. injection H as <-.
  exists raw, rid, rec. repeat split; assumption.
Qed.

End Engine_and_curve.

(** ** Where [signAndVerify] reads and writes *)

Ltac keys_differ :=
  let H := fresh in intro H; vm_compute in H; discriminate H.

Section Placement.
Context {E : Engine}.

Lemma Get_string_inv (v : value) (k s : jstring) :
  Get v k = Ok (VString s) ->
  exists props, v = VObject props /\ lookup k props = Some (VString s).
Proof.
  destruct v; cbn [Get]; try discriminate.
  intros H. exists props. split; [reflexivity|].
  destruct (lookup k props); [congruence|discriminate].
Qed.

Lemma read_placed_string_inv (protocol : value) (k s : jstring) :
  Utils.read_placed protocol k = Ok (VString s) -> shape protocol k (VString s).
Proof.
  unfold Utils.read_placed. intros H.
  destruct (Get protocol (str "prv")) as [prv|e] eqn:Eprv; [|discriminate].
  cbn [bind] in H. destruct (ToBoolean prv) eqn:Et.
  - apply Get_string_inv in H. destruct H as (pprops & -> & Hk).
    destruct protocol; cbn [Get] in Eprv; try discriminate.
    eapply Nested; [reflexivity| |exact Hk].
    destruct (lookup (str "prv") props); [congruence|discriminate].
  - apply Get_string_inv in H. destruct H as (props & -> & Hk).
    eapply Flat; [reflexivity| |exact Hk].
    cbn [Get] in Eprv. injection Eprv as <-. exact Et.
Qed.




End Placement.

(** ** [signAndVerify] *)

Section SignAndVerify.
Context {E : Engine} {C : Ecc}.




End SignAndVerify.

(* ================================================================= *)
(** * The claims *)

Import IntegerEngine TinySecp256k1.

(** ** C5: joining undoes splitting *)

(** C5. For every 64-byte buffer [b] (a [Uint8Array], as the library
    returns it, or a [Buffer]) and every recovery id in {0, 1},
    [joinSignature(splitSignature({signature: b, recoveryId}))], in the
    default decimal format, returns exactly [b] and the recovery id. *)
Theorem joinSignature_splitSignature
    (b : bytes) (recoveryId : IntegerEngine.num) (signature : value) :
  length b = 64%nat ->
  signature = VBuffer b \/ signature = VUint8Array b ->
  recoveryId = IntegerEngine.Int 0 \/ recoveryId = IntegerEngine.Int 1 ->
  (sig <- Utils.splitSignature
            {| Utils.signature := signature; Utils.recoveryId := recoveryId |}
            Utils.OutputNumber ;;
   Utils.joinSignature sig)
  = Ok (b, recoveryId).
Proof.
  intros Hlen Hsig Hid.
  rewrite (joinSignature_splitSignature_engine (E := engine) b recoveryId signature Hlen Hsig).
  destruct Hid as [-> | ->]; reflexivity.
Qed.

Lemma joinSignature_splitSignature_witness :
  (sig <- Utils.splitSignature
            {| Utils.signature := VUint8Array (repeat xff 64);
               Utils.recoveryId := IntegerEngine.Int 1 |}
            Utils.OutputNumber ;;
   Utils.joinSignature sig)
  = Ok (repeat xff 64, IntegerEngine.Int 1).
Proof.
  apply (joinSignature_splitSignature (repeat xff 64) (IntegerEngine.Int 1)).
  - reflexivity.
  - right. reflexivity.
  - right. reflexivity.
Defined.

(** ** C4: [fromBigIntStr] has no width check *)

Lemma padStart_long (s : jstring) (n : nat) (fill : N) :
  (n <= length s)%nat -> padStart s n fill = s.
Proof.
  intros H. unfold padStart. replace (n - length s)%nat with 0%nat by lia. reflexivity.
Qed.

Lemma Buffer_from_hex_length (D : list N) :
  Forall (fun d => d < 16)%N D ->
  length (Buffer_from_hex (map digit_char D)) = (length D / 2)%nat.
Proof.
  intros HD. destruct (Nat.Even_or_Odd (length D)) as [[k Hk] | [k Hk]].
  - destruct (Buffer_from_hex_digits k D Hk HD) as [Hl _].
    rewrite Hl, Hk, Nat.mul_comm, Nat.div_mul by lia. reflexivity.
  - destruct (exists_last (l := D)) as (D' & d & ->).
    { intros ->. cbn in Hk. lia. }
    rewrite length_app in Hk |- *. cbn [length] in Hk |- *.
    apply Forall_app in HD. destruct HD as [HD' Hd]. inversion Hd; subst.
    rewrite (Buffer_from_hex_odd k) by (assumption || lia).
    destruct (Buffer_from_hex_digits k D' ltac:(lia) HD') as [Hl _].
    rewrite Hl. replace (length D' + 1)%nat with (1 + k * 2)%nat by lia.
    rewrite Nat.div_add by lia. reflexivity.
Qed.

(** C4, as the code has it. For every decimal numeral whose value does
    not fit in the requested number of hexadecimal digits, [fromBigIntStr]
    raises nothing: it returns the bytes of the value's own hexadecimal
    digits, unpadded, a buffer at least as wide as the one requested; when
    the number of these digits is even the buffer holds the value itself
    and is wider than requested. *)
Theorem fromBigIntStr_too_large (n : N) (length : nat) :
  (16 ^ N.of_nat length <= n)%N ->
  exists buf,
    SBuffer.fromBigIntStr (decimal n) length = Ok buf
    /\ buf = Buffer_from_hex (map digit_char (to_digits 16 n))
    /\ List.length buf = (List.length (to_digits 16 n) / 2)%nat
    /\ (length / 2 <= List.length buf)%nat
    /\ (Nat.even (List.length (to_digits 16 n)) = true ->
        be_value buf = Z.of_N n /\ (length / 2 < List.length buf)%nat).
Proof.
  intros Hn. destruct (to_digits_spec 16 ltac:(lia) n) as [Hv Hd _ _ Hlong].
  specialize (Hlong length Hn).
  eexists. split; [|split; [reflexivity|]].
  - unfold decimal. rewrite fromBigIntStr_decimal. unfold SBuffer.fromBigInt.
    rewrite BigInt_toString_nat, padStart_long by (rewrite length_map; lia).
    reflexivity.
  - rewrite Buffer_from_hex_length by assumption.
    split; [reflexivity|]. split.
    + apply Nat.Div0.div_le_mono. lia.
    + intros Heven. apply Nat.even_spec in Heven. destruct Heven as [k Hk].
      destruct (Buffer_from_hex_digits k _ Hk Hd) as [_ Hval].
      rewrite Hval, Hv. split; [reflexivity|].
      rewrite Hk, (Nat.mul_comm 2 k), Nat.div_mul by lia.
      apply Nat.Div0.div_lt_upper_bound. lia.
Qed.

Lemma fromBigIntStr_too_large_witness :
  exists buf,
    SBuffer.fromBigIntStr (decimal (2 ^ 260)) 64 = Ok buf
    /\ buf = Buffer_from_hex (map digit_char (to_digits 16 (2 ^ 260)))
    /\ List.length buf = (List.length (to_digits 16 (2 ^ 260)) / 2)%nat
    /\ (64 / 2 <= List.length buf)%nat
    /\ (Nat.even (List.length (to_digits 16 (2 ^ 260))) = true ->
        be_value buf = Z.of_N (2 ^ 260) /\ (64 / 2 < List.length buf)%nat).
Proof.
  apply (fromBigIntStr_too_large (2 ^ 260) 64).
  vm_compute. discriminate.
Defined.

(** C4 fails as stated: [2^256] and [2^260] do not fit in thirty-two
    bytes, yet [fromBigIntStr] returns for both, thirty-two bytes that do
    not hold the value for the first, thirty-three bytes for the second. *)
Lemma fromBigIntStr_too_large_counterexample :
  SBuffer.fromBigIntStr TestData.two_to_256 SBuffer.default_length
  = Ok (x10 :: repeat x00 31)
  /\ SBuffer.fromBigIntStr TestData.two_to_260 SBuffer.default_length
     = Ok (x10 :: repeat x00 32).
Proof. split; vm_compute; reflexivity. Qed.

(** ** C8 and C6: what [sign] hashes and what it validates *)

Section Sign.
Context {E : Engine} {C : Ecc}.

(** C8, as the code has it. For every message [m] and salt [s], the hash
    that [sign] has signed and returns is SHA256 of the UTF-8 bytes of the
    concatenated string [m + s], and has exactly 32 bytes. It is SHA256 of
    the UTF-8 bytes of [m] followed by those of [s] unless [m] ends with a
    high surrogate and [s] starts with a low one. *)
Theorem sign_hashes_concatenation
    (message salt : jstring) (privKeyBuffer signature : value) (msgHash : bytes) :
  Utils.sign (VString message) privKeyBuffer (VString salt) = Ok (signature, msgHash) ->
  msgHash = bcSha256 (utf8 (message ++ salt))
  /\ length msgHash = 32%nat
  /\ (exists k rs,
        privKeyBuffer = VBuffer k /\ ecc_signRecoverable msgHash k = Ok rs)
  /\ (joins_surrogates message salt = false ->
      msgHash = bcSha256 (utf8 message ++ utf8 salt)).
Proof.
  intros H.
  destruct (sign_Ok_inv _ _ _ _ _ H)
    as (m & k & s & rs & _ & _ & _ & Hm & -> & Hs & -> & Hrs & _).
  injection Hm as <-. injection Hs as <-.
  split; [reflexivity|]. split; [apply bcSha256_length|].
  split; [exists k, rs; split; [reflexivity|assumption]|].
  intros Hj. rewrite utf8_app by assumption. reflexivity.
Qed.

(** C6, as the code has it. [sign] fails with 'Invalid input types' when
    the message is not a string, or the salt is not a string, or the key
    is not a [Buffer]. The length of the key is not validated: with two
    strings and a [Buffer] of any length [sign] hashes and calls the
    signer, it never fails with 'Invalid input types', and what the signer
    throws is raised again as 'Failed to sign the message: ...'. *)
Theorem sign_validates_types (message privKeyBuffer salt : value) :
  ((forall m, message <> VString m) \/ (forall k, privKeyBuffer <> VBuffer k)
   \/ (forall s, salt <> VString s) ->
   Utils.sign message privKeyBuffer salt = Throw invalid_input_types)
  /\ (forall m k s,
        message = VString m -> privKeyBuffer = VBuffer k -> salt = VString s ->
        Utils.sign message privKeyBuffer salt
        = try_catch_rethrow (sign_body m k s) failed_to_sign
        /\ Utils.sign message privKeyBuffer salt <> Throw invalid_input_types
        /\ (forall e,
              ecc_signRecoverable (bcSha256 (utf8 (m ++ s))) k = Throw e ->
              Utils.sign message privKeyBuffer salt = Throw (failed_to_sign e))).
Proof.
  split; [apply sign_not_validated|].
  intros m k s -> -> ->. rewrite sign_validated.
  split; [reflexivity|]. split.
  - destruct (sign_body m k s); cbn [try_catch_rethrow]; [discriminate|].
    unfold failed_to_sign, invalid_input_types. intros H.
    injection H as H. vm_compute in H. discriminate H.
  - intros e He. unfold sign_body. rewrite He. reflexivity.
Qed.

End Sign.

Lemma returned_Some {A : Type} (c : completion A) (a : A) :
  returned c = Some a -> c = Ok a.
Proof. destruct c; cbn; intros H; [injection H as ->; reflexivity|discriminate]. Qed.

Lemma returned_map_Some {A B : Type} (f : A -> B) (c : completion A) (b : B) :
  option_map f (returned c) = Some b -> exists a, c = Ok a /\ f a = b.
Proof.
  destruct c as [a|e]; cbn; intros H; [|discriminate].
  injection H as <-. exists a. split; reflexivity.
Qed.

(** The hash that [sign] returns for the message and salt of the
    repository's test. *)
Lemma sign_test_message :
  option_map snd
    (returned (Utils.sign (VString (str "test_message"))
                 (VBuffer (Utils.privKeyBuffer TestData.keypair))
                 (VString (str "test_salt"))))
  = Some (bcSha256 (utf8 (str "test_messagetest_salt"))).
Proof.
  vm_cast_no_check (eq_refl (Some (bcSha256 (utf8 (str "test_messagetest_salt"))))).
Qed.

Lemma sign_hashes_concatenation_witness :
  exists signature msgHash,
    Utils.sign (VString (str "test_message"))
      (VBuffer (Utils.privKeyBuffer TestData.keypair)) (VString (str "test_salt"))
    = Ok (signature, msgHash)
    /\ msgHash = bcSha256 (utf8 (str "test_message") ++ utf8 (str "test_salt"))
    /\ length msgHash = 32%nat.
Proof.
  destruct (returned_map_Some _ _ _ sign_test_message) as ([signature msgHash] & H & _).
  exists signature, msgHash. split; [exact H|].
  destruct (sign_hashes_concatenation _ _ _ _ _ H) as (_ & Hlen & _ & Hcat).
  split; [apply Hcat; reflexivity|exact Hlen].
Defined.

Lemma sign_surrogate_halves :
  option_map snd
    (returned (Utils.sign (VString TestData.high_half)
                 (VBuffer (Utils.privKeyBuffer TestData.keypair))
                 (VString TestData.low_half)))
  = Some (bcSha256 [xf0; x9f; x98; x80]).
Proof.
  vm_cast_no_check (eq_refl (Some (bcSha256 [xf0; x9f; x98; x80]))).
Qed.

(** C8 fails as stated: with the message U+D83D and the salt U+DE00,
    [sign] hashes the four bytes of U+1F600, not the six bytes that the
    two strings encode to one by one. *)
Lemma sign_hashes_concatenation_counterexample :
  utf8 (TestData.high_half ++ TestData.low_half) = [xf0; x9f; x98; x80]
  /\ utf8 TestData.high_half ++ utf8 TestData.low_half = [xef; xbf; xbd; xef; xbf; xbd]
  /\ exists signature msgHash,
       Utils.sign (VString TestData.high_half)
         (VBuffer (Utils.privKeyBuffer TestData.keypair)) (VString TestData.low_half)
       = Ok (signature, msgHash)
       /\ msgHash = bcSha256 [xf0; x9f; x98; x80]
       /\ msgHash <> bcSha256 (utf8 TestData.high_half ++ utf8 TestData.low_half).
Proof.
  split; [reflexivity|]. split; [reflexivity|].
  destruct (returned_map_Some _ _ _ sign_surrogate_halves)
    as ([signature msgHash] & H & Hh).
  exists signature, msgHash. split; [exact H|]. cbn [snd] in Hh.
  split; [exact Hh|]. rewrite Hh. vm_compute. discriminate.
Qed.

Lemma sign_validates_types_witness :
  Utils.sign VNull (VBuffer TestData.test_privKey) (VString (str "test_salt"))
  = Throw invalid_input_types.
Proof.
  apply (sign_validates_types VNull (VBuffer TestData.test_privKey)
           (VString (str "test_salt"))).
  left. discriminate.
Defined.

(** C6 fails as stated: the key of the repository's test is a [Buffer]
    of twelve bytes, and [sign] does not fail with 'Invalid input types'
    but with the signer's error, wrapped. *)
Lemma sign_validates_types_counterexample :
  length TestData.test_privKey = 12%nat
  /\ Utils.sign (VString (str "test_message")) (VBuffer TestData.test_privKey)
       (VString (str "test_salt"))
     = Throw (Exn Error
                (str "Failed to sign the message: TypeError: Expected Private")).
Proof.
  split; [reflexivity|].
  vm_cast_no_check
    (eq_refl (@Throw (value * bytes)
                (Exn Error
                   (str "Failed to sign the message: TypeError: Expected Private")))).
Qed.

(** ** C7 and C3: what [verify] returns and what it raises *)

Section Verify.
Context {E : Engine} {C : Ecc}.

Lemma joinSignature_strings (props : list (jstring * value)) (r s v : jstring) :
  lookup (str "r") props = Some (VString r) ->
  lookup (str "s") props = Some (VString s) ->
  lookup (str "v") props = Some (VString v) ->
  Utils.joinSignature (VObject props)
  = (r' <- SBuffer.fromBigIntStr r SBuffer.default_length ;;
     s' <- SBuffer.fromBigIntStr s SBuffer.default_length ;;
     Ok (r' ++ s', StringToNumber v)).
Proof.
  intros Hr Hs Hv. unfold Utils.joinSignature. cbn [Get bind].
  rewrite Hr, Hs, Hv. reflexivity.
Qed.

Lemma fromBigIntStr_parsed (s : jstring) (z : Z) (len : nat) :
  StringToBigInt s = Some z ->
  SBuffer.fromBigIntStr s len = Ok (SBuffer.fromBigInt z len).
Proof. intros H. unfold SBuffer.fromBigIntStr, BigInt. rewrite H. reflexivity. Qed.

(** C7, as the code has it. For a signature object whose [r], [s] and [v]
    are strings: when [r] and [s] are numerals that [BigInt] accepts and
    the library's [verify] and [recover] return, [verify] returns a result
    in which [valid] is the library's verdict, true or false, and nothing
    is raised; when recovery yields no point, [pubRecovered] is the hex
    encoding of 33 zero bytes. Strings alone do not make [verify] return:
    when [BigInt] rejects [r], or accepts [r] and rejects [s], its
    [SyntaxError] is raised; and when the library's [verify] or [recover]
    throws, [verify] raises an error and returns no result. *)
Theorem verify_returns_verdict
    (hash pubKeyBuffer : bytes) (protocol : value)
    (props : list (jstring * value)) (r s v : jstring) :
  lookup (str "r") props = Some (VString r) ->
  lookup (str "s") props = Some (VString s) ->
  lookup (str "v") props = Some (VString v) ->
  (forall zr zs isValid recovered,
      StringToBigInt r = Some zr -> StringToBigInt s = Some zs ->
      let raw := SBuffer.fromBigInt zr SBuffer.default_length
                 ++ SBuffer.fromBigInt zs SBuffer.default_length in
      ecc_verify hash pubKeyBuffer raw = Ok isValid ->
      ecc_recover hash raw (StringToNumber v) true = Ok recovered ->
      Utils.verify hash pubKeyBuffer (VObject props) protocol
      = Ok {| Utils.test :=
                {| Utils.valid := isValid;
                   Utils.pub := Buffer_toString_hex pubKeyBuffer;
                   Utils.pubRecovered :=
                     match recovered with
                     | Some b => Buffer_toString_hex b
                     | None => Buffer_toString_hex (repeat x00 33)
                     end |};
              Utils.result := JSON_stringify protocol |})
  /\ (StringToBigInt r = None ->
      Utils.verify hash pubKeyBuffer (VObject props) protocol
      = Throw (Exn SyntaxError (str "Cannot convert " ++ r ++ str " to a BigInt")))
  /\ (forall zr,
        StringToBigInt r = Some zr -> StringToBigInt s = None ->
        Utils.verify hash pubKeyBuffer (VObject props) protocol
        = Throw (Exn SyntaxError (str "Cannot convert " ++ s ++ str " to a BigInt")))
  /\ (forall zr zs e,
        StringToBigInt r = Some zr -> StringToBigInt s = Some zs ->
        let raw := SBuffer.fromBigInt zr SBuffer.default_length
                 ++ SBuffer.fromBigInt zs SBuffer.default_length in
        ecc_verify hash pubKeyBuffer raw = Throw e
        \/ (exists isValid, ecc_verify hash pubKeyBuffer raw = Ok isValid
            /\ ecc_recover hash raw (StringToNumber v) true = Throw e) ->
        exists raised,
          Utils.verify hash pubKeyBuffer (VObject props) protocol = Throw raised).
Proof.
  intros Hr Hs Hv.
  pose proof (joinSignature_strings props r s v Hr Hs Hv) as Hjoin.
  split; [|split; [|split]].
  - intros zr zs isValid recovered Hzr Hzs raw Hverify Hrecover.
    rewrite (fromBigIntStr_parsed _ _ _ Hzr), (fromBigIntStr_parsed _ _ _ Hzs) in Hjoin.
    cbn [bind] in Hjoin. rewrite (verify_joined _ _ _ _ _ _ Hjoin).
    fold raw. rewrite Hverify, Hrecover. cbn [bind].
    destruct recovered; reflexivity.
  - intros Hzr. unfold Utils.verify. rewrite Hjoin.
    unfold SBuffer.fromBigIntStr, BigInt. rewrite Hzr. reflexivity.
  - intros zr Hzr Hzs. unfold Utils.verify. rewrite Hjoin.
    unfold SBuffer.fromBigIntStr, BigInt. rewrite Hzr, Hzs. reflexivity.
  - intros zr zs e Hzr Hzs raw Hthrow.
    rewrite (fromBigIntStr_parsed _ _ _ Hzr), (fromBigIntStr_parsed _ _ _ Hzs) in Hjoin.
    cbn [bind] in Hjoin. rewrite (verify_joined _ _ _ _ _ _ Hjoin). fold raw.
    exists e.
    destruct Hthrow as [Hv' | (isValid & Hv' & Hr')]; rewrite Hv'; [reflexivity|].
    cbn [bind]. rewrite Hr'. reflexivity.
Qed.

End Verify.

Lemma Signature_object_props {E : Engine} (v r s : jstring) :
  Utils.Signature_object v r s
  = VObject [(str "v", VString v); (str "r", VString r); (str "s", VString s)].
Proof. reflexivity. Qed.

Lemma verify_unsigned_hash_verdict :
  ecc_verify TestData.unsigned_hash (Utils.pubKeyBuffer TestData.keypair)
    (SBuffer.fromBigInt
       34249651214269469717861213398711965184800430928931385332066625619914023697843
       SBuffer.default_length
     ++ SBuffer.fromBigInt
          36706060356166294409252831878099979084287150562193464995607767095211250500217
          SBuffer.default_length)
  = Ok false.
Proof. vm_cast_no_check (eq_refl (@Ok bool false)). Qed.

Lemma verify_unsigned_hash_recovered :
  ecc_recover TestData.unsigned_hash
    (SBuffer.fromBigInt
       34249651214269469717861213398711965184800430928931385332066625619914023697843
       SBuffer.default_length
     ++ SBuffer.fromBigInt
          36706060356166294409252831878099979084287150562193464995607767095211250500217
          SBuffer.default_length)
    (StringToNumber (str "0")) true
  = Ok (Some TestData.stray_key).
Proof. vm_cast_no_check (eq_refl (@Ok (option bytes) (Some TestData.stray_key))). Qed.

Lemma verify_returns_verdict_witness :
  Utils.verify TestData.unsigned_hash (Utils.pubKeyBuffer TestData.keypair)
    TestData.signature VNull
  = Ok {| Utils.test :=
            {| Utils.valid := false;
               Utils.pub := Buffer_toString_hex (Utils.pubKeyBuffer TestData.keypair);
               Utils.pubRecovered := Buffer_toString_hex TestData.stray_key |};
          Utils.result := JSON_stringify VNull |}.
Proof.
  unfold TestData.signature. rewrite Signature_object_props.
  refine (proj1 (verify_returns_verdict TestData.unsigned_hash
                   (Utils.pubKeyBuffer TestData.keypair) VNull
                   [(str "v", VString (str "0"));
                    (str "r", VString (str "34249651214269469717861213398711965184800430928931385332066625619914023697843"));
                    (str "s", VString (str "36706060356166294409252831878099979084287150562193464995607767095211250500217"))]
                   _ _ _ eq_refl eq_refl eq_refl)
            _ _ false (Some TestData.stray_key) _ _ _ _).
  - vm_compute. reflexivity.
  - vm_compute. reflexivity.
  - exact verify_unsigned_hash_verdict.
  - exact verify_unsigned_hash_recovered.
Defined.

(** C7 fails as stated: both signatures below have strings for [r], [s]
    and [v], and [verify] raises on both: the [SyntaxError] of [BigInt]
    for the first, an error of the library for the second. *)
Lemma verify_returns_verdict_counterexample :
  Utils.verify TestData.verifyingHash (Utils.pubKeyBuffer TestData.keypair)
    TestData.garbageSignature VNull
  = Throw (Exn SyntaxError (str "Cannot convert abc to a BigInt"))
  /\ Utils.verify TestData.verifyingHash (Utils.pubKeyBuffer TestData.keypair)
       TestData.invalidSignature VNull
     = Throw (Exn TypeError (str "Expected Signature")).
Proof.
  split.
  - vm_cast_no_check
      (eq_refl (@Throw Utils.VerificationResult
                  (Exn SyntaxError (str "Cannot convert abc to a BigInt")))).
  - vm_cast_no_check
      (eq_refl (@Throw Utils.VerificationResult
                  (Exn TypeError (str "Expected Signature")))).
Qed.

(** C3, on the code. [verify] with the all-zero signature of the
    repository's test raises the library's [TypeError] as it is: its
    message is 'Expected Signature', with no 'Failed to recover the public
    key: ' in front. *)
Theorem verify_zero_signature_unwrapped :
  Utils.verify TestData.verifyingHash (Utils.pubKeyBuffer TestData.keypair)
    TestData.invalidSignature TestData.protocol
  = Throw (Exn TypeError (str "Expected Signature")).
Proof.
  vm_cast_no_check
    (eq_refl (@Throw Utils.VerificationResult
                (Exn TypeError (str "Expected Signature")))).
Qed.

(** ** C1 and C10: what [signAndVerify] returns and what it changes *)

Section SignAndVerifyClaims.
Context {E : Engine} {C : Ecc}.


Lemma read_placed_flat (props : list (jstring * value)) (k : jstring) :
  lookup (str "prv") props = None ->
  Utils.read_placed (VObject props) k
  = Ok (match lookup k props with Some x => x | None => VUndefined end).
Proof. intros H. unfold Utils.read_placed. cbn [Get bind]. rewrite H. reflexivity. Qed.

Lemma write_placed_flat (props : list (jstring * value)) (k : jstring) (x : value) :
  lookup (str "prv") props = None ->
  Utils.write_placed (VObject props) k x = Ok (VObject (set_prop k x props)).
Proof. intros H. unfold Utils.write_placed. cbn [Get bind]. rewrite H. reflexivity. Qed.

(** C10. For every flat draft (an object with no [prv] field),
    [signAndVerify] leaves every field other than [sig] and [hash] as it
    was, whether it returns or raises, and the [result] it returns is the
    JSON text of the draft in its final state, in which [sig] and [hash]
    are set. *)
Theorem signAndVerify_flat_frame
    (props : list (jstring * value)) (keypair : Utils.KeypairBuffer)
    (baseMessage : value) (messageKey : option jstring) :
  lookup (str "prv") props = None ->
  exists props',
    fst (Utils.signAndVerify (VObject props) keypair baseMessage messageKey)
    = VObject props'
    /\ (forall k, k <> str "sig" -> k <> str "hash" -> lookup k props' = lookup k props)
    /\ (forall r,
          snd (Utils.signAndVerify (VObject props) keypair baseMessage messageKey) = Ok r ->
          Utils.result r = JSON_stringify (VObject props')
          /\ exists signature msgHash,
               lookup (str "sig") props' = Some signature
               /\ lookup (str "hash") props'
                  = Some (VString (Buffer_toString_hex msgHash))
               /\ Utils.sign baseMessage (VBuffer (Utils.privKeyBuffer keypair))
                    (match lookup (str "salt") props with
                     | Some x => x
                     | None => VUndefined
                     end)
                  = Ok (signature, msgHash)).
Proof.
  intros Hprv. unfold Utils.signAndVerify.
  rewrite read_placed_flat by assumption. cbn [bind].
  destruct (Utils.sign baseMessage _ _) as [[signature msgHash]|e] eqn:Esign;
    cbn [bind].
  2:{ exists props. split; [reflexivity|]. split; [reflexivity|].
      cbn [snd]. discriminate. }
  rewrite write_placed_flat by assumption.
  assert (Hprv1 : lookup (str "prv") (set_prop (str "sig") signature props) = None).
  { rewrite lookup_set_other by keys_differ. assumption. }
  rewrite write_placed_flat by assumption.
  eexists. split; [reflexivity|]. split.
  - intros k Hsig Hhash. rewrite !lookup_set_other by assumption. reflexivity.
  - cbn [snd]. intros r Hcheck. split.
    + unfold Utils.self_check in Hcheck. cbn [spread] in Hcheck.
      destruct (Utils.test_message _ _ _) as [message|]; [|discriminate].
      cbn [bind] in Hcheck.
      destruct (Utils.read_placed _ _) as [test_sig|]; [|discriminate].
      cbn [bind] in Hcheck.
      destruct (verify_Ok_inv _ _ _ _ _ Hcheck) as (_ & _ & _ & _ & _ & _ & _ & _ & Hres).
      exact Hres.
    + exists signature, msgHash. split; [|split; [|reflexivity]].
      * rewrite lookup_set_other by keys_differ. apply lookup_set_same.
      * apply lookup_set_same.
Qed.

End SignAndVerifyClaims.

Lemma returned_snd_Some {A B : Type} (f : B -> bool) (c : A * completion B) (b : bool) :
  option_map f (returned (snd c)) = Some b ->
  exists a r, c = (a, Ok r) /\ f r = b.
Proof.
  destruct c as [a [r|e]]; cbn; intros H; [|discriminate].
  injection H as <-. exists a, r. split; reflexivity.
Qed.




(** The message key [__proto__] names no field of the draft of the
    repository's test: what is read under it is inherited, and its JSON
    text is [{}]. With that text as base message the self-verification
    succeeds. *)
Lemma signAndVerify_inherited_key_valid :
  option_map (fun r => Utils.valid (Utils.test r))
    (returned (snd (Utils.signAndVerify TestData.protocol TestData.keypair
                      (VString (str "{}")) (Some (str "__proto__")))))
  = Some true.
Proof. vm_cast_no_check (eq_refl (Some true)). Qed.

(** On [null] for a protocol object the first read fails, and the error
    names [null]. *)
Lemma signAndVerify_null_protocol :
  Utils.signAndVerify VNull TestData.keypair (VString (str "test_baseMessage")) None
  = (VNull,
     Throw (Exn TypeError (str "Cannot read properties of null (reading 'prv')"))).
Proof. reflexivity. Qed.


Lemma signAndVerify_flat_frame_witness :
  exists props',
    fst (Utils.signAndVerify TestData.keyed_protocol TestData.keypair
           (VString (str "test_baseMessage")) (Some (str "auth")))
    = VObject props'
    /\ lookup (str "auth") props' = Some TestData.message
    /\ lookup (str "salt") props' = Some (VString (str "test_salt")).
Proof.
  destruct (signAndVerify_flat_frame
              [(str "p", VString (str "tap"));
               (str "op", VString (str "privilege-auth"));
               (str "sig", VNull);
               (str "hash", VNull);
               (str "salt", VString (str "test_salt"));
               (str "auth", TestData.message)]
              TestData.keypair (VString (str "test_baseMessage")) (Some (str "auth"))
              eq_refl)
    as (props' & Hfst & Hframe & _).
  exists props'. split; [exact Hfst|].
  split; (rewrite Hframe; [reflexivity|keys_differ|keys_differ]).
Defined.

(** ** C9 and C2: the builders [signMint] and [signVerification] *)

Section Builders.
Context {E : Engine} {C : Ecc}.

(** The draft that [signMint] builds. *)
Lemma signMint_draft (tick : jstring) (amount : number) (address salt : jstring) :
  object_literal
    [(str "p", VString (str "tap"));
     (str "op", VString (str "token-mint"));
     (str "tick", VString tick);
     (str "amt", VNumber amount);
     (str "prv",
      object_literal
        [(str "sig", VNull);
         (str "hash", VNull);
         (str "address", VString address);
         (str "salt", VString salt)])]
  = VObject
      [(str "p", VString (str "tap"));
       (str "op", VString (str "token-mint"));
       (str "tick", VString tick);
       (str "amt", VNumber amount);
       (str "prv",
        VObject
          [(str "sig", VNull);
           (str "hash", VNull);
           (str "address", VString address);
           (str "salt", VString salt)])].
Proof. reflexivity. Qed.

(** C9. For every call of [signMint] with keys of the right lengths, the
    hash that is given to the signer is that of the text
    [p-op-tick-amt-address-], with its trailing hyphen, followed by the
    salt, where [p], [op], [tick], [amt], [prv.address] and [prv.salt] are
    the fields of the draft, [tick] is the lower-cased ticker and the
    salt is the text of the [salt] argument. When the
    signer returns, the signature and the hash are stored under the
    draft's [prv] and the draft itself has no [sig]; when it throws, the
    call fails with 'Failed to sign the message: ...' and the draft keeps
    its null [sig] and [hash] under [prv]. *)
Theorem signMint_signs_draft_text
    (privKey pubKey : jstring + bytes) (ticker : jstring) (amount : number)
    (address : jstring) (salt : Tap.salt_arg) (random : number)
    (keypair : Utils.KeypairBuffer) :
  Utils.getKeypairBuff privKey pubKey = Ok keypair ->
  exists protocol prv p op tick salt',
    fst (Tap.signMint privKey pubKey ticker amount address salt random) = Some protocol
    /\ Get protocol (str "p") = Ok (VString p)
    /\ Get protocol (str "op") = Ok (VString op)
    /\ Get protocol (str "tick") = Ok (VString tick)
    /\ tick = String_toLowerCase ticker
    /\ Get protocol (str "amt") = Ok (VNumber amount)
    /\ Get protocol (str "prv") = Ok prv
    /\ Get prv (str "address") = Ok (VString address)
    /\ Get prv (str "salt") = Ok (VString salt')
    /\ salt' = Tap.salt_text salt random
    /\ Get protocol (str "sig") = Ok VUndefined
    /\ (let text := p ++ str "-" ++ op ++ str "-" ++ tick ++ str "-"
                      ++ Number_toString amount ++ str "-" ++ address ++ str "-" in
        let msgHash := bcSha256 (utf8 (text ++ salt')) in
        (forall rs signature,
            ecc_signRecoverable msgHash (Utils.privKeyBuffer keypair) = Ok rs ->
            Utils.splitSignature
              {| Utils.signature := VUint8Array (fst rs);
                 Utils.recoveryId := snd rs |} Utils.OutputNumber
            = Ok signature ->
            Get prv (str "sig") = Ok signature
            /\ Get prv (str "hash") = Ok (VString (Buffer_toString_hex msgHash)))
        /\ (forall e,
              ecc_signRecoverable msgHash (Utils.privKeyBuffer keypair) = Throw e ->
              snd (Tap.signMint privKey pubKey ticker amount address salt random)
              = Throw (failed_to_sign e)
              /\ Get prv (str "sig") = Ok VNull
              /\ Get prv (str "hash") = Ok VNull)).
Proof.
  intros Hkeys. unfold Tap.signMint, Tap.with_keypair.
  rewrite Hkeys, signMint_draft. unfold Utils.signAndVerify.
  change (Utils.read_placed _ (str "salt"))
    with (@Ok value (VString (Tap.salt_text salt random))).
  cbn [bind]. rewrite sign_validated. unfold sign_body.
  destruct (ecc_signRecoverable _ (Utils.privKeyBuffer keypair)) as [rs|e] eqn:Ers;
    cbn [bind try_catch_rethrow].
  - destruct (Utils.splitSignature _ Utils.OutputNumber) as [signature|e] eqn:Esplit;
      cbn [bind try_catch_rethrow].
    + do 6 eexists.
      repeat (split; [reflexivity|]).
      cbv zeta. split.
      * intros rs' signature' Hrs' Hsplit'.
        rewrite Ers in Hrs'. injection Hrs' as <-.
        rewrite Esplit in Hsplit'. injection Hsplit' as <-.
        split; reflexivity.
      * intros e He. rewrite Ers in He. discriminate He.
    + do 6 eexists.
      repeat (split; [reflexivity|]).
      cbv zeta. split.
      * intros rs' signature' Hrs' Hsplit'.
        rewrite Ers in Hrs'. injection Hrs' as <-.
        rewrite Esplit in Hsplit'. discriminate Hsplit'.
      * intros e' He. rewrite Ers in He. discriminate He.
  - do 6 eexists.
    repeat (split; [reflexivity|]).
    cbv zeta. split.
    + intros rs signature Hrs. rewrite Ers in Hrs. discriminate Hrs.
    + intros e' He. rewrite Ers in He. injection He as <-.
      repeat split.
Qed.

(** The draft that [signVerification] builds. *)
Lemma signVerification_draft
    (address salt privilege_authority_id sha256_hash collection : jstring)
    (sequence : number) :
  object_literal
    [(str "p", VString (str "tap"));
     (str "op", VString (str "privilege-auth"));
     (str "sig", VNull);
     (str "hash", VNull);
     (str "address", VString address);
     (str "salt", VString salt);
     (str "prv", VString privilege_authority_id);
     (str "verify", VString sha256_hash);
     (str "col", VString collection);
     (str "seq", VNumber sequence)]
  = VObject
      [(str "p", VString (str "tap"));
       (str "op", VString (str "privilege-auth"));
       (str "sig", VNull);
       (str "hash", VNull);
       (str "address", VString address);
       (str "salt", VString salt);
       (str "prv", VString privilege_authority_id);
       (str "verify", VString sha256_hash);
       (str "col", VString collection);
       (str "seq", VNumber sequence)].
Proof. reflexivity. Qed.

(** C2, on the code. For every call of [signVerification] with keys of
    the right lengths and a privilege authority id that is not the empty
    string, [signAndVerify] takes the draft's [prv], a string, for the
    nested place, reads no salt there, and the call fails with 'Invalid
    input types': nothing is signed, the draft keeps its null [sig] and
    [hash]. *)
Theorem signVerification_nonempty_authority_fails
    (privKey pubKey : jstring + bytes)
    (privilege_authority_id sha256_hash collection : jstring) (sequence : number)
    (address : jstring) (salt : Tap.salt_arg) (random : number)
    (keypair : Utils.KeypairBuffer) :
  Utils.getKeypairBuff privKey pubKey = Ok keypair ->
  privilege_authority_id <> [] ->
  exists protocol,
    Tap.signVerification privKey pubKey privilege_authority_id sha256_hash
      collection sequence address salt random
    = (Some protocol, Throw invalid_input_types)
    /\ Get protocol (str "prv") = Ok (VString privilege_authority_id)
    /\ Utils.read_placed protocol (str "salt") = Ok VUndefined
    /\ Get protocol (str "salt") = Ok (VString (Tap.salt_text salt random))
    /\ Get protocol (str "sig") = Ok VNull
    /\ Get protocol (str "hash") = Ok VNull.
Proof.
  intros Hkeys Hid. unfold Tap.signVerification, Tap.with_keypair.
  rewrite Hkeys, signVerification_draft.
  destruct privilege_authority_id as [|c id]; [contradiction|].
  eexists. split; [reflexivity|]. repeat split.
Qed.

End Builders.

(** A call of [signMint]: the self-verification succeeds. *)
Lemma signMint_run_valid :
  option_map (fun r => Utils.valid (Utils.test r))
    (returned (snd (Tap.signMint (inl TestData.pk) (inl TestData.pub)
                      (str "TAP-Token-Auth") (Int 1000) TestData.readme_minter
                      (Some (inr TestData.readme_salt)) (Int 0))))
  = Some true.
Proof. vm_cast_no_check (eq_refl (Some true)). Qed.

Lemma signMint_signs_draft_text_witness :
  exists protocol prv,
    fst (Tap.signMint (inl TestData.pk) (inl TestData.pub) (str "TAP-Token-Auth")
           (Int 1000) TestData.readme_minter (Some (inr TestData.readme_salt))
           (Int 0))
    = Some protocol
    /\ Get protocol (str "tick") = Ok (VString TestData.readme_ticker)
    /\ Get protocol (str "prv") = Ok prv
    /\ Get prv (str "salt") = Ok (VString TestData.readme_salt).
Proof.
  destruct (signMint_signs_draft_text (E := engine) (C := ecc)
              (inl TestData.pk) (inl TestData.pub) (str "TAP-Token-Auth")
              (Int 1000) TestData.readme_minter (Some (inr TestData.readme_salt))
              (Int 0) TestData.keypair eq_refl)
    as (protocol & prv & p & op & tick & salt' &
        Hfst & _ & _ & Htick & -> & _ & Hprv & _ & Hsalt & -> & _).
  exists protocol, prv. split; [exact Hfst|]. split; [exact Htick|].
  split; [exact Hprv|exact Hsalt].
Defined.

Lemma signVerification_nonempty_authority_fails_witness :
  exists protocol,
    Tap.signVerification (inl TestData.pk) (inl TestData.pub) (str "authority")
      (str "5471b88a") (str "collection") (Int 1) (str "tb1p96fnzkff")
      (Some (inr (str "test_salt"))) (Int 0)
    = (Some protocol, Throw invalid_input_types)
    /\ Get protocol (str "sig") = Ok VNull.
Proof.
  destruct (signVerification_nonempty_authority_fails (E := engine) (C := ecc)
              (inl TestData.pk) (inl TestData.pub) (str "authority")
              (str "5471b88a") (str "collection") (Int 1) (str "tb1p96fnzkff")
              (Some (inr (str "test_salt"))) (Int 0) TestData.keypair
              eq_refl ltac:(discriminate))
    as (protocol & H & _ & _ & _ & Hsig & _).
  exists protocol. split; [exact H|exact Hsig].
Defined.

(** With the empty string as privilege authority id the flat place is
    taken and the self-verification succeeds. *)
Lemma signVerification_empty_authority_valid :
  option_map (fun r => Utils.valid (Utils.test r))
    (returned (snd (Tap.signVerification (inl TestData.pk) (inl TestData.pub)
                      (str "") (str "5471b88a") (str "collection") (Int 1)
                      (str "tb1p96fnzkff") (Some (inr (str "test_salt"))) (Int 0))))
  = Some true.
Proof. vm_cast_no_check (eq_refl (Some true)). Qed.

(** ** The vectors of the repository's tests *)

(** The hex decoder reads the low byte of a code unit: sixty-four times
    U+0131, whose low byte is that of the digit 1, are a key of 32 bytes. *)
Lemma getKeypairBuff_low_bytes :
  Utils.getKeypairBuff (inl (repeat 0x131%N 64)) (inl TestData.pub)
  = Ok {| Utils.privKeyBuffer := repeat x11 32;
          Utils.pubKeyBuffer := Buffer_from_hex TestData.pub |}.
Proof. reflexivity. Qed.

(** The library model signs the hash of the test "verify function" with
    the test key as the repository's test data has it signed. *)
Lemma signRecoverable_test_vector :
  option_map (fun rs => (Utils.splitSignature
                           {| Utils.signature := VUint8Array (fst rs);
                              Utils.recoveryId := snd rs |} Utils.OutputNumber))
    (returned (ecc_signRecoverable TestData.verifyingHash
                 (Utils.privKeyBuffer TestData.keypair)))
  = Some (Ok TestData.signature).
Proof. vm_cast_no_check (eq_refl (Some (@Ok value TestData.signature))). Qed.

(** "should return a valid verification result" *)
Lemma verify_test_vector :
  option_map (fun r => (Utils.valid (Utils.test r), Utils.pubRecovered (Utils.test r)))
    (returned (Utils.verify TestData.verifyingHash (Utils.pubKeyBuffer TestData.keypair)
                 TestData.signature TestData.protocol))
  = Some (true, TestData.pub).
Proof. vm_cast_no_check (eq_refl (Some (true, TestData.pub))). Qed.

(** "should sign and verify a message with a message key correctly" *)
Lemma signAndVerify_keyed_valid :
  option_map (fun r => (Utils.valid (Utils.test r), Utils.pubRecovered (Utils.test r)))
    (returned (snd (Utils.signAndVerify TestData.keyed_protocol TestData.keypair
                      (match JSON_stringify TestData.message with
                       | Some s => VString s
                       | None => VUndefined
                       end) (Some (str "auth")))))
  = Some (true, TestData.pub).
Proof. vm_cast_no_check (eq_refl (Some (true, TestData.pub))). Qed.

(** The README's example of [signMint]: the hash that the call stores
    under [prv] is the one of the README's output, whatever the key. *)
Lemma signMint_readme_hash :
  match fst (Tap.signMint (inl TestData.pk) (inl TestData.pub) TestData.readme_ticker
               (Int 1000) TestData.readme_minter (Some (inr TestData.readme_salt))
               (Int 0)) with
  | Some protocol =>
      returned (prv <- Get protocol (str "prv") ;; Get prv (str "hash"))
  | None => None
  end
  = Some (VString TestData.readme_mint_hash).
Proof. vm_cast_no_check (eq_refl (Some (VString TestData.readme_mint_hash))). Qed.

(** The signature of the README's output verifies against its hash and
    its public key. *)
Lemma verify_readme_mint :
  option_map (fun r => (Utils.valid (Utils.test r), Utils.pubRecovered (Utils.test r)))
    (returned (Utils.verify (Buffer_from_hex TestData.readme_mint_hash)
                 (Buffer_from_hex TestData.readme_mint_pub)
                 TestData.readme_mint_sig VNull))
  = Some (true, TestData.readme_mint_pub).
Proof. vm_cast_no_check (eq_refl (Some (true, TestData.readme_mint_pub))). Qed.

(* ================================================================= *)
(** * Further properties of the code *)

(** ** [src/core/buffer.ts]: values, widths and round trips *)

Lemma be_value_be_bytes (k : nat) :
  forall z, be_value (be_bytes k z) = z mod 256 ^ Z.of_nat k.
Proof.
  induction k as [|k IH]; intros z.
  - cbn. symmetry. apply Z.mod_1_r.
  - cbn [be_bytes]. rewrite be_value_app, IH. cbn [length].
    change (be_value [byte_of_Z z]) with (0 * 256 + byte_to_Z (byte_of_Z z)).
    change (Z.of_nat 1) with 1.
    rewrite byte_to_of_Z, Nat2Z.inj_succ, Z.pow_succ_r by lia.
    rewrite (Z.rem_mul_r z 256 (256 ^ Z.of_nat k)) by lia. lia.
Qed.

(** The bytes of a given length and a given big-endian value. *)
Lemma be_bytes_unique (k : nat) (z : Z) (b : bytes) :
  length b = k -> be_value b = z -> b = be_bytes k z.
Proof.
  intros Hlen Hv. apply be_value_inj.
  - rewrite be_bytes_length. assumption.
  - rewrite be_value_be_bytes, Hv. symmetry. apply Z.mod_small.
    rewrite <- Hv, <- Hlen. apply be_value_range.
Qed.

Lemma decimal_inj (n m : N) : decimal n = decimal m -> n = m.
Proof.
  intros H. pose proof (StringToBigInt_decimal n) as Hn.
  pose proof (StringToBigInt_decimal m) as Hm.
  unfold decimal in H. rewrite H, Hm in Hn. injection Hn as Hn. lia.
Qed.

(** X1. [toBigInt] returns the big-endian value of every buffer that is
    not empty; on the empty buffer the text given to [BigInt] is ["0x"],
    which is no numeral, and a SyntaxError is raised. *)
Theorem toBigInt_big_endian (buffer : bytes) :
  SBuffer.toBigInt buffer
  = match buffer with
    | [] => Throw (Exn SyntaxError (str "Cannot convert 0x to a BigInt"))
    | _ :: _ => Ok (be_value buffer)
    end.
Proof.
  destruct buffer as [|x b]; [reflexivity|].
  apply toBigInt_value. discriminate.
Qed.

(** X2. [toBigIntStr] prints the value in decimal: buffers that are not
    empty have the same text exactly when they have the same big-endian
    value, so leading zero bytes leave no trace in the text. *)
Theorem toBigIntStr_same_value (a b : bytes) :
  a <> [] -> b <> [] ->
  SBuffer.toBigIntStr a = Ok (decimal (Z.to_N (be_value a)))
  /\ (SBuffer.toBigIntStr a = SBuffer.toBigIntStr b <-> be_value a = be_value b)
  /\ forall k, SBuffer.toBigIntStr (repeat x00 k ++ a) = SBuffer.toBigIntStr a.
Proof.
  intros Ha Hb. split; [apply toBigIntStr_value; assumption|]. split.
  - rewrite !toBigIntStr_value by assumption. split.
    + intros H. injection H as H. apply decimal_inj in H.
      pose proof (be_value_range a). pose proof (be_value_range b). lia.
    + intros ->. reflexivity.
  - intros k. rewrite !toBigIntStr_value.
    + rewrite be_value_app.
      replace (be_value (repeat x00 k)) with 0; [reflexivity|].
      induction k as [|k IH]; [reflexivity|].
      cbn [repeat]. rewrite be_value_cons, <- IH. reflexivity.
    + assumption.
    + destruct k; [assumption|discriminate].
Qed.

Lemma toBigIntStr_same_value_witness :
  SBuffer.toBigIntStr [x01; x00] = Ok (decimal (Z.to_N (be_value [x01; x00])))
  /\ (SBuffer.toBigIntStr [x01; x00] = SBuffer.toBigIntStr [x00; x01; x00]
      <-> be_value [x01; x00] = be_value [x00; x01; x00])
  /\ forall k, SBuffer.toBigIntStr (repeat x00 k ++ [x01; x00])
               = SBuffer.toBigIntStr [x01; x00].
Proof.
  apply (toBigIntStr_same_value [x01; x00] [x00; x01; x00]); discriminate.
Defined.

Lemma fromBigInt_be_bytes (z : Z) (k : nat) :
  0 <= z < 256 ^ Z.of_nat k -> (0 < k)%nat ->
  SBuffer.fromBigInt z (2 * k) = be_bytes k z.
Proof.
  intros Hn Hk.
  destruct (fromBigInt_fits (Z.to_N z) k) as [Hl Hv].
  - apply N2Z.inj_lt. rewrite pow_16_256, Z2N.id; lia.
  - assumption.
  - rewrite Z2N.id in Hl, Hv by lia. apply be_bytes_unique; assumption.
Qed.

(** X3. For a value that fits in [k] bytes, [fromBigInt] with [2 * k]
    hexadecimal digits returns exactly [k] bytes, those of the value, most
    significant first, with zero bytes in front; and [toBigInt] reads the
    value back from them. *)
Theorem fromBigInt_big_endian (input : Z) (k : nat) :
  0 <= input < 256 ^ Z.of_nat k -> (0 < k)%nat ->
  SBuffer.fromBigInt input (2 * k) = be_bytes k input
  /\ length (SBuffer.fromBigInt input (2 * k)) = k
  /\ SBuffer.toBigInt (SBuffer.fromBigInt input (2 * k)) = Ok input.
Proof.
  intros Hn Hk. rewrite fromBigInt_be_bytes by assumption.
  split; [reflexivity|]. split; [apply be_bytes_length|].
  rewrite toBigInt_value.
  - rewrite be_value_be_bytes, Z.mod_small by assumption. reflexivity.
  - intros H. apply (f_equal (@length byte)) in H.
    rewrite be_bytes_length in H. cbn in H. lia.
Qed.

Lemma fromBigInt_big_endian_witness :
  SBuffer.fromBigInt 258 (2 * 4) = be_bytes 4 258
  /\ length (SBuffer.fromBigInt 258 (2 * 4)) = 4%nat
  /\ SBuffer.toBigInt (SBuffer.fromBigInt 258 (2 * 4)) = Ok 258.
Proof. apply fromBigInt_big_endian; [split; [lia|reflexivity]|lia]. Defined.

Lemma split_last (D : list N) (k : nat) :
  length D = S k -> exists D' d, D = D' ++ [d] /\ length D' = k.
Proof.
  intros Hlen.
  assert (HD : D <> []) by (destruct D; [discriminate|discriminate]).
  exists (removelast D), (last D 0%N). split.
  - apply app_removelast_last. assumption.
  - pose proof (app_removelast_last 0%N HD) as H.
    apply (f_equal (@length N)) in H. rewrite length_app in H. cbn in H. lia.
Qed.

(** X4. [length] counts hexadecimal digits, and an odd number of them
    loses the last one: for a value below [16^(2k+1)], [fromBigInt] with
    [2 * k + 1] digits returns the [k] bytes of the value divided by 16. *)
Theorem fromBigInt_odd_length (input : Z) (k : nat) :
  0 <= input < 16 * 256 ^ Z.of_nat k ->
  SBuffer.fromBigInt input (2 * k + 1) = be_bytes k (input / 16).
Proof.
  intros Hn. unfold SBuffer.fromBigInt.
  rewrite <- (Z2N.id input) at 1 by lia.
  rewrite BigInt_toString_nat, padStart_digits.
  destruct (to_digits_spec 16 ltac:(lia) (Z.to_N input)) as [Hv Hd _ Hs _].
  assert (Hlt : (Z.to_N input < 16 ^ N.of_nat (2 * k + 1))%N).
  { apply N2Z.inj_lt. rewrite Z2N.id by lia.
    replace (2 * k + 1)%nat with (S (2 * k)) by lia.
    rewrite Nat2N.inj_succ, N.pow_succ_r', N2Z.inj_mul, pow_16_256. lia. }
  specialize (Hs (2 * k + 1)%nat ltac:(lia) Hlt).
  set (D := repeat 0%N (2 * k + 1 - length (to_digits 16 (Z.to_N input)))
              ++ to_digits 16 (Z.to_N input)).
  assert (HlenD : length D = S (2 * k)).
  { unfold D. rewrite length_app, repeat_length. lia. }
  assert (HD : Forall (fun d => d < 16)%N D).
  { unfold D. apply Forall_app. split; [|assumption].
    apply Forall_forall. intros d Hin. apply repeat_spec in Hin. subst d. lia. }
  assert (HvD : of_digits 16 D = Z.to_N input).
  { unfold D. rewrite (of_digits_zeros 16 ltac:(lia)). assumption. }
  destruct (split_last D (2 * k) HlenD) as (D' & d & HDeq & HlenD').
  rewrite HDeq in HD, HvD |- *. apply Forall_app in HD. destruct HD as [HD' Hd'].
  inversion Hd' as [|? ? Hdlt _]; subst.
  rewrite (Buffer_from_hex_odd k) by assumption.
  destruct (Buffer_from_hex_digits k D' HlenD' HD') as [Hl Hval].
  apply be_bytes_unique; [assumption|].
  rewrite Hval. rewrite (of_digits_snoc 16 ltac:(lia)) in HvD.
  apply Z.div_unique with (r := Z.of_N d); lia.
Qed.

Lemma fromBigInt_odd_length_witness :
  SBuffer.fromBigInt 2748 (2 * 1 + 1) = be_bytes 1 (2748 / 16).
Proof. apply fromBigInt_odd_length. split; [lia|reflexivity]. Defined.

Lemma Buffer_from_hex_zeros_stop (c : N) (t : jstring) :
  unhex c = None ->
  forall j, Buffer_from_hex (repeat 48%N j ++ c :: t) = repeat x00 (Nat.div2 j).
Proof.
  intros Hc.
  assert (H : forall j,
             Buffer_from_hex (repeat 48%N j ++ c :: t) = repeat x00 (Nat.div2 j)
             /\ Buffer_from_hex (repeat 48%N (S j) ++ c :: t)
                = repeat x00 (Nat.div2 (S j))).
  { induction j as [|j [IH1 IH2]].
    - split.
      + cbn [repeat app Buffer_from_hex]. rewrite Hc. destruct t; reflexivity.
      + cbn [repeat app Buffer_from_hex]. rewrite Hc. reflexivity.
    - split; [assumption|].
      cbn [repeat app]. cbn [Buffer_from_hex].
      change (unhex 48) with (Some 0%N). cbn [Nat.div2 repeat].
      f_equal. exact IH1. }
  intros j. apply H.
Qed.

(** X5. [fromBigInt] has no error for a negative number. Its hexadecimal
    text starts with a minus sign, at which the decoding of the padded text
    stops: what is returned is zero bytes only, fewer than were asked for,
    and nothing of the value. *)
Theorem fromBigInt_negative (input : Z) (length : nat) :
  input < 0 ->
  SBuffer.fromBigInt input length
  = repeat x00 ((length - S (List.length (to_digits 16 (Z.abs_N input)))) / 2).
Proof.
  intros Hneg. unfold SBuffer.fromBigInt, BigInt_toString.
  replace (input <? 0) with true by (symmetry; apply Z.ltb_lt; assumption).
  unfold padStart. rewrite length_app, length_map.
  change (List.length (str "-")) with 1%nat.
  change (str "-" ++ ?l) with (45%N :: l).
  rewrite Buffer_from_hex_zeros_stop by reflexivity.
  rewrite Nat.div2_div. reflexivity.
Qed.

Lemma fromBigInt_negative_witness :
  SBuffer.fromBigInt (-255) 64
  = repeat x00 ((64 - S (List.length (to_digits 16 (Z.abs_N (-255))))) / 2).
Proof. apply fromBigInt_negative. lia. Defined.

(** X6. [fromBigInt] undoes [toBigInt] when it is asked for two
    hexadecimal digits for every byte of the buffer. *)
Theorem fromBigInt_toBigInt (buffer : bytes) :
  buffer <> [] ->
  (x <- SBuffer.toBigInt buffer ;;
   Ok (SBuffer.fromBigInt x (2 * length buffer)))
  = Ok buffer.
Proof.
  intros Hb. rewrite toBigInt_value by assumption. cbn [bind]. f_equal.
  pose proof (be_value_range buffer) as Hr.
  rewrite fromBigInt_be_bytes.
  - symmetry. apply be_bytes_unique; reflexivity.
  - assumption.
  - destruct buffer; [contradiction|cbn; lia].
Qed.

Lemma fromBigInt_toBigInt_witness :
  (x <- SBuffer.toBigInt [x00; xff] ;;
   Ok (SBuffer.fromBigInt x (2 * length [x00; xff])))
  = Ok [x00; xff].
Proof. apply fromBigInt_toBigInt. discriminate. Defined.

(** X7. [toBigIntStr] undoes [fromBigIntStr] on the decimal numeral of a
    value that fits in the bytes asked for. *)
Theorem toBigIntStr_fromBigIntStr (n : N) (k : nat) :
  (Z.of_N n < 256 ^ Z.of_nat k) -> (0 < k)%nat ->
  (b <- SBuffer.fromBigIntStr (decimal n) (2 * k) ;; SBuffer.toBigIntStr b)
  = Ok (decimal n).
Proof.
  intros Hn Hk. unfold decimal. rewrite fromBigIntStr_decimal. cbn [bind].
  rewrite fromBigInt_be_bytes by (try assumption; lia).
  rewrite toBigIntStr_value.
  - rewrite be_value_be_bytes, Z.mod_small, N2Z.id by lia. reflexivity.
  - intros H. apply (f_equal (@length byte)) in H.
    rewrite be_bytes_length in H. cbn in H. lia.
Qed.

Lemma toBigIntStr_fromBigIntStr_witness :
  (b <- SBuffer.fromBigIntStr (decimal 1000) (2 * 32) ;; SBuffer.toBigIntStr b)
  = Ok (decimal 1000).
Proof. apply toBigIntStr_fromBigIntStr; [reflexivity|lia]. Defined.

Lemma trim_start_white (s : jstring) :
  Forall (fun c => is_white_space c = true) s -> trim_start s = [].
Proof.
  induction 1 as [|c s Hc _ IH]; [reflexivity|].
  cbn [trim_start]. rewrite Hc. assumption.
Qed.

Lemma Buffer_from_hex_zeros (j : nat) :
  Buffer_from_hex (repeat 48%N j) = repeat x00 (j / 2).
Proof.
  rewrite <- Nat.div2_div.
  assert (H : forall j,
             Buffer_from_hex (repeat 48%N j) = repeat x00 (Nat.div2 j)
             /\ Buffer_from_hex (repeat 48%N (S j)) = repeat x00 (Nat.div2 (S j))).
  { clear j. induction j as [|j [IH1 IH2]].
    - split; reflexivity.
    - split; [assumption|].
      cbn [repeat]. cbn [Buffer_from_hex].
      change (unhex 48) with (Some 0%N). cbn [Nat.div2 repeat].
      f_equal. exact IH1. }
  apply H.
Qed.

(** X8. [BigInt] reads the empty string, and every string of white
    space, as zero: [fromBigIntStr] raises nothing for it and returns the
    zero bytes of the width asked for. *)
Theorem fromBigIntStr_blank (input : jstring) (length : nat) :
  Forall (fun c => is_white_space c = true) input ->
  SBuffer.fromBigIntStr input length = Ok (repeat x00 (length / 2)).
Proof.
  intros Hw. unfold SBuffer.fromBigIntStr, BigInt, StringToBigInt, trim.
  rewrite (trim_start_white input Hw). cbn [rev trim_start bind]. f_equal.
  unfold SBuffer.fromBigInt, padStart.
  change (BigInt_toString 16 0) with [48%N].
  change (List.length [48%N]) with 1%nat.
  destruct length as [|len]; [reflexivity|].
  replace (repeat 48%N (S len - 1) ++ [48%N]) with (repeat 48%N (S len)).
  - apply Buffer_from_hex_zeros.
  - replace (S len - 1)%nat with len by lia.
    change [48%N] with (repeat 48%N 1). rewrite <- repeat_app. f_equal. lia.
Qed.

Lemma fromBigIntStr_blank_witness :
  SBuffer.fromBigIntStr [] 64 = Ok (repeat x00 (64 / 2)).
Proof. apply fromBigIntStr_blank. constructor. Defined.

(** ** The signature codec: what [splitSignature] and [joinSignature]
       return and refuse *)

Lemma Buffer_from_hex_toString_hex (b : bytes) :
  Buffer_from_hex (Buffer_toString_hex b) = b.
Proof.
  induction b as [|x b IH]; [reflexivity|].
  change (Buffer_toString_hex (x :: b))
    with (digit_char (Byte.to_N x / 16) :: digit_char (Byte.to_N x mod 16)
            :: Buffer_toString_hex b).
  pose proof (Byte.to_N_bounded x) as Hx.
  rewrite Buffer_from_hex_pair, IH.
  - f_equal. unfold byte_of_N.
    rewrite <- (byte_of_to_Z x) at 3. f_equal. unfold byte_to_Z.
    pose proof (N.div_mod (Byte.to_N x) 16 ltac:(lia)). lia.
  - apply N.Div0.div_lt_upper_bound. lia.
  - apply N.mod_lt. lia.
Qed.

Lemma Buffer_toString_hex_length (b : bytes) :
  length (Buffer_toString_hex b) = (2 * length b)%nat.
Proof. rewrite Buffer_toString_hex_nibbles, length_map. apply nibbles_length. Qed.

Lemma halves_64 (b : bytes) :
  length b = 64%nat ->
  length (firstn 32 b) = 32%nat /\ length (skipn 32 b) = 32%nat
  /\ firstn 32 (skipn 32 b) = skipn 32 b /\ firstn 32 b ++ skipn 32 b = b.
Proof.
  intros Hlen. rewrite length_firstn, length_skipn.
  repeat split; try lia.
  - apply firstn_all2. rewrite length_skipn. lia.
  - apply firstn_skipn.
Qed.

Lemma nonempty_32 (b : bytes) : length b = 32%nat -> b <> [].
Proof. intros H ->. discriminate H. Qed.

Section CodecOutcomes.
Context {E : Engine}.

Lemma splitSignature_decimal (b : bytes) (rid : number) (signature : value) :
  length b = 64%nat ->
  signature = VBuffer b \/ signature = VUint8Array b ->
  Utils.splitSignature {| Utils.signature := signature; Utils.recoveryId := rid |}
    Utils.OutputNumber
  = Ok (signature_of b rid).
Proof.
  intros Hlen Hsig. rewrite (splitSignature_number b rid signature Hlen Hsig).
  destruct (halves_64 b Hlen) as (Hr & Hs & -> & _).
  rewrite !toBigIntStr_value by (apply nonempty_32; assumption).
  reflexivity.
Qed.

Lemma splitSignature_hex (b : bytes) (rid : number) (signature : value) :
  length b = 64%nat ->
  signature = VBuffer b \/ signature = VUint8Array b ->
  Utils.splitSignature {| Utils.signature := signature; Utils.recoveryId := rid |}
    Utils.OutputHex
  = Ok (Utils.Signature_object (Number_toString rid)
          (Buffer_toString_hex (firstn 32 b)) (Buffer_toString_hex (skipn 32 b))).
Proof.
  intros Hlen Hsig. destruct (halves_64 b Hlen) as (_ & _ & Hss & _).
  destruct Hsig as [-> | ->]; unfold Utils.splitSignature; cbn [Utils.signature];
    rewrite Hlen, Hss; reflexivity.
Qed.

(** X9. With the default output format, [splitSignature] of 64 bytes
    returns the recovery id as the engine prints it and, for [r] and [s],
    the decimal numerals of the big-endian values of the first and of the
    last 32 bytes, which [BigInt] reads back as these values. *)
Theorem splitSignature_number_fields
    (b : bytes) (recoveryId : number) (signature : value) :
  length b = 64%nat ->
  signature = VBuffer b \/ signature = VUint8Array b ->
  exists r s,
    Utils.splitSignature
      {| Utils.signature := signature; Utils.recoveryId := recoveryId |}
      Utils.OutputNumber
    = Ok (Utils.Signature_object (Number_toString recoveryId) r s)
    /\ r = decimal (Z.to_N (be_value (firstn 32 b)))
    /\ s = decimal (Z.to_N (be_value (skipn 32 b)))
    /\ BigInt r = Ok (be_value (firstn 32 b))
    /\ BigInt s = Ok (be_value (skipn 32 b)).
Proof.
  intros Hlen Hsig. do 2 eexists.
  split; [exact (splitSignature_decimal b recoveryId signature Hlen Hsig)|].
  split; [reflexivity|]. split; [reflexivity|].
  unfold BigInt, decimal. rewrite !StringToBigInt_decimal.
  pose proof (be_value_range (firstn 32 b)).
  pose proof (be_value_range (skipn 32 b)).
  rewrite !Z2N.id by lia. split; reflexivity.
Qed.

(** X10. With the output format "hex", [r] and [s] are the 64
    hexadecimal characters of the first and of the last 32 bytes; decoded
    as hex they give the signature back. *)
Theorem splitSignature_hex_fields
    (b : bytes) (recoveryId : number) (signature : value) :
  length b = 64%nat ->
  signature = VBuffer b \/ signature = VUint8Array b ->
  exists r s,
    Utils.splitSignature
      {| Utils.signature := signature; Utils.recoveryId := recoveryId |}
      Utils.OutputHex
    = Ok (Utils.Signature_object (Number_toString recoveryId) r s)
    /\ r = Buffer_toString_hex (firstn 32 b)
    /\ s = Buffer_toString_hex (skipn 32 b)
    /\ length r = 64%nat /\ length s = 64%nat
    /\ Buffer_from_hex r ++ Buffer_from_hex s = b.
Proof.
  intros Hlen Hsig.
  destruct (halves_64 b Hlen) as (Hr & Hs & Hss & Hb).
  do 2 eexists.
  split; [exact (splitSignature_hex b recoveryId signature Hlen Hsig)|].
  split; [reflexivity|]. split; [reflexivity|].
  rewrite !Buffer_toString_hex_length, Hr, Hs, !Buffer_from_hex_toString_hex.
  repeat split. assumption.
Qed.

(** X11. [splitSignature] raises its own two errors and nothing else, in
    either output format: 'Invalid signature type' exactly for a signature
    that is no [Uint8Array] (a [Buffer] is one), 'Invalid signature
    length' exactly for one that has not 64 bytes; it returns exactly for
    the 64-byte ones: the conversion of the two halves never fails. *)
Theorem splitSignature_refuses
    (sig : Utils.RecoverableSignature) (outputFormat : Utils.OutputFormat) :
  (Utils.splitSignature sig outputFormat = Throw (Exn Error (str "Invalid signature type"))
   <-> forall b, Utils.signature sig <> VBuffer b /\ Utils.signature sig <> VUint8Array b)
  /\ (Utils.splitSignature sig outputFormat
      = Throw (Exn Error (str "Invalid signature length"))
      <-> exists b, (Utils.signature sig = VBuffer b \/ Utils.signature sig = VUint8Array b)
                    /\ length b <> 64%nat)
  /\ ((exists signature, Utils.splitSignature sig outputFormat = Ok signature)
      <-> exists b, (Utils.signature sig = VBuffer b \/ Utils.signature sig = VUint8Array b)
                    /\ length b = 64%nat)
  /\ (forall e,
        Utils.splitSignature sig outputFormat = Throw e ->
        e = Exn Error (str "Invalid signature type")
        \/ e = Exn Error (str "Invalid signature length")).
Proof.
  destruct sig as [signature rid]. cbn [Utils.signature].
  set (run := Utils.splitSignature
                {| Utils.signature := signature; Utils.recoveryId := rid |}
                outputFormat).
  assert (Hcases :
            ((forall b, signature <> VBuffer b /\ signature <> VUint8Array b)
             /\ run = Throw (Exn Error (str "Invalid signature type")))
            \/ (exists b, (signature = VBuffer b \/ signature = VUint8Array b)
                          /\ length b <> 64%nat
                          /\ run = Throw (Exn Error (str "Invalid signature length")))
            \/ (exists b x, (signature = VBuffer b \/ signature = VUint8Array b)
                            /\ length b = 64%nat /\ run = Ok x)).
  { assert (Hbytes : forall b,
               signature = VBuffer b \/ signature = VUint8Array b ->
               (length b <> 64%nat
                /\ run = Throw (Exn Error (str "Invalid signature length")))
               \/ (exists x, length b = 64%nat /\ run = Ok x)).
    { intros b Hsig. destruct (Nat.eq_dec (length b) 64) as [Hlen|Hlen].
      - right. unfold run. destruct outputFormat.
        + rewrite (splitSignature_decimal b rid signature Hlen Hsig).
          eexists. split; [assumption|reflexivity].
        + rewrite (splitSignature_hex b rid signature Hlen Hsig).
          eexists. split; [assumption|reflexivity].
      - left. split; [assumption|].
        apply Nat.eqb_neq in Hlen. unfold run.
        destruct Hsig as [-> | ->]; unfold Utils.splitSignature;
          cbn [Utils.signature]; rewrite Hlen; reflexivity. }
    destruct signature as [| |x|x|x|b|b|x|x];
      try (left; split; [intros b; split; discriminate|reflexivity]).
    - right. destruct (Hbytes b (or_introl eq_refl)) as [[Hlen H]|(x & Hlen & H)].
      + left. exists b. repeat split; [left; reflexivity|assumption|assumption].
      + right. exists b, x. repeat split; [left; reflexivity|assumption|assumption].
    - right. destruct (Hbytes b (or_intror eq_refl)) as [[Hlen H]|(x & Hlen & H)].
      + left. exists b. repeat split; [right; reflexivity|assumption|assumption].
      + right. exists b, x. repeat split; [right; reflexivity|assumption|assumption]. }
  assert (Hone : forall b b',
             signature = VBuffer b \/ signature = VUint8Array b ->
             signature = VBuffer b' \/ signature = VUint8Array b' -> b = b').
  { intros b b' [-> | ->] [H | H]; try discriminate H; injection H as <-; reflexivity. }
  destruct Hcases as [[Hno Hrun] | [(b & Hsig & Hlen & Hrun) | (b & x & Hsig & Hlen & Hrun)]];
    rewrite Hrun; (split; [|split; [|split]]).
  - split; [intros _; exact Hno|reflexivity].
  - split.
    + intros H. vm_compute in H. discriminate H.
    + intros (b & [Hb | Hb] & _); [exact (False_ind _ (proj1 (Hno b) Hb))
                                  |exact (False_ind _ (proj2 (Hno b) Hb))].
  - split.
    + intros (x & H). discriminate H.
    + intros (b & [Hb | Hb] & _); [exact (False_ind _ (proj1 (Hno b) Hb))
                                  |exact (False_ind _ (proj2 (Hno b) Hb))].
  - intros e H. injection H as <-. left. reflexivity.
  - split.
    + intros H. vm_compute in H. discriminate H.
    + intros Hno. exfalso. destruct Hsig as [Hb | Hb];
        [exact (proj1 (Hno b) Hb)|exact (proj2 (Hno b) Hb)].
  - split; [intros _; exists b; split; assumption|reflexivity].
  - split.
    + intros (x & H). discriminate H.
    + intros (b' & Hsig' & Hlen'). exfalso.
      rewrite <- (Hone b b' Hsig Hsig') in Hlen'. contradiction.
  - intros e H. injection H as <-. right. reflexivity.
  - split.
    + intros H. discriminate H.
    + intros Hno. exfalso. destruct Hsig as [Hb | Hb];
        [exact (proj1 (Hno b) Hb)|exact (proj2 (Hno b) Hb)].
  - split.
    + intros H. discriminate H.
    + intros (b' & Hsig' & Hlen'). exfalso.
      rewrite <- (Hone b b' Hsig Hsig') in Hlen'. contradiction.
  - split; [intros _; exists b; split; assumption|intros _; exists x; reflexivity].
  - intros e H. discriminate H.
Qed.

Lemma joinSignature_decimal (props : list (jstring * value)) (r s : N) (v : jstring) :
  lookup (str "r") props = Some (VString (decimal r)) ->
  lookup (str "s") props = Some (VString (decimal s)) ->
  lookup (str "v") props = Some (VString v) ->
  Z.of_N r < 2 ^ 256 -> Z.of_N s < 2 ^ 256 ->
  Utils.joinSignature (VObject props)
  = Ok (be_bytes 32 (Z.of_N r) ++ be_bytes 32 (Z.of_N s), StringToNumber v).
Proof.
  intros Hr Hs Hv Hrlt Hslt.
  unfold Utils.joinSignature. cbn [Get bind]. rewrite Hr, Hs, Hv.
  unfold decimal. rewrite !fromBigIntStr_decimal. cbn [bind].
  change SBuffer.default_length with (2 * 32)%nat.
  rewrite !fromBigInt_be_bytes; try lia; reflexivity.
Qed.

(** X12. [joinSignature] lays a signature with decimal numerals below
    [2^256] out on 64 bytes: the 32 bytes of [r], then the 32 bytes of
    [s], each most significant byte first. The recovery id is [Number(v)],
    whatever the string [v] is, and other properties of the object are
    ignored. *)
Theorem joinSignature_layout
    (props : list (jstring * value)) (r s : N) (v : jstring) :
  lookup (str "r") props = Some (VString (decimal r)) ->
  lookup (str "s") props = Some (VString (decimal s)) ->
  lookup (str "v") props = Some (VString v) ->
  Z.of_N r < 2 ^ 256 -> Z.of_N s < 2 ^ 256 ->
  exists raw,
    Utils.joinSignature (VObject props) = Ok (raw, StringToNumber v)
    /\ length raw = 64%nat
    /\ firstn 32 raw = be_bytes 32 (Z.of_N r)
    /\ skipn 32 raw = be_bytes 32 (Z.of_N s)
    /\ be_value (firstn 32 raw) = Z.of_N r
    /\ be_value (skipn 32 raw) = Z.of_N s.
Proof.
  intros Hr Hs Hv Hrlt Hslt. eexists.
  split; [exact (joinSignature_decimal props r s v Hr Hs Hv Hrlt Hslt)|].
  rewrite length_app, firstn_app, skipn_app, !be_bytes_length.
  rewrite firstn_all2, skipn_all2 by (rewrite be_bytes_length; lia).
  change (32 - 32)%nat with 0%nat. cbn [firstn skipn]. rewrite app_nil_r.
  cbn [app]. rewrite !be_value_be_bytes.
  change (256 ^ Z.of_nat 32) with (2 ^ 256).
  rewrite !Z.mod_small by lia. repeat split.
Qed.

(** X13. Splitting undoes joining on a signature object with decimal
    numerals below [2^256] written without leading zeros; the recovery
    id comes back as the engine prints the number that it reads in [v]. *)
Theorem splitSignature_joinSignature (v : jstring) (r s : N) :
  Z.of_N r < 2 ^ 256 -> Z.of_N s < 2 ^ 256 ->
  (joined <- Utils.joinSignature (Utils.Signature_object v (decimal r) (decimal s)) ;;
   Utils.splitSignature
     {| Utils.signature := VBuffer (fst joined); Utils.recoveryId := snd joined |}
     Utils.OutputNumber)
  = Ok (Utils.Signature_object (Number_toString (StringToNumber v))
          (decimal r) (decimal s)).
Proof.
  intros Hr Hs.
  change (Utils.Signature_object v (decimal r) (decimal s))
    with (VObject [(str "v", VString v); (str "r", VString (decimal r));
                   (str "s", VString (decimal s))]) at 1.
  rewrite (joinSignature_decimal
             [(str "v", VString v); (str "r", VString (decimal r));
              (str "s", VString (decimal s))] r s v eq_refl eq_refl eq_refl Hr Hs).
  cbn [bind fst snd].
  rewrite (splitSignature_decimal
             (be_bytes 32 (Z.of_N r) ++ be_bytes 32 (Z.of_N s))).
  - unfold signature_of.
    rewrite firstn_app, skipn_app, !be_bytes_length.
    rewrite firstn_all2, skipn_all2 by (rewrite be_bytes_length; lia).
    change (32 - 32)%nat with 0%nat. cbn [firstn skipn]. rewrite app_nil_r.
    cbn [app]. rewrite !be_value_be_bytes.
    change (256 ^ Z.of_nat 32) with (2 ^ 256).
    rewrite !Z.mod_small, !N2Z.id by lia. reflexivity.
  - rewrite length_app, !be_bytes_length. reflexivity.
  - left. reflexivity.
Qed.

(** X14. What [joinSignature] raises: 'Invalid signature type' for a
    value that is no object, 'Invalid signature format' for an object in
    which [r], [s] and [v] are not three strings (as for every array and
    every buffer), and the SyntaxError of [BigInt] for an [r] or an [s]
    that is no numeral. The number read in [v] is never checked. *)
Theorem joinSignature_refuses (sig : value) (e : exn) :
  Utils.joinSignature sig = Throw e ->
  (e = Exn Error (str "Invalid signature type")
   /\ match sig with
      | VObject _ | VArray _ | VBuffer _ | VUint8Array _ => False
      | _ => True
      end)
  \/ (e = Exn Error (str "Invalid signature format")
      /\ ~ exists r s v,
             Get sig (str "r") = Ok (VString r) /\ Get sig (str "s") = Ok (VString s)
             /\ Get sig (str "v") = Ok (VString v))
  \/ (exists t,
        e = Exn SyntaxError (str "Cannot convert " ++ t ++ str " to a BigInt")
        /\ StringToBigInt t = None
        /\ (Get sig (str "r") = Ok (VString t) \/ Get sig (str "s") = Ok (VString t))).
Proof.
  intros H.
  destruct sig as [| |x|x|x|b|b|l|props];
    try (left; split; [cbn in H; injection H as <-; reflexivity|exact I]);
    try (right; left; split;
         [cbn in H; injection H as <-; reflexivity
         |intros (r' & s' & v' & Hr' & _); discriminate Hr']).
  assert (HGet : forall k,
             Get (VObject props) k
             = Ok (match lookup k props with Some x => x | None => VUndefined end))
    by reflexivity.
  unfold Utils.joinSignature in H. cbn [Get bind] in H. right.
  destruct (lookup (str "r") props) as [[| |?|?|r|?|?|?|?]|] eqn:Er;
    cbv beta iota in H;
    try (left; split; [injection H as <-; reflexivity
                      |intros (r' & s' & v' & Hr' & _);
                       rewrite HGet, Er in Hr'; discriminate Hr']).
  destruct (lookup (str "s") props) as [[| |?|?|s|?|?|?|?]|] eqn:Es;
    cbv beta iota in H;
    try (left; split; [injection H as <-; reflexivity
                      |intros (r' & s' & v' & _ & Hs' & _);
                       rewrite HGet, Es in Hs'; discriminate Hs']).
  destruct (lookup (str "v") props) as [[| |?|?|v|?|?|?|?]|] eqn:Ev;
    cbv beta iota in H;
    try (left; split; [injection H as <-; reflexivity
                      |intros (r' & s' & v' & _ & _ & Hv');
                       rewrite HGet, Ev in Hv'; discriminate Hv']).
  right. unfold SBuffer.fromBigIntStr, BigInt in H.
  destruct (StringToBigInt r) as [zr|] eqn:Ezr; cbn [bind] in H.
  - destruct (StringToBigInt s) as [zs|] eqn:Ezs; cbn [bind] in H; [discriminate H|].
    injection H as <-. exists s. split; [reflexivity|]. split; [assumption|].
    right. rewrite HGet, Es. reflexivity.
  - injection H as <-. exists r. split; [reflexivity|]. split; [assumption|].
    left. rewrite HGet, Er. reflexivity.
Qed.

End CodecOutcomes.

(** ** [getKeypairBuff]: what is accepted as a key *)

(** X15. [getKeypairBuff] checks the keys for their lengths and for
    nothing else. For keys given as buffers or as their lower-case hex
    text, it returns the bytes of the two keys when the private key has 32
    of them and the public key 33, whatever these bytes are: they are not
    checked against the curve nor against each other. For any other
    lengths it fails with 'Invalid key length'. *)
Theorem getKeypairBuff_checks_lengths
    (d q : bytes) (privKey pubKey : jstring + bytes) :
  privKey = inr d \/ privKey = inl (Buffer_toString_hex d) ->
  pubKey = inr q \/ pubKey = inl (Buffer_toString_hex q) ->
  (length d = 32%nat /\ length q = 33%nat ->
   Utils.getKeypairBuff privKey pubKey
   = Ok {| Utils.privKeyBuffer := d; Utils.pubKeyBuffer := q |})
  /\ (length d <> 32%nat \/ length q <> 33%nat ->
      Utils.getKeypairBuff privKey pubKey
      = Throw (Exn Error (str "Invalid key length"))).
Proof.
  intros Hpriv Hpub.
  assert (Hrun : Utils.getKeypairBuff privKey pubKey
                 = if (negb (length d =? 32) || negb (length q =? 33))%nat
                   then Throw (Exn Error (str "Invalid key length"))
                   else Ok {| Utils.privKeyBuffer := d; Utils.pubKeyBuffer := q |}).
  { destruct Hpriv as [-> | ->], Hpub as [-> | ->]; unfold Utils.getKeypairBuff;
      rewrite ?Buffer_from_hex_toString_hex; reflexivity. }
  rewrite Hrun. split.
  - intros [-> ->]. reflexivity.
  - intros [Hd | Hq].
    + apply Nat.eqb_neq in Hd. rewrite Hd. reflexivity.
    + apply Nat.eqb_neq in Hq. rewrite Hq, orb_true_r. reflexivity.
Qed.

Lemma getKeypairBuff_checks_lengths_witness :
  Utils.getKeypairBuff (inr (repeat x00 32)) (inl (Buffer_toString_hex (repeat x00 33)))
  = Ok {| Utils.privKeyBuffer := repeat x00 32; Utils.pubKeyBuffer := repeat x00 33 |}
  /\ Utils.getKeypairBuff (inl (Buffer_toString_hex (Buffer_from_hex TestData.pub)))
       (inr (Buffer_from_hex TestData.pub))
     = Throw (Exn Error (str "Invalid key length")).
Proof.
  split.
  - apply (proj1 (getKeypairBuff_checks_lengths (repeat x00 32) (repeat x00 33) _ _
                    (or_introl eq_refl) (or_intror eq_refl))).
    split; reflexivity.
  - apply (proj2 (getKeypairBuff_checks_lengths (Buffer_from_hex TestData.pub)
                    (Buffer_from_hex TestData.pub) _ _
                    (or_intror eq_refl) (or_introl eq_refl))).
    left. discriminate.
Defined.

(** X16. A key string with the prefix ["0x"] is refused: the hex decoding
    stops at its first two characters, the buffer is empty, and the call
    fails with 'Invalid key length', whatever follows the prefix and
    whatever the other key is. *)
Theorem getKeypairBuff_refuses_prefix (t : jstring) (other : jstring + bytes) :
  Utils.getKeypairBuff (inl (str "0x" ++ t)) other
  = Throw (Exn Error (str "Invalid key length"))
  /\ Utils.getKeypairBuff other (inl (str "0x" ++ t))
     = Throw (Exn Error (str "Invalid key length")).
Proof.
  split.
  - reflexivity.
  - unfold Utils.getKeypairBuff.
    change (Buffer_from_hex (str "0x" ++ t)) with (@nil byte).
    rewrite orb_true_r. reflexivity.
Qed.

(** ** [sign] and [verify] with the library *)

Section SignVerify.
Context {E : Engine} {C : Ecc}.

Lemma splitSignature_Ok_length (b : bytes) (rid : number) (fmt : Utils.OutputFormat)
    (sig : value) :
  Utils.splitSignature
    {| Utils.signature := VUint8Array b; Utils.recoveryId := rid |} fmt = Ok sig ->
  length b = 64%nat.
Proof.
  unfold Utils.splitSignature. cbn [Utils.signature].
  destruct (length b =? 64)%nat eqn:Hlen; cbn [negb]; [|discriminate].
  intros _. apply Nat.eqb_eq. assumption.
Qed.

Lemma verify_library_verdict (hash pubKeyBuffer : bytes) (signature protocol : value)
    (raw : bytes) (rid : number) :
  Utils.joinSignature signature = Ok (raw, rid) ->
  Utils.verify hash pubKeyBuffer signature protocol
  = library_verdict hash pubKeyBuffer raw rid protocol.
Proof. apply verify_joined. Qed.

Lemma joinSignature_signature_of (raw : bytes) (rid : number) :
  length raw = 64%nat ->
  Utils.joinSignature (signature_of raw rid)
  = Ok (raw, StringToNumber (Number_toString rid)).
Proof.
  intros Hlen.
  pose proof (joinSignature_splitSignature_engine raw rid (VUint8Array raw) Hlen
                (or_intror eq_refl)) as H.
  rewrite (splitSignature_decimal raw rid (VUint8Array raw) Hlen
             (or_intror eq_refl)) in H.
  exact H.
Qed.

(** What [sign] does with two strings and a key buffer, by the outcome of
    the signer. *)
Lemma sign_run (m : jstring) (k : bytes) (s : jstring) :
  Utils.sign (VString m) (VBuffer k) (VString s)
  = match ecc_signRecoverable (bcSha256 (utf8 (m ++ s))) k with
    | Throw e => Throw (failed_to_sign e)
    | Ok rs =>
        if (length (fst rs) =? 64)%nat
        then Ok (signature_of (fst rs) (snd rs), bcSha256 (utf8 (m ++ s)))
        else Throw (failed_to_sign (Exn Error (str "Invalid signature length")))
    end.
Proof.
  rewrite sign_validated. unfold sign_body.
  destruct (ecc_signRecoverable _ k) as [[raw rid]|e]; [|reflexivity].
  cbn [bind fst snd].
  destruct (length raw =? 64)%nat eqn:Hlen.
  - apply Nat.eqb_eq in Hlen.
    rewrite (splitSignature_decimal raw rid (VUint8Array raw) Hlen
               (or_intror eq_refl)).
    reflexivity.
  - unfold Utils.splitSignature. cbn [Utils.signature]. rewrite Hlen. reflexivity.
Qed.

(** X17. The signature object that [sign] returns is accepted by
    [verify], which hands the library the very 64 bytes that the signer
    has produced, and the recovery id as the engine reads it back from its
    text: the codec between the two is transparent. *)
Theorem verify_after_sign
    (message salt : jstring) (privKeyBuffer : bytes) (signature : value)
    (msgHash : bytes) :
  Utils.sign (VString message) (VBuffer privKeyBuffer) (VString salt)
  = Ok (signature, msgHash) ->
  exists raw recoveryId,
    ecc_signRecoverable msgHash privKeyBuffer = Ok (raw, recoveryId)
    /\ length raw = 64%nat
    /\ signature = signature_of raw recoveryId
    /\ Utils.joinSignature signature
       = Ok (raw, StringToNumber (Number_toString recoveryId))
    /\ forall hash pubKeyBuffer protocol,
         Utils.verify hash pubKeyBuffer signature protocol
         = library_verdict hash pubKeyBuffer raw
             (StringToNumber (Number_toString recoveryId)) protocol.
Proof.
  rewrite sign_run.
  destruct (ecc_signRecoverable _ privKeyBuffer) as [[raw rid]|e] eqn:Ers;
    [|discriminate].
  cbn [fst snd]. destruct (length raw =? 64)%nat eqn:Hlen; [|discriminate].
  apply Nat.eqb_eq in Hlen. intros H. injection H as <- <-.
  exists raw, rid. split; [assumption|]. split; [assumption|].
  split; [reflexivity|].
  pose proof (joinSignature_signature_of raw rid Hlen) as Hjoin.
  split; [assumption|].
  intros hash pubKeyBuffer protocol. apply verify_library_verdict. assumption.
Qed.

End SignVerify.

(** X18. With tiny-secp256k1, [sign] fails with 'Failed to sign the
    message: TypeError: Expected Private' for every key buffer that is no
    private key of the curve: one that has not 32 bytes, the zero key, a
    key that is not below the group order. The hash is never what the
    library refuses. *)
Theorem sign_refuses_key (message salt : jstring) (privKeyBuffer : bytes) :
  isPrivate privKeyBuffer = false ->
  Utils.sign (VString message) (VBuffer privKeyBuffer) (VString salt)
  = Throw (Exn Error (str "Failed to sign the message: TypeError: Expected Private")).
Proof.
  intros Hkey. rewrite sign_run.
  change (ecc_signRecoverable ?h ?d) with (signRecoverable h d).
  unfold signRecoverable, isHash.
  rewrite bcSha256_length, Hkey. reflexivity.
Qed.

Lemma sign_refuses_key_witness :
  Utils.sign (VString (str "test_message")) (VBuffer (repeat x00 32))
    (VString (str "test_salt"))
  = Throw (Exn Error (str "Failed to sign the message: TypeError: Expected Private")).
Proof. apply sign_refuses_key. reflexivity. Defined.

(** ** [signAndVerify]: the run, step by step *)

Ltac lookups :=
  repeat (rewrite lookup_set_same || rewrite lookup_set_other by keys_differ).

Section Runs.
Context {E : Engine} {C : Ecc}.

Lemma replace_prop_twice (k : jstring) (x y : value) (props : list (jstring * value)) :
  replace_prop k y (replace_prop k x props) = replace_prop k y props.
Proof.
  induction props as [|[k' v] rest IH]; [reflexivity|].
  cbn [replace_prop]. destruct (jstring_eqb k k') eqn:Ek;
    cbn [replace_prop]; rewrite Ek; [reflexivity|].
  f_equal. exact IH.
Qed.

Lemma set_prop_twice (k : jstring) (x y : value) (props : list (jstring * value)) :
  lookup k props <> None ->
  set_prop k y (set_prop k x props) = set_prop k y props.
Proof.
  intros Hk. unfold set_prop at 1.
  rewrite lookup_set_same. unfold set_prop.
  destruct (lookup k props); [apply replace_prop_twice|contradiction].
Qed.

Lemma replace_prop_keys (k : jstring) (x : value) (props : list (jstring * value)) :
  map fst (replace_prop k x props) = map fst props.
Proof.
  induction props as [|[k' v] rest IH]; [reflexivity|].
  cbn [replace_prop]. destruct (jstring_eqb k k'); cbn [map fst]; [reflexivity|].
  f_equal. exact IH.
Qed.

Lemma read_placed_object (props : list (jstring * value)) (k : jstring) :
  Utils.read_placed (VObject props) k
  = if ToBoolean (prv_of props) then Get (prv_of props) k
    else Ok (match lookup k props with Some x => x | None => VUndefined end).
Proof. reflexivity. Qed.

Lemma write_placed_object (props : list (jstring * value)) (k : jstring) (x : value) :
  Utils.write_placed (VObject props) k x
  = if ToBoolean (prv_of props)
    then prv' <- Put (prv_of props) k x ;; Put (VObject props) (str "prv") prv'
    else Ok (VObject (set_prop k x props)).
Proof. reflexivity. Qed.

(** The two writes of [signAndVerify] on a protocol object in which the
    salt has been found. *)
Lemma writes_signed_draft (props : list (jstring * value)) (salt : jstring)
    (signature : value) (msgHash : bytes) :
  Utils.read_placed (VObject props) (str "salt") = Ok (VString salt) ->
  exists protocol1,
    Utils.write_placed (VObject props) (str "sig") signature = Ok protocol1
    /\ Utils.write_placed protocol1 (str "hash")
         (VString (Buffer_toString_hex msgHash))
       = Ok (signed_draft props signature msgHash).
Proof.
  intros Hsalt. rewrite read_placed_object in Hsalt.
  rewrite write_placed_object. unfold signed_draft.
  unfold prv_of in *.
  destruct (lookup (str "prv") props) as [prv|] eqn:Eprv.
  - destruct (ToBoolean prv) eqn:Etrue.
    + destruct (Get_string_inv _ _ _ Hsalt) as (pprops & -> & _).
      cbn [Put bind]. eexists. split; [reflexivity|].
      rewrite write_placed_object. unfold prv_of.
      rewrite lookup_set_same. cbn [ToBoolean Put bind].
      rewrite set_prop_twice by (rewrite Eprv; discriminate). reflexivity.
    + eexists. split; [reflexivity|]. rewrite write_placed_object.
      unfold prv_of. rewrite lookup_set_other, Eprv, Etrue by keys_differ.
      destruct prv; try reflexivity. discriminate Etrue.
  - cbn [ToBoolean]. eexists. split; [reflexivity|]. rewrite write_placed_object.
    unfold prv_of. rewrite lookup_set_other, Eprv by keys_differ. reflexivity.
Qed.

(** The signed draft has its signature where [signAndVerify] looks for
    it, and its other fields are those of the draft. *)
Lemma signed_draft_reads (props : list (jstring * value)) (salt : jstring)
    (signature : value) (msgHash : bytes) :
  Utils.read_placed (VObject props) (str "salt") = Ok (VString salt) ->
  spread (signed_draft props signature msgHash) = signed_draft props signature msgHash
  /\ Utils.read_placed (signed_draft props signature msgHash) (str "sig") = Ok signature
  /\ Utils.read_placed (signed_draft props signature msgHash) (str "hash")
     = Ok (VString (Buffer_toString_hex msgHash))
  /\ Utils.read_placed (signed_draft props signature msgHash) (str "salt")
     = Ok (VString salt)
  /\ forall k, k <> str "sig" -> k <> str "hash" -> k <> str "prv" ->
       Get (signed_draft props signature msgHash) k = Get (VObject props) k.
Proof.
  intros Hsalt. rewrite read_placed_object in Hsalt.
  unfold signed_draft. unfold prv_of in Hsalt.
  destruct (lookup (str "prv") props) as [prv|] eqn:Eprv.
  - destruct (ToBoolean prv) eqn:Etrue.
    + destruct (Get_string_inv _ _ _ Hsalt) as (pprops & -> & Hs).
      split; [reflexivity|].
      rewrite !read_placed_object. unfold prv_of. lookups.
      cbn [ToBoolean Get]. lookups. rewrite Hs.
      repeat split.
      intros k _ _ Hk. cbn [Get]. rewrite lookup_set_other by assumption. reflexivity.
    + assert (Hflat : forall x y,
                 match prv with
                 | VObject pprops => VObject (set_prop (str "prv") (VObject (y pprops)) props)
                 | _ => VObject x
                 end = VObject x).
      { intros x y. destruct prv; try reflexivity. discriminate Etrue. }
      rewrite Hflat. split; [reflexivity|].
      rewrite !read_placed_object. unfold prv_of. lookups.
      rewrite Eprv, Etrue. lookups.
      injection Hsalt as Hsalt. rewrite Hsalt.
      repeat split.
      intros k Hsig Hhash _. cbn [Get]. rewrite !lookup_set_other by assumption.
      reflexivity.
  - split; [reflexivity|].
    rewrite !read_placed_object. unfold prv_of. lookups.
    rewrite Eprv. cbn [ToBoolean]. lookups.
    cbn [ToBoolean] in Hsalt. injection Hsalt as Hsalt. rewrite Hsalt.
    repeat split.
    intros k Hsig Hhash _. cbn [Get]. rewrite !lookup_set_other by assumption.
    reflexivity.
Qed.

(** The signed draft is an object that has the fields of the draft, but
    for [sig], [hash] and [prv]. *)
Lemma signed_draft_object (props : list (jstring * value)) (salt : jstring)
    (signature : value) (msgHash : bytes) :
  Utils.read_placed (VObject props) (str "salt") = Ok (VString salt) ->
  exists props',
    signed_draft props signature msgHash = VObject props'
    /\ forall k, k <> str "sig" -> k <> str "hash" -> k <> str "prv" ->
         lookup k props' = lookup k props.
Proof.
  intros Hsalt. rewrite read_placed_object in Hsalt.
  unfold signed_draft. unfold prv_of in Hsalt.
  destruct (lookup (str "prv") props) as [prv|] eqn:Eprv.
  - destruct (ToBoolean prv) eqn:Etrue.
    + destruct (Get_string_inv _ _ _ Hsalt) as (pprops & -> & Hs).
      eexists. split; [reflexivity|].
      intros k _ _ Hk. apply lookup_set_other. assumption.
    + exists (set_prop (str "hash") (VString (Buffer_toString_hex msgHash))
                (set_prop (str "sig") signature props)).
      split; [destruct prv; try reflexivity; discriminate Etrue|].
      intros k Hsig Hhash _. rewrite !lookup_set_other by assumption. reflexivity.
  - eexists. split; [reflexivity|].
    intros k Hsig Hhash _. rewrite !lookup_set_other by assumption. reflexivity.
Qed.

(** The run of [signAndVerify] on a draft in which a salt is found, when
    the signer returns 64 bytes. *)
Lemma signAndVerify_run (props : list (jstring * value)) (keypair : Utils.KeypairBuffer)
    (m : jstring) (messageKey : option jstring) (salt : jstring) (raw : bytes)
    (rid : number) :
  Utils.read_placed (VObject props) (str "salt") = Ok (VString salt) ->
  ecc_signRecoverable (bcSha256 (utf8 (m ++ salt))) (Utils.privKeyBuffer keypair)
  = Ok (raw, rid) ->
  length raw = 64%nat ->
  Utils.signAndVerify (VObject props) keypair (VString m) messageKey
  = (signed_draft props (signature_of raw rid) (bcSha256 (utf8 (m ++ salt))),
     test_message <-
       Utils.test_message
         (signed_draft props (signature_of raw rid) (bcSha256 (utf8 (m ++ salt))))
         (VString m) messageKey ;;
     library_verdict (bcSha256 (utf8 (Utils.ToString test_message ++ salt)))
       (Utils.pubKeyBuffer keypair) raw (StringToNumber (Number_toString rid))
       (signed_draft props (signature_of raw rid) (bcSha256 (utf8 (m ++ salt))))).
Proof.
  intros Hsalt Hrs Hlen. unfold Utils.signAndVerify.
  rewrite Hsalt. cbn [bind]. rewrite sign_run, Hrs. cbn [fst snd].
  rewrite Hlen. cbn [Nat.eqb bind].
  destruct (writes_signed_draft props salt (signature_of raw rid)
              (bcSha256 (utf8 (m ++ salt))) Hsalt) as (protocol1 & -> & ->).
  f_equal. unfold Utils.self_check.
  destruct (signed_draft_reads props salt (signature_of raw rid)
              (bcSha256 (utf8 (m ++ salt))) Hsalt) as (-> & -> & _).
  destruct (Utils.test_message _ _ _) as [t|e]; [|reflexivity].
  cbn [bind]. apply verify_library_verdict.
  apply joinSignature_signature_of. assumption.
Qed.

End Runs.

(** ** [signAndVerify]: what is written, what is verified *)

Section SignAndVerifyOutcomes.
Context {E : Engine} {C : Ecc}.

(** X19. [signAndVerify] writes both [sig] and [hash] or neither. Either
    the salt is not found or [sign] fails, the error is raised and the
    protocol object is as it was; or the signer has returned 64 bytes, the
    protocol object is an object that now holds the signature made of
    these bytes and the hex text of the signed hash at the place where the
    salt was found, and the outcome is that of the self-verification. *)
Theorem signAndVerify_signs_or_keeps
    (protocol : value) (keypair : Utils.KeypairBuffer) (baseMessage : value)
    (messageKey : option jstring) :
  (exists e,
      Utils.signAndVerify protocol keypair baseMessage messageKey = (protocol, Throw e)
      /\ (salt <- Utils.read_placed protocol (str "salt") ;;
          Utils.sign baseMessage (VBuffer (Utils.privKeyBuffer keypair)) salt)
         = Throw e)
  \/ (exists props m salt raw recoveryId,
        protocol = VObject props /\ baseMessage = VString m
        /\ Utils.read_placed protocol (str "salt") = Ok (VString salt)
        /\ ecc_signRecoverable (bcSha256 (utf8 (m ++ salt)))
             (Utils.privKeyBuffer keypair) = Ok (raw, recoveryId)
        /\ length raw = 64%nat
        /\ let signed :=
             signed_draft props (signature_of raw recoveryId)
               (bcSha256 (utf8 (m ++ salt))) in
           Utils.signAndVerify protocol keypair baseMessage messageKey
           = (signed,
              Utils.self_check signed keypair baseMessage messageKey (VString salt))
           /\ Utils.read_placed signed (str "sig") = Ok (signature_of raw recoveryId)
           /\ Utils.read_placed signed (str "hash")
              = Ok (VString (Buffer_toString_hex (bcSha256 (utf8 (m ++ salt)))))).
Proof.
  destruct (Utils.read_placed protocol (str "salt")) as [saltv|e] eqn:Eread.
  2:{ left. exists e. unfold Utils.signAndVerify. rewrite Eread. split; reflexivity. }
  destruct (Utils.sign baseMessage (VBuffer (Utils.privKeyBuffer keypair)) saltv)
    as [[signature msgHash]|e] eqn:Esign.
  2:{ left. exists e. unfold Utils.signAndVerify. rewrite Eread. cbn [bind].
      rewrite Esign. split; reflexivity. }
  right.
  destruct (sign_Ok_inv _ _ _ _ _ Esign)
    as (m & k & salt & rs & v & r' & s' & -> & Hk & -> & _).
  injection Hk as <-.
  assert (Hobj : exists props, protocol = VObject props).
  { destruct (read_placed_string_inv _ _ _ Eread)
      as [props -> _ _|props pprops -> _ _]; exists props; reflexivity. }
  destruct Hobj as (props & ->).
  rewrite sign_run in Esign.
  destruct (ecc_signRecoverable _ _) as [[raw rid]|e] eqn:Ers; [|discriminate].
  cbn [fst snd] in Esign.
  destruct (length raw =? 64)%nat eqn:Hlen; [|discriminate].
  apply Nat.eqb_eq in Hlen. injection Esign as <- <-.
  exists props, m, salt, raw, rid.
  repeat (split; [first [reflexivity|assumption]|]).
  cbv zeta.
  destruct (signed_draft_reads props salt (signature_of raw rid)
              (bcSha256 (utf8 (m ++ salt))) Eread) as (_ & Hsig & Hhash & _).
  split; [|split; assumption].
  unfold Utils.signAndVerify. rewrite Eread. cbn [bind].
  rewrite sign_run, Ers. cbn [fst snd]. rewrite Hlen. cbn [Nat.eqb bind].
  destruct (writes_signed_draft props salt (signature_of raw rid)
              (bcSha256 (utf8 (m ++ salt))) Eread) as (protocol1 & -> & ->).
  reflexivity.
Qed.

(** X20. Without a message key (null, or the empty string, which is
    falsy as well), the self-verification of [signAndVerify] is on what
    has been signed: the library verifies the hash that the signer was
    given, against the very bytes the signer returned, and [result] is the
    JSON text of the signed draft. *)
Theorem signAndVerify_unkeyed_checks_signed_hash
    (props : list (jstring * value)) (keypair : Utils.KeypairBuffer)
    (m : jstring) (messageKey : option jstring) (salt : jstring) (raw : bytes)
    (recoveryId : number) :
  Utils.read_placed (VObject props) (str "salt") = Ok (VString salt) ->
  ecc_signRecoverable (bcSha256 (utf8 (m ++ salt))) (Utils.privKeyBuffer keypair)
  = Ok (raw, recoveryId) ->
  length raw = 64%nat ->
  messageKey = None \/ messageKey = Some [] ->
  let msgHash := bcSha256 (utf8 (m ++ salt)) in
  let signed := signed_draft props (signature_of raw recoveryId) msgHash in
  Utils.signAndVerify (VObject props) keypair (VString m) messageKey
  = (signed,
     library_verdict msgHash (Utils.pubKeyBuffer keypair) raw
       (StringToNumber (Number_toString recoveryId)) signed).
Proof.
  intros Hsalt Hrs Hlen Hkey. cbv zeta.
  rewrite (signAndVerify_run props keypair m messageKey salt raw recoveryId)
    by assumption.
  destruct Hkey as [-> | ->]; reflexivity.
Qed.

(** X21. With a message key that names a field of the draft, the
    self-verification is on the hash of the JSON text of that field
    followed by the salt (of ['undefined'] and the salt for a field that
    has no JSON text), whatever the base message that was signed; the
    signature is the one made for the base message. This is stated for
    the keys other than [sig], [hash] and [prv]. *)
Theorem signAndVerify_keyed_checks_field
    (props : list (jstring * value)) (keypair : Utils.KeypairBuffer)
    (m key : jstring) (field : value) (salt : jstring) (raw : bytes)
    (recoveryId : number) :
  Utils.read_placed (VObject props) (str "salt") = Ok (VString salt) ->
  ecc_signRecoverable (bcSha256 (utf8 (m ++ salt))) (Utils.privKeyBuffer keypair)
  = Ok (raw, recoveryId) ->
  length raw = 64%nat ->
  lookup key props = Some field ->
  key <> [] -> key <> str "sig" -> key <> str "hash" -> key <> str "prv" ->
  let text := match JSON_stringify field with
              | Some s => s
              | None => str "undefined"
              end in
  let signed :=
    signed_draft props (signature_of raw recoveryId) (bcSha256 (utf8 (m ++ salt))) in
  Utils.signAndVerify (VObject props) keypair (VString m) (Some key)
  = (signed,
     library_verdict (bcSha256 (utf8 (text ++ salt))) (Utils.pubKeyBuffer keypair) raw
       (StringToNumber (Number_toString recoveryId)) signed).
Proof.
  intros Hsalt Hrs Hlen Hfield Hkey Hsig Hhash Hprv. cbv zeta.
  rewrite (signAndVerify_run props keypair m (Some key) salt raw recoveryId)
    by assumption.
  f_equal. destruct key as [|c key]; [contradiction|].
  unfold Utils.test_message.
  destruct (signed_draft_object props salt (signature_of raw recoveryId)
              (bcSha256 (utf8 (m ++ salt))) Hsalt) as (props' & -> & Hsame).
  cbn [JSON_stringify_member bind].
  rewrite (Hsame (c :: key)), Hfield by assumption.
  destruct (JSON_stringify field); reflexivity.
Qed.

(** X22. For a nested draft, one whose [prv] is an object,
    [signAndVerify] changes nothing but the [sig] and the [hash] of that
    object, whether it returns or raises: the protocol object keeps its
    properties in their order, each with its value but [prv], and gets no
    [sig] or [hash] of its own. *)
Theorem signAndVerify_nested_frame
    (props pprops : list (jstring * value)) (keypair : Utils.KeypairBuffer)
    (baseMessage : value) (messageKey : option jstring) :
  lookup (str "prv") props = Some (VObject pprops) ->
  exists props' pprops',
    fst (Utils.signAndVerify (VObject props) keypair baseMessage messageKey)
    = VObject props'
    /\ lookup (str "prv") props' = Some (VObject pprops')
    /\ (forall k, k <> str "prv" -> lookup k props' = lookup k props)
    /\ map fst props' = map fst props
    /\ (forall k, k <> str "sig" -> k <> str "hash" ->
                  lookup k pprops' = lookup k pprops)
    /\ (forall r,
          snd (Utils.signAndVerify (VObject props) keypair baseMessage messageKey)
          = Ok r ->
          Utils.result r = JSON_stringify (VObject props')
          /\ exists signature msgHash,
               lookup (str "sig") pprops' = Some signature
               /\ lookup (str "hash") pprops'
                  = Some (VString (Buffer_toString_hex msgHash))
               /\ Utils.sign baseMessage (VBuffer (Utils.privKeyBuffer keypair))
                    (match lookup (str "salt") pprops with
                     | Some x => x
                     | None => VUndefined
                     end)
                  = Ok (signature, msgHash)).
Proof.
  intros Hprv.
  assert (Hread : Utils.read_placed (VObject props) (str "salt")
                  = Ok (match lookup (str "salt") pprops with
                        | Some x => x
                        | None => VUndefined
                        end)).
  { rewrite read_placed_object. unfold prv_of. rewrite Hprv. reflexivity. }
  unfold Utils.signAndVerify. rewrite Hread. cbn [bind].
  destruct (Utils.sign baseMessage _ _) as [[signature msgHash]|e] eqn:Esign;
    cbn [bind].
  2:{ exists props, pprops. cbn [fst snd].
      repeat (split; [reflexivity || assumption|]). discriminate. }
  destruct (sign_Ok_inv _ _ _ _ _ Esign)
    as (m & k & salt & rs & v & r' & s' & _ & _ & Hsalt & _).
  rewrite Hsalt in Hread.
  destruct (writes_signed_draft props salt signature msgHash Hread)
    as (protocol1 & -> & ->).
  clear Hread. unfold signed_draft. rewrite Hprv. cbn [fst snd].
  eexists. eexists. split; [reflexivity|].
  split; [apply lookup_set_same|].
  split; [intros k0 Hk; apply lookup_set_other; assumption|].
  split.
  { unfold set_prop. rewrite Hprv. apply replace_prop_keys. }
  split; [intros k0 Hsig Hhash; rewrite !lookup_set_other by assumption; reflexivity|].
  intros r Hcheck. split.
  - unfold Utils.self_check in Hcheck.
    destruct (Utils.test_message _ _ _) as [message|]; [|discriminate].
    cbn [bind] in Hcheck.
    destruct (Utils.read_placed _ _) as [test_sig|]; [|discriminate].
    cbn [bind] in Hcheck.
    destruct (verify_Ok_inv _ _ _ _ _ Hcheck) as (_ & _ & _ & _ & _ & _ & _ & _ & Hres).
    exact Hres.
  - exists signature, msgHash. split; [|split; [|reflexivity]].
    + rewrite lookup_set_other by keys_differ. apply lookup_set_same.
    + apply lookup_set_same.
Qed.

(** X23. [signAndVerify] signs only with a salt that is a string. When
    what is found at the place of the salt is anything else, as when the
    draft has no salt, the call fails with 'Invalid input types' and the
    draft is as it was. This is the case of every draft whose [prv] is
    truthy without being an object (a non-empty string, a number, an
    array): the salt is looked for on that value, where there is none. *)
Theorem signAndVerify_refuses_salt
    (props : list (jstring * value)) (keypair : Utils.KeypairBuffer)
    (baseMessage : value) (messageKey : option jstring) :
  (forall found,
      Utils.read_placed (VObject props) (str "salt") = Ok found ->
      (forall s, found <> VString s) ->
      Utils.signAndVerify (VObject props) keypair baseMessage messageKey
      = (VObject props, Throw invalid_input_types))
  /\ (ToBoolean (prv_of props) = true ->
      (forall pprops, prv_of props <> VObject pprops) ->
      Utils.read_placed (VObject props) (str "salt") = Ok VUndefined
      /\ Utils.signAndVerify (VObject props) keypair baseMessage messageKey
         = (VObject props, Throw invalid_input_types)).
Proof.
  assert (HA : forall found,
             Utils.read_placed (VObject props) (str "salt") = Ok found ->
             (forall s, found <> VString s) ->
             Utils.signAndVerify (VObject props) keypair baseMessage messageKey
             = (VObject props, Throw invalid_input_types)).
  { intros found Hread Hfound. unfold Utils.signAndVerify. rewrite Hread.
    cbn [bind]. rewrite sign_not_validated by (right; right; exact Hfound).
    reflexivity. }
  split; [exact HA|].
  intros Htrue Hobj.
  assert (Hread : Utils.read_placed (VObject props) (str "salt") = Ok VUndefined).
  { rewrite read_placed_object, Htrue.
    destruct (prv_of props) as [| |b|n|s|b|b|l|pprops] eqn:Eprv;
      try reflexivity; try discriminate Htrue.
    exfalso. exact (Hobj pprops eq_refl). }
  split; [exact Hread|]. apply (HA VUndefined Hread). discriminate.
Qed.

End SignAndVerifyOutcomes.

(** ** The builders: what is signed, what is verified, what is returned *)

Section BuilderOutcomes.
Context {E : Engine} {C : Ecc}.

Lemma signAndVerify_signer_throws (props : list (jstring * value))
    (keypair : Utils.KeypairBuffer) (m : jstring) (messageKey : option jstring)
    (salt : jstring) (e : exn) :
  Utils.read_placed (VObject props) (str "salt") = Ok (VString salt) ->
  ecc_signRecoverable (bcSha256 (utf8 (m ++ salt))) (Utils.privKeyBuffer keypair)
  = Throw e ->
  Utils.signAndVerify (VObject props) keypair (VString m) messageKey
  = (VObject props, Throw (failed_to_sign e)).
Proof.
  intros Hsalt Hrs. unfold Utils.signAndVerify. rewrite Hsalt. cbn [bind].
  rewrite sign_run, Hrs. reflexivity.
Qed.

Lemma insert_prop_append (k : jstring) (x : value) (props : list (jstring * value)) :
  array_index k = None -> insert_prop k x props = props ++ [(k, x)].
Proof.
  intros Hk. induction props as [|[k' v] rest IH]; [reflexivity|].
  cbn [insert_prop app]. rewrite Hk, IH. reflexivity.
Qed.

(** X24. [signDmtMint] signs the text [tap-dmt-mint-tick-blk-dep-address-]
    followed by the salt, with the lower-cased ticker, and verifies the
    signature against the same hash. When the signer throws, the call
    fails with 'Failed to sign the message: ...' and the draft keeps its
    null [sig] and [hash]; when it returns 64 bytes, the draft holds the
    signature and the hex text of the hash under [prv], among the fields
    in the order given below, and [result] is its JSON text. *)
Theorem signDmtMint_signs_text
    (privKey pubKey : jstring + bytes) (ticker : jstring) (block : number)
    (dependency address : jstring) (salt : Tap.salt_arg) (random : number)
    (keypair : Utils.KeypairBuffer) :
  Utils.getKeypairBuff privKey pubKey = Ok keypair ->
  let tick := String_toLowerCase ticker in
  let salt' := Tap.salt_text salt random in
  let text := str "tap-dmt-mint-" ++ tick ++ str "-" ++ Number_toString block
                ++ str "-" ++ dependency ++ str "-" ++ address ++ str "-" in
  let msgHash := bcSha256 (utf8 (text ++ salt')) in
  let draft sig hash :=
    VObject
      [(str "p", VString (str "tap"));
       (str "op", VString (str "dmt-mint"));
       (str "tick", VString tick);
       (str "blk", VNumber block);
       (str "dep", VString dependency);
       (str "prv",
        VObject
          [(str "sig", sig);
           (str "hash", hash);
           (str "address", VString address);
           (str "salt", VString salt')])] in
  (forall e,
      ecc_signRecoverable msgHash (Utils.privKeyBuffer keypair) = Throw e ->
      Tap.signDmtMint privKey pubKey ticker block dependency address salt random
      = (Some (draft VNull VNull), Throw (failed_to_sign e)))
  /\ (forall raw recoveryId,
        ecc_signRecoverable msgHash (Utils.privKeyBuffer keypair)
        = Ok (raw, recoveryId) ->
        length raw = 64%nat ->
        let signed :=
          draft (signature_of raw recoveryId)
            (VString (Buffer_toString_hex msgHash)) in
        Tap.signDmtMint privKey pubKey ticker block dependency address salt random
        = (Some signed,
           library_verdict msgHash (Utils.pubKeyBuffer keypair) raw
             (StringToNumber (Number_toString recoveryId)) signed)).
Proof.
  intros Hkeys. unfold Tap.signDmtMint, Tap.with_keypair.
  rewrite Hkeys. cbv zeta. unfold object_literal. split.
  - intros e He.
    erewrite signAndVerify_signer_throws; [|reflexivity|exact He]. reflexivity.
  - intros raw rid Hrs Hlen.
    erewrite signAndVerify_run; [|reflexivity|exact Hrs|exact Hlen].
    reflexivity.
Qed.

(** X25. [signMint] verifies what it signs: the hash of the text
    [tap-token-mint-tick-amt-address-] followed by the salt is given to
    the signer and, with the signer's bytes, to the verifier. The draft,
    signed, holds the signature and the hex text of the hash under [prv],
    among the fields in the order given below, and [result] is its JSON
    text. *)
Theorem signMint_verifies_signed_text
    (privKey pubKey : jstring + bytes) (ticker : jstring) (amount : number)
    (address : jstring) (salt : Tap.salt_arg) (random : number)
    (keypair : Utils.KeypairBuffer) :
  Utils.getKeypairBuff privKey pubKey = Ok keypair ->
  let tick := String_toLowerCase ticker in
  let salt' := Tap.salt_text salt random in
  let text := str "tap-token-mint-" ++ tick ++ str "-" ++ Number_toString amount
                ++ str "-" ++ address ++ str "-" in
  let msgHash := bcSha256 (utf8 (text ++ salt')) in
  let draft sig hash :=
    VObject
      [(str "p", VString (str "tap"));
       (str "op", VString (str "token-mint"));
       (str "tick", VString tick);
       (str "amt", VNumber amount);
       (str "prv",
        VObject
          [(str "sig", sig);
           (str "hash", hash);
           (str "address", VString address);
           (str "salt", VString salt')])] in
  forall raw recoveryId,
    ecc_signRecoverable msgHash (Utils.privKeyBuffer keypair) = Ok (raw, recoveryId) ->
    length raw = 64%nat ->
    let signed :=
      draft (signature_of raw recoveryId) (VString (Buffer_toString_hex msgHash)) in
    Tap.signMint privKey pubKey ticker amount address salt random
    = (Some signed,
       library_verdict msgHash (Utils.pubKeyBuffer keypair) raw
         (StringToNumber (Number_toString recoveryId)) signed).
Proof.
  intros Hkeys. unfold Tap.signMint, Tap.with_keypair.
  rewrite Hkeys. cbv zeta. unfold object_literal.
  intros raw rid Hrs Hlen.
  erewrite signAndVerify_run; [|reflexivity|exact Hrs|exact Hlen].
  reflexivity.
Qed.

(** X26. [signVerification] with the empty string as privilege authority
    id, the one case in which it signs. The text that is signed and
    verified is [-col-verify-seq-address-] followed by the salt; the
    signature and the hash are written on the protocol object itself. *)
Theorem signVerification_empty_authority
    (privKey pubKey : jstring + bytes) (sha256_hash collection : jstring)
    (sequence : number) (address : jstring) (salt : Tap.salt_arg) (random : number)
    (keypair : Utils.KeypairBuffer) :
  Utils.getKeypairBuff privKey pubKey = Ok keypair ->
  let salt' := Tap.salt_text salt random in
  let text := str "-" ++ collection ++ str "-" ++ sha256_hash ++ str "-"
                ++ Number_toString sequence ++ str "-" ++ address ++ str "-" in
  let msgHash := bcSha256 (utf8 (text ++ salt')) in
  let draft sig hash :=
    VObject
      [(str "p", VString (str "tap"));
       (str "op", VString (str "privilege-auth"));
       (str "sig", sig);
       (str "hash", hash);
       (str "address", VString address);
       (str "salt", VString salt');
       (str "prv", VString []);
       (str "verify", VString sha256_hash);
       (str "col", VString collection);
       (str "seq", VNumber sequence)] in
  (forall e,
      ecc_signRecoverable msgHash (Utils.privKeyBuffer keypair) = Throw e ->
      Tap.signVerification privKey pubKey [] sha256_hash collection sequence
        address salt random
      = (Some (draft VNull VNull), Throw (failed_to_sign e)))
  /\ (forall raw recoveryId,
        ecc_signRecoverable msgHash (Utils.privKeyBuffer keypair)
        = Ok (raw, recoveryId) ->
        length raw = 64%nat ->
        let signed :=
          draft (signature_of raw recoveryId)
            (VString (Buffer_toString_hex msgHash)) in
        Tap.signVerification privKey pubKey [] sha256_hash collection sequence
          address salt random
        = (Some signed,
           library_verdict msgHash (Utils.pubKeyBuffer keypair) raw
             (StringToNumber (Number_toString recoveryId)) signed)).
Proof.
  intros Hkeys. unfold Tap.signVerification, Tap.with_keypair.
  rewrite Hkeys. cbv zeta. unfold object_literal. split.
  - intros e He.
    erewrite signAndVerify_signer_throws; [|reflexivity|exact He]. reflexivity.
  - intros raw rid Hrs Hlen.
    erewrite signAndVerify_run; [|reflexivity|exact Hrs|exact Hlen].
    reflexivity.
Qed.

Lemma lookup_snoc (k k' : jstring) (x : value) (props : list (jstring * value)) :
  lookup k (props ++ [(k', x)])
  = match lookup k props with
    | Some y => Some y
    | None => if jstring_eqb k k' then Some x else None
    end.
Proof.
  induction props as [|[k0 v] rest IH]; [reflexivity|].
  cbn [app lookup]. destruct (jstring_eqb k k0); [reflexivity|exact IH].
Qed.

Lemma signed_draft_flat (props : list (jstring * value)) (signature : value)
    (msgHash : bytes) :
  lookup (str "prv") props = None ->
  signed_draft props signature msgHash
  = VObject (set_prop (str "hash") (VString (Buffer_toString_hex msgHash))
               (set_prop (str "sig") signature props)).
Proof. intros H. unfold signed_draft. rewrite H. reflexivity. Qed.

(** The JSON text of an array of strings. *)
Lemma JSON_stringify_strings (l : list jstring) :
  JSON_stringify (VArray (map VString l))
  = Some (str "[" ++ join (str ",") (map quote l) ++ str "]").
Proof. cbn [JSON_stringify]. rewrite map_map. reflexivity. Qed.

(** The run of [signAndVerify] on the draft of [signAuth] and of
    [generateTokenAuthScript]: five fields and the message under its key. *)
Lemma keyed_draft_run (op messageKey : jstring) (message : value)
    (text salt' : jstring) (keypair : Utils.KeypairBuffer) :
  JSON_stringify message = Some text ->
  array_index messageKey = None ->
  ~ In messageKey [str "p"; str "op"; str "sig"; str "hash"; str "salt"; str "prv"] ->
  let msgHash := bcSha256 (utf8 (text ++ salt')) in
  let draft sig hash :=
    VObject
      [(str "p", VString (str "tap"));
       (str "op", VString op);
       (str "sig", sig);
       (str "hash", hash);
       (str "salt", VString salt');
       (messageKey, message)] in
  object_literal
    [(str "p", VString (str "tap"));
     (str "op", VString op);
     (str "sig", VNull);
     (str "hash", VNull);
     (str "salt", VString salt');
     (messageKey, message)]
  = draft VNull VNull
  /\ (forall e,
        ecc_signRecoverable msgHash (Utils.privKeyBuffer keypair) = Throw e ->
        Utils.signAndVerify (draft VNull VNull) keypair (VString text) (Some messageKey)
        = (draft VNull VNull, Throw (failed_to_sign e)))
  /\ (forall raw rid,
        ecc_signRecoverable msgHash (Utils.privKeyBuffer keypair) = Ok (raw, rid) ->
        length raw = 64%nat ->
        let signed :=
          draft (signature_of raw rid) (VString (Buffer_toString_hex msgHash)) in
        Utils.signAndVerify (draft VNull VNull) keypair (VString text) (Some messageKey)
        = (signed,
           library_verdict msgHash (Utils.pubKeyBuffer keypair) raw
             (StringToNumber (Number_toString rid)) signed)).
Proof.
  intros Hjson Hidx Hres. cbv zeta.
  assert (Hne : forall k,
             In k [str "p"; str "op"; str "sig"; str "hash"; str "salt"; str "prv"] ->
             messageKey <> k /\ k <> messageKey).
  { intros k Hin. split; intros Heq; apply Hres; [rewrite Heq|rewrite <- Heq]; exact Hin. }
  set (base := [(str "p", VString (str "tap")); (str "op", VString op);
                (str "sig", VNull); (str "hash", VNull);
                (str "salt", VString salt')]).
  assert (Hbase : lookup messageKey base = None).
  { unfold base. cbn [lookup].
    rewrite !jstring_eqb_neq by (apply Hne; cbn [In]; tauto). reflexivity. }
  assert (Hprv : lookup (str "prv") (base ++ [(messageKey, message)]) = None).
  { rewrite lookup_snoc. change (lookup (str "prv") base) with (@None value).
    cbv beta iota. rewrite jstring_eqb_neq by (apply Hne; cbn [In]; tauto).
    reflexivity. }
  assert (Hsalt : Utils.read_placed (VObject (base ++ [(messageKey, message)]))
                    (str "salt") = Ok (VString salt')).
  { rewrite read_placed_object. unfold prv_of. rewrite Hprv. reflexivity. }
  split; [|split].
  - unfold object_literal.
    change (fold_left _ _ []) with (set_prop messageKey message base).
    unfold set_prop. rewrite Hbase, insert_prop_append by assumption. reflexivity.
  - intros e He.
    exact (signAndVerify_signer_throws (base ++ [(messageKey, message)]) keypair
             text (Some messageKey) salt' e Hsalt He).
  - intros raw rid Hrs Hlen.
    change (VObject [(str "p", VString (str "tap")); (str "op", VString op);
                     (str "sig", VNull); (str "hash", VNull);
                     (str "salt", VString salt'); (messageKey, message)])
      with (VObject (base ++ [(messageKey, message)])).
    rewrite (signAndVerify_run (base ++ [(messageKey, message)]) keypair text
               (Some messageKey) salt' raw rid Hsalt Hrs Hlen).
    rewrite signed_draft_flat by assumption.
    f_equal.
    assert (Htest : Utils.test_message
                      (VObject
                         (set_prop (str "hash")
                            (VString (Buffer_toString_hex (bcSha256 (utf8 (text ++ salt')))))
                            (set_prop (str "sig") (signature_of raw rid)
                               (base ++ [(messageKey, message)]))))
                      (VString text) (Some messageKey)
                    = Ok (VString text)).
    { destruct messageKey as [|c key] eqn:Ekey; [reflexivity|].
      unfold Utils.test_message. cbn [JSON_stringify_member bind].
      rewrite !lookup_set_other by (apply Hne; cbn [In]; tauto).
      rewrite lookup_snoc, Hbase, jstring_eqb_refl, Hjson. reflexivity. }
    rewrite Htest. reflexivity.
Qed.

(** X27. [signAuth] signs the JSON text of the message followed by the
    salt and verifies the signature against the same hash, the message
    being read back from the draft under its key. This holds for a message
    that has a JSON text and for a message key that is none of the draft's
    own field names and no array index (such a key takes another place
    among the fields). The draft, signed, holds its fields in the order
    given below, and [result] is its JSON text. *)
Theorem signAuth_signs_json_text
    (privKey pubKey : jstring + bytes) (messageKey : jstring) (message : value)
    (salt : Tap.salt_arg) (random : number) (keypair : Utils.KeypairBuffer)
    (text : jstring) :
  Utils.getKeypairBuff privKey pubKey = Ok keypair ->
  JSON_stringify message = Some text ->
  array_index messageKey = None ->
  ~ In messageKey [str "p"; str "op"; str "sig"; str "hash"; str "salt"; str "prv"] ->
  let salt' := Tap.salt_text salt random in
  let msgHash := bcSha256 (utf8 (text ++ salt')) in
  let draft sig hash :=
    VObject
      [(str "p", VString (str "tap"));
       (str "op", VString (str "privilege-auth"));
       (str "sig", sig);
       (str "hash", hash);
       (str "salt", VString salt');
       (messageKey, message)] in
  (forall e,
      ecc_signRecoverable msgHash (Utils.privKeyBuffer keypair) = Throw e ->
      Tap.signAuth privKey pubKey messageKey message salt random
      = (Some (draft VNull VNull), Throw (failed_to_sign e)))
  /\ (forall raw recoveryId,
        ecc_signRecoverable msgHash (Utils.privKeyBuffer keypair)
        = Ok (raw, recoveryId) ->
        length raw = 64%nat ->
        let signed :=
          draft (signature_of raw recoveryId)
            (VString (Buffer_toString_hex msgHash)) in
        Tap.signAuth privKey pubKey messageKey message salt random
        = (Some signed,
           library_verdict msgHash (Utils.pubKeyBuffer keypair) raw
             (StringToNumber (Number_toString recoveryId)) signed)).
Proof.
  intros Hkeys Hjson Hidx Hres. cbv zeta.
  destruct (keyed_draft_run (str "privilege-auth") messageKey message text
              (Tap.salt_text salt random) keypair Hjson Hidx Hres)
    as (Hdraft & Hthrow & Hok).
  unfold Tap.signAuth, Tap.with_keypair. rewrite Hkeys, Hjson. cbv zeta.
  rewrite Hdraft. split.
  - intros e He. rewrite (Hthrow e He). reflexivity.
  - intros raw rid Hrs Hlen. rewrite (Hok raw rid Hrs Hlen). reflexivity.
Qed.

Lemma JSON_stringify_None (v : value) : JSON_stringify v = None -> v = VUndefined.
Proof. destruct v; cbn [JSON_stringify]; intros H; [reflexivity|discriminate H..]. Qed.

(** X28. [signAuth] with a message that has no JSON text, as [undefined]
    has none: the base message is [undefined], [sign] refuses it, and the
    call fails with 'Invalid input types' once the draft is built. Nothing
    is signed: the fields of the draft are as the builder has set them,
    [sig] and [hash] null. *)
Theorem signAuth_without_text
    (privKey pubKey : jstring + bytes) (messageKey : jstring) (message : value)
    (salt : Tap.salt_arg) (random : number) (keypair : Utils.KeypairBuffer) :
  Utils.getKeypairBuff privKey pubKey = Ok keypair ->
  JSON_stringify message = None ->
  exists draft,
    Tap.signAuth privKey pubKey messageKey message salt random
    = (Some draft, Throw invalid_input_types)
    /\ Get draft messageKey = Ok message
    /\ forall k, k <> messageKey ->
         Get draft k
         = Get (VObject
                  [(str "p", VString (str "tap"));
                   (str "op", VString (str "privilege-auth"));
                   (str "sig", VNull);
                   (str "hash", VNull);
                   (str "salt", VString (Tap.salt_text salt random))]) k.
Proof.
  intros Hkeys Hjson. apply JSON_stringify_None in Hjson. subst message.
  unfold Tap.signAuth, Tap.with_keypair. rewrite Hkeys. cbv zeta.
  cbn [JSON_stringify]. unfold object_literal.
  change (fold_left _ _ [])
    with (set_prop messageKey VUndefined
            [(str "p", VString (str "tap")); (str "op", VString (str "privilege-auth"));
             (str "sig", VNull); (str "hash", VNull);
             (str "salt", VString (Tap.salt_text salt random))]).
  set (base := [(str "p", VString (str "tap")); (str "op", VString (str "privilege-auth"));
                (str "sig", VNull); (str "hash", VNull);
                (str "salt", VString (Tap.salt_text salt random))]).
  unfold Utils.signAndVerify. rewrite read_placed_object.
  assert (Hprv : ToBoolean (prv_of (set_prop messageKey VUndefined base)) = false).
  { unfold prv_of.
    destruct (jstring_eqb (str "prv") messageKey) eqn:Ek.
    - apply jstring_eqb_eq in Ek. subst messageKey. rewrite lookup_set_same. reflexivity.
    - rewrite lookup_set_other; [reflexivity|].
      intros Heq. rewrite Heq, jstring_eqb_refl in Ek. discriminate Ek. }
  rewrite Hprv. cbn [bind Utils.sign].
  eexists. split; [reflexivity|]. split.
  - cbn [Get]. rewrite lookup_set_same. reflexivity.
  - intros k Hk. cbn [Get]. rewrite lookup_set_other by assumption. reflexivity.
Qed.

(** X29. [signTokenAuth] signs the JSON text of the list of tokens, a
    bracketed list of quoted strings, ['[]'] when no list is given,
    followed by the salt; it verifies the signature against the same
    hash. The draft is a [token-auth] object with the list under [auth]. *)
Theorem signTokenAuth_signs_token_list
    (privKey pubKey : jstring + bytes) (authTokens : option (list jstring))
    (salt : Tap.salt_arg) (random : number) (keypair : Utils.KeypairBuffer) :
  Utils.getKeypairBuff privKey pubKey = Ok keypair ->
  let tokens := match authTokens with Some l => l | None => [] end in
  let salt' := Tap.salt_text salt random in
  let text := str "[" ++ join (str ",") (map quote tokens) ++ str "]" in
  let msgHash := bcSha256 (utf8 (text ++ salt')) in
  let draft sig hash :=
    VObject
      [(str "p", VString (str "tap"));
       (str "op", VString (str "token-auth"));
       (str "sig", sig);
       (str "hash", hash);
       (str "salt", VString salt');
       (str "auth", VArray (map VString tokens))] in
  (forall e,
      ecc_signRecoverable msgHash (Utils.privKeyBuffer keypair) = Throw e ->
      Tap.signTokenAuth privKey pubKey authTokens salt random
      = (Some (draft VNull VNull), Throw (failed_to_sign e)))
  /\ (forall raw recoveryId,
        ecc_signRecoverable msgHash (Utils.privKeyBuffer keypair)
        = Ok (raw, recoveryId) ->
        length raw = 64%nat ->
        let signed :=
          draft (signature_of raw recoveryId)
            (VString (Buffer_toString_hex msgHash)) in
        Tap.signTokenAuth privKey pubKey authTokens salt random
        = (Some signed,
           library_verdict msgHash (Utils.pubKeyBuffer keypair) raw
             (StringToNumber (Number_toString recoveryId)) signed)).
Proof.
  intros Hkeys. cbv zeta.
  set (tokens := match authTokens with Some l => l | None => [] end).
  destruct (keyed_draft_run (str "token-auth") (str "auth")
              (VArray (map VString tokens)) _ (Tap.salt_text salt random) keypair
              (JSON_stringify_strings tokens) eq_refl)
    as (Hdraft & Hthrow & Hok).
  { cbn [In]. intros H. repeat destruct H as [H|H]; try discriminate H. exact H. }
  unfold Tap.signTokenAuth, Tap.generateTokenAuthScript, Tap.with_keypair.
  rewrite Hkeys. cbv zeta. fold tokens.
  rewrite JSON_stringify_strings, Hdraft. split.
  - intros e He. rewrite (Hthrow e He). reflexivity.
  - intros raw rid Hrs Hlen. rewrite (Hok raw rid Hrs Hlen). reflexivity.
Qed.

(** X30. [signTokenRedeem] signs the JSON text of the object
    [{ items, auth, data }], in this order of its fields, followed by the
    salt; the items are an empty list and [auth] and [data] the empty
    string when they are not given. It verifies the signature against the
    same hash. The draft is a [token-auth] object with this object under
    [redeem]. *)
Theorem signTokenRedeem_signs_redeem_data
    (privKey pubKey : jstring + bytes) (redeemItems : option (list value))
    (auth data : option jstring) (salt : Tap.salt_arg) (random : number)
    (keypair : Utils.KeypairBuffer) :
  Utils.getKeypairBuff privKey pubKey = Ok keypair ->
  let items := match redeemItems with Some l => l | None => [] end in
  let auth' := match auth with Some s => s | None => [] end in
  let data' := match data with Some s => s | None => [] end in
  let salt' := Tap.salt_text salt random in
  let items_text :=
    str "[" ++ join (str ",")
                 (map (fun x => match JSON_stringify x with
                                | Some s => s
                                | None => str "null"
                                end) items) ++ str "]" in
  let text := str "{" ++ quote (str "items") ++ str ":" ++ items_text ++ str ","
                ++ quote (str "auth") ++ str ":" ++ quote auth' ++ str ","
                ++ quote (str "data") ++ str ":" ++ quote data' ++ str "}" in
  let msgHash := bcSha256 (utf8 (text ++ salt')) in
  let draft sig hash :=
    VObject
      [(str "p", VString (str "tap"));
       (str "op", VString (str "token-auth"));
       (str "sig", sig);
       (str "hash", hash);
       (str "salt", VString salt');
       (str "redeem",
        VObject
          [(str "items", VArray items);
           (str "auth", VString auth');
           (str "data", VString data')])] in
  (forall e,
      ecc_signRecoverable msgHash (Utils.privKeyBuffer keypair) = Throw e ->
      Tap.signTokenRedeem privKey pubKey redeemItems auth data salt random
      = (Some (draft VNull VNull), Throw (failed_to_sign e)))
  /\ (forall raw recoveryId,
        ecc_signRecoverable msgHash (Utils.privKeyBuffer keypair)
        = Ok (raw, recoveryId) ->
        length raw = 64%nat ->
        let signed :=
          draft (signature_of raw recoveryId)
            (VString (Buffer_toString_hex msgHash)) in
        Tap.signTokenRedeem privKey pubKey redeemItems auth data salt random
        = (Some signed,
           library_verdict msgHash (Utils.pubKeyBuffer keypair) raw
             (StringToNumber (Number_toString recoveryId)) signed)).
Proof.
  intros Hkeys. cbv zeta.
  set (items := match redeemItems with Some l => l | None => [] end).
  set (auth' := match auth with Some s => s | None => [] end).
  set (data' := match data with Some s => s | None => [] end).
  set (message := VObject [(str "items", VArray items); (str "auth", VString auth');
                           (str "data", VString data')]).
  assert (Hjson : JSON_stringify message
                  = Some (str "{" ++ quote (str "items") ++ str ":"
                            ++ (str "[" ++ join (str ",")
                                  (map (fun x => match JSON_stringify x with
                                                 | Some s => s
                                                 | None => str "null"
                                                 end) items) ++ str "]")
                            ++ str "," ++ quote (str "auth") ++ str ":" ++ quote auth'
                            ++ str "," ++ quote (str "data") ++ str ":" ++ quote data'
                            ++ str "}")).
  { unfold message. cbn [JSON_stringify flat_map fst snd app join].
    rewrite <- !app_assoc. reflexivity. }
  destruct (keyed_draft_run (str "token-auth") (str "redeem") message _
              (Tap.salt_text salt random) keypair Hjson eq_refl)
    as (Hdraft & Hthrow & Hok).
  { cbn [In]. intros H. repeat destruct H as [H|H]; try discriminate H. exact H. }
  unfold Tap.signTokenRedeem, Tap.generateTokenAuthScript, Tap.with_keypair.
  rewrite Hkeys. cbv zeta. fold items auth' data'.
  change (object_literal [(str "items", VArray items); (str "auth", VString auth');
                          (str "data", VString data')]) with message.
  rewrite Hjson, Hdraft. split.
  - intros e He. rewrite (Hthrow e He). reflexivity.
  - intros raw rid Hrs Hlen. rewrite (Hok raw rid Hrs Hlen). reflexivity.
Qed.

End BuilderOutcomes.

(** ** The theorems above on the data of the repository's tests *)

Lemma splitSignature_number_fields_witness :
  exists r s,
    Utils.splitSignature
      {| Utils.signature := VUint8Array (repeat x01 64); Utils.recoveryId := Int 1 |}
      Utils.OutputNumber
    = Ok (Utils.Signature_object (Number_toString (Int 1)) r s)
    /\ r = decimal (Z.to_N (be_value (firstn 32 (repeat x01 64))))
    /\ s = decimal (Z.to_N (be_value (skipn 32 (repeat x01 64))))
    /\ BigInt r = Ok (be_value (firstn 32 (repeat x01 64)))
    /\ BigInt s = Ok (be_value (skipn 32 (repeat x01 64))).
Proof.
  exact (splitSignature_number_fields (E := engine) (repeat x01 64) (Int 1)
           (VUint8Array (repeat x01 64)) eq_refl (or_intror eq_refl)).
Defined.

Lemma splitSignature_hex_fields_witness :
  exists r s,
    Utils.splitSignature
      {| Utils.signature := VBuffer (repeat xab 64); Utils.recoveryId := Int 0 |}
      Utils.OutputHex
    = Ok (Utils.Signature_object (Number_toString (Int 0)) r s)
    /\ r = Buffer_toString_hex (firstn 32 (repeat xab 64))
    /\ s = Buffer_toString_hex (skipn 32 (repeat xab 64))
    /\ length r = 64%nat /\ length s = 64%nat
    /\ Buffer_from_hex r ++ Buffer_from_hex s = repeat xab 64.
Proof.
  exact (splitSignature_hex_fields (E := engine) (repeat xab 64) (Int 0)
           (VBuffer (repeat xab 64)) eq_refl (or_introl eq_refl)).
Defined.

Lemma splitSignature_refuses_witness :
  Utils.splitSignature
    {| Utils.signature := VUint8Array (repeat x00 63); Utils.recoveryId := Int 0 |}
    Utils.OutputHex
  = Throw (Exn Error (str "Invalid signature length"))
  /\ Utils.splitSignature
       {| Utils.signature := VArray []; Utils.recoveryId := Int 0 |} Utils.OutputNumber
     = Throw (Exn Error (str "Invalid signature type")).
Proof.
  split.
  - apply (proj2 (proj1 (proj2 (splitSignature_refuses (E := engine) _ _)))).
    exists (repeat x00 63). split; [right; reflexivity|discriminate].
  - apply (proj2 (proj1 (splitSignature_refuses (E := engine) _ _))).
    intros b. split; discriminate.
Defined.

Lemma joinSignature_layout_witness :
  exists raw,
    Utils.joinSignature
      (VObject [(str "r", VString (decimal 258)); (str "s", VString (decimal 1));
                (str "v", VString (str "1")); (str "extra", VNull)])
    = Ok (raw, StringToNumber (str "1"))
    /\ length raw = 64%nat
    /\ firstn 32 raw = be_bytes 32 (Z.of_N 258)
    /\ skipn 32 raw = be_bytes 32 (Z.of_N 1)
    /\ be_value (firstn 32 raw) = Z.of_N 258
    /\ be_value (skipn 32 raw) = Z.of_N 1.
Proof.
  apply (joinSignature_layout (E := engine)); reflexivity.
Defined.

Lemma splitSignature_joinSignature_witness :
  (joined <- Utils.joinSignature
               (Utils.Signature_object (str "1") (decimal 258) (decimal 1)) ;;
   Utils.splitSignature
     {| Utils.signature := VBuffer (fst joined); Utils.recoveryId := snd joined |}
     Utils.OutputNumber)
  = Ok (Utils.Signature_object (Number_toString (StringToNumber (str "1")))
          (decimal 258) (decimal 1)).
Proof. apply (splitSignature_joinSignature (E := engine)); reflexivity. Defined.

Lemma joinSignature_refuses_witness :
  (Exn Error (str "Invalid signature format") = Exn Error (str "Invalid signature type")
   /\ False)
  \/ (Exn Error (str "Invalid signature format")
      = Exn Error (str "Invalid signature format")
      /\ ~ exists r s v,
             Get (VBuffer (repeat x00 64)) (str "r") = Ok (VString r)
             /\ Get (VBuffer (repeat x00 64)) (str "s") = Ok (VString s)
             /\ Get (VBuffer (repeat x00 64)) (str "v") = Ok (VString v))
  \/ (exists t,
        Exn Error (str "Invalid signature format")
        = Exn SyntaxError (str "Cannot convert " ++ t ++ str " to a BigInt")
        /\ StringToBigInt t = None
        /\ (Get (VBuffer (repeat x00 64)) (str "r") = Ok (VString t)
            \/ Get (VBuffer (repeat x00 64)) (str "s") = Ok (VString t))).
Proof.
  exact (joinSignature_refuses (E := engine) (VBuffer (repeat x00 64))
           (Exn Error (str "Invalid signature format")) eq_refl).
Defined.

Lemma verify_after_sign_witness :
  exists signature raw recoveryId,
    ecc_signRecoverable (bcSha256 (utf8 (str "test_messagetest_salt")))
      (Utils.privKeyBuffer TestData.keypair) = Ok (raw, recoveryId)
    /\ length raw = 64%nat
    /\ signature = signature_of raw recoveryId
    /\ Utils.joinSignature signature
       = Ok (raw, StringToNumber (Number_toString recoveryId)).
Proof.
  destruct (returned_map_Some _ _ _ sign_test_message) as ([signature msgHash] & H & <-).
  destruct (verify_after_sign (E := engine) (C := ecc) _ _ _ _ _ H)
    as (raw & rid & Hrs & Hlen & Hsig & Hjoin & _).
  exists signature, raw, rid. repeat split; assumption.
Defined.

(** Discharges the premises of a run in which the signer returns. *)
Ltac signer_returns H :=
  lazymatch type of H with
  | ?A -> _ =>
      let HA := fresh in
      assert (HA : A) by (vm_compute; reflexivity);
      specialize (H HA eq_refl); cbv zeta in H
  end.

Lemma signAndVerify_unkeyed_checks_signed_hash_witness :
  exists signed verdict,
    Utils.signAndVerify TestData.protocol TestData.keypair
      (VString (str "test_baseMessage")) None
    = (signed, verdict)
    /\ Utils.read_placed signed (str "hash")
       = Ok (VString (Buffer_toString_hex
                        (bcSha256 (utf8 (str "test_baseMessagetest_salt"))))).
Proof.
  let signed := eval vm_compute in
    (match ecc_signRecoverable
                      (bcSha256 (utf8 (str "test_baseMessagetest_salt")))
                      (Utils.privKeyBuffer TestData.keypair) with
              | Ok rs => rs
              | Throw _ => ([], NaN)
              end) in
  pose (rs := signed).
  pose proof (signAndVerify_unkeyed_checks_signed_hash (E := engine) (C := ecc)
                [(str "p", VString (str "tap"));
                 (str "op", VString (str "privilege-auth"));
                 (str "sig", VNull);
                 (str "hash", VNull);
                 (str "salt", VString (str "test_salt"))]
                TestData.keypair (str "test_baseMessage") None (str "test_salt")
                (fst rs) (snd rs) eq_refl) as H.
  lazymatch type of H with
  | ?A -> _ =>
      assert (HA : A) by (vm_compute; reflexivity);
      specialize (H HA eq_refl (or_introl eq_refl)); cbv zeta in H
  end.
  do 2 eexists. split; [exact H|reflexivity].
Defined.

Lemma signAndVerify_keyed_checks_field_witness :
  exists signed verdict,
    Utils.signAndVerify TestData.keyed_protocol TestData.keypair
      (VString (str "test_baseMessage")) (Some (str "auth"))
    = (signed, verdict)
    /\ Utils.read_placed signed (str "hash")
       = Ok (VString (Buffer_toString_hex
                        (bcSha256 (utf8 (str "test_baseMessagetest_salt"))))).
Proof.
  let signed := eval vm_compute in
    (match ecc_signRecoverable
                      (bcSha256 (utf8 (str "test_baseMessagetest_salt")))
                      (Utils.privKeyBuffer TestData.keypair) with
              | Ok rs => rs
              | Throw _ => ([], NaN)
              end) in
  pose (rs := signed).
  pose proof (signAndVerify_keyed_checks_field (E := engine) (C := ecc)
                [(str "p", VString (str "tap"));
                 (str "op", VString (str "privilege-auth"));
                 (str "sig", VNull);
                 (str "hash", VNull);
                 (str "salt", VString (str "test_salt"));
                 (str "auth", TestData.message)]
                TestData.keypair (str "test_baseMessage") (str "auth") TestData.message
                (str "test_salt") (fst rs) (snd rs) eq_refl) as H.
  lazymatch type of H with
  | ?A -> _ =>
      assert (HA : A) by (vm_compute; reflexivity);
      specialize (H HA eq_refl eq_refl ltac:(discriminate) ltac:(discriminate)
                    ltac:(discriminate) ltac:(discriminate));
      cbv zeta in H
  end.
  do 2 eexists. split; [exact H|reflexivity].
Defined.

(** A nested draft that is signed: the self-verification succeeds. *)
Lemma signAndVerify_nested_valid :
  option_map (fun r => Utils.valid (Utils.test r))
    (returned
       (snd (Utils.signAndVerify
               (VObject [(str "p", VString (str "tap"));
                         (str "prv", VObject [(str "salt", VString (str "test_salt"));
                                              (str "address", VString (str "tb1p"))])])
               TestData.keypair (VString (str "test_baseMessage")) None)))
  = Some true.
Proof. vm_cast_no_check (eq_refl (Some true)). Qed.

Lemma signAndVerify_nested_frame_witness :
  exists props' pprops' signature msgHash r,
    Utils.signAndVerify
      (VObject [(str "p", VString (str "tap"));
                (str "prv", VObject [(str "salt", VString (str "test_salt"));
                                     (str "address", VString (str "tb1p"))])])
      TestData.keypair (VString (str "test_baseMessage")) None
    = (VObject props', Ok r)
    /\ Utils.valid (Utils.test r) = true
    /\ lookup (str "prv") props' = Some (VObject pprops')
    /\ lookup (str "p") props' = Some (VString (str "tap"))
    /\ lookup (str "sig") props' = None
    /\ lookup (str "address") pprops' = Some (VString (str "tb1p"))
    /\ lookup (str "salt") pprops' = Some (VString (str "test_salt"))
    /\ lookup (str "sig") pprops' = Some signature
    /\ lookup (str "hash") pprops' = Some (VString (Buffer_toString_hex msgHash)).
Proof.
  destruct (returned_snd_Some _ _ _ signAndVerify_nested_valid)
    as (protocol' & r & Hrun & Hvalid).
  destruct (signAndVerify_nested_frame (E := engine) (C := ecc)
              [(str "p", VString (str "tap"));
               (str "prv", VObject [(str "salt", VString (str "test_salt"));
                                    (str "address", VString (str "tb1p"))])]
              [(str "salt", VString (str "test_salt"));
               (str "address", VString (str "tb1p"))]
              TestData.keypair (VString (str "test_baseMessage")) None eq_refl)
    as (props' & pprops' & Hfst & Hprv & Htop & _ & Hin & Hret).
  rewrite Hrun in Hfst, Hret. cbn [fst snd] in Hfst, Hret. subst protocol'.
  destruct (Hret r eq_refl) as (_ & signature & msgHash & Hsig & Hhash & _).
  exists props', pprops', signature, msgHash, r.
  split; [exact Hrun|]. split; [exact Hvalid|]. split; [exact Hprv|].
  split; [rewrite Htop by keys_differ; reflexivity|].
  split; [rewrite Htop by keys_differ; reflexivity|].
  split; [rewrite Hin by keys_differ; reflexivity|].
  split; [rewrite Hin by keys_differ; reflexivity|].
  split; assumption.
Defined.

Lemma signDmtMint_signs_text_witness :
  exists signed,
    fst (Tap.signDmtMint (inl TestData.pk) (inl TestData.pub) (str "NAT") (Int 100)
           (str "dep") (str "tb1p96fnzkff") (Some (inr (str "test_salt"))) (Int 0))
    = Some signed
    /\ Utils.read_placed signed (str "hash")
       = Ok (VString
               (Buffer_toString_hex
                  (bcSha256 (utf8 (str "tap-dmt-mint-nat-100-dep-tb1p96fnzkff-test_salt"))))).
Proof.
  let signed := eval vm_compute in
    (match ecc_signRecoverable
                      (bcSha256 (utf8 (str "tap-dmt-mint-nat-100-dep-tb1p96fnzkff-test_salt")))
                      (Utils.privKeyBuffer TestData.keypair) with
              | Ok rs => rs
              | Throw _ => ([], NaN)
              end) in
  pose (rs := signed).
  destruct (signDmtMint_signs_text (E := engine) (C := ecc)
              (inl TestData.pk) (inl TestData.pub) (str "NAT") (Int 100)
              (str "dep") (str "tb1p96fnzkff") (Some (inr (str "test_salt"))) (Int 0)
              TestData.keypair eq_refl) as [_ Hok].
  specialize (Hok (fst rs) (snd rs)). signer_returns Hok.
  rewrite Hok. eexists. split; reflexivity.
Defined.

Lemma signVerification_empty_authority_witness :
  exists signed,
    fst (Tap.signVerification (inl TestData.pk) (inl TestData.pub) []
           (str "5471b88a") (str "collection") (Int 1) (str "tb1p96fnzkff")
           (Some (inr (str "test_salt"))) (Int 0))
    = Some signed
    /\ Get signed (str "hash")
       = Ok (VString
               (Buffer_toString_hex
                  (bcSha256 (utf8 (str "-collection-5471b88a-1-tb1p96fnzkff-test_salt"))))).
Proof.
  let signed := eval vm_compute in
    (match ecc_signRecoverable
                      (bcSha256 (utf8 (str "-collection-5471b88a-1-tb1p96fnzkff-test_salt")))
                      (Utils.privKeyBuffer TestData.keypair) with
              | Ok rs => rs
              | Throw _ => ([], NaN)
              end) in
  pose (rs := signed).
  destruct (signVerification_empty_authority (E := engine) (C := ecc)
              (inl TestData.pk) (inl TestData.pub)
              (str "5471b88a") (str "collection") (Int 1) (str "tb1p96fnzkff")
              (Some (inr (str "test_salt"))) (Int 0)
              TestData.keypair eq_refl) as [_ Hok].
  specialize (Hok (fst rs) (snd rs)). signer_returns Hok.
  rewrite Hok. eexists. split; reflexivity.
Defined.

Lemma signAuth_signs_json_text_witness :
  exists signed text,
    fst (Tap.signAuth (inl TestData.pk) (inl TestData.pub) (str "auth")
           TestData.message (Some (inr (str "test_salt"))) (Int 0))
    = Some signed
    /\ JSON_stringify TestData.message = Some text
    /\ Get signed (str "hash")
       = Ok (VString (Buffer_toString_hex (bcSha256 (utf8 (text ++ str "test_salt")))))
    /\ Get signed (str "auth") = Ok TestData.message.
Proof.
  pose (text := match JSON_stringify TestData.message with
                | Some s => s
                | None => []
                end).
  let signed := eval vm_compute in
    (match ecc_signRecoverable
                      (bcSha256 (utf8 (text ++ str "test_salt")))
                      (Utils.privKeyBuffer TestData.keypair) with
              | Ok rs => rs
              | Throw _ => ([], NaN)
              end) in
  pose (rs := signed).
  destruct (signAuth_signs_json_text (E := engine) (C := ecc)
              (inl TestData.pk) (inl TestData.pub) (str "auth") TestData.message
              (Some (inr (str "test_salt"))) (Int 0) TestData.keypair text
              eq_refl eq_refl eq_refl) as [_ Hok].
  { cbn [In]. intros H. repeat destruct H as [H|H]; try discriminate H. exact H. }
  specialize (Hok (fst rs) (snd rs)). signer_returns Hok.
  rewrite Hok. eexists. exists text. repeat split.
Defined.

Lemma signAuth_without_text_witness :
  exists draft,
    Tap.signAuth (inl TestData.pk) (inl TestData.pub) (str "auth") VUndefined
      (Some (inr (str "test_salt"))) (Int 0)
    = (Some draft, Throw invalid_input_types)
    /\ Get draft (str "sig") = Ok VNull.
Proof.
  destruct (signAuth_without_text (E := engine) (C := ecc)
              (inl TestData.pk) (inl TestData.pub) (str "auth") VUndefined
              (Some (inr (str "test_salt"))) (Int 0) TestData.keypair eq_refl eq_refl)
    as (draft & H & _ & Hother).
  exists draft. split; [exact H|].
  rewrite Hother by keys_differ. reflexivity.
Defined.

Lemma signTokenAuth_signs_token_list_witness :
  exists signed,
    fst (Tap.signTokenAuth (inl TestData.pk) (inl TestData.pub)
           (Some [str "gib"; str "tap"]) (Some (inr (str "test_salt"))) (Int 0))
    = Some signed
    /\ Get signed (str "hash")
       = Ok (VString
               (Buffer_toString_hex
                  (bcSha256
                     (utf8 (str "[" ++ quote (str "gib") ++ str "," ++ quote (str "tap")
                              ++ str "]" ++ str "test_salt"))))).
Proof.
  let signed := eval vm_compute in
    (match ecc_signRecoverable
                      (bcSha256
                         (utf8 (str "[" ++ quote (str "gib") ++ str "," ++ quote (str "tap")
                                  ++ str "]" ++ str "test_salt")))
                      (Utils.privKeyBuffer TestData.keypair) with
              | Ok rs => rs
              | Throw _ => ([], NaN)
              end) in
  pose (rs := signed).
  destruct (signTokenAuth_signs_token_list (E := engine) (C := ecc)
              (inl TestData.pk) (inl TestData.pub) (Some [str "gib"; str "tap"])
              (Some (inr (str "test_salt"))) (Int 0) TestData.keypair eq_refl)
    as [_ Hok].
  specialize (Hok (fst rs) (snd rs)). signer_returns Hok.
  rewrite Hok. eexists. split; reflexivity.
Defined.

Lemma signTokenRedeem_signs_redeem_data_witness :
  exists signed redeem,
    fst (Tap.signTokenRedeem (inl TestData.pk) (inl TestData.pub) None None None
           (Some (inr (str "test_salt"))) (Int 0))
    = Some signed
    /\ Get signed (str "redeem") = Ok redeem
    /\ Get redeem (str "items") = Ok (VArray [])
    /\ Get signed (str "hash")
       = Ok (VString
               (Buffer_toString_hex
                  (bcSha256
                     (utf8 (str "{" ++ quote (str "items") ++ str ":[],"
                              ++ quote (str "auth") ++ str ":" ++ quote []
                              ++ str "," ++ quote (str "data") ++ str ":" ++ quote []
                              ++ str "}" ++ str "test_salt"))))).
Proof.
  let signed := eval vm_compute in
    (match ecc_signRecoverable
                      (bcSha256
                         (utf8 (str "{" ++ quote (str "items") ++ str ":[],"
                                  ++ quote (str "auth") ++ str ":" ++ quote []
                                  ++ str "," ++ quote (str "data") ++ str ":" ++ quote []
                                  ++ str "}" ++ str "test_salt")))
                      (Utils.privKeyBuffer TestData.keypair) with
              | Ok rs => rs
              | Throw _ => ([], NaN)
              end) in
  pose (rs := signed).
  destruct (signTokenRedeem_signs_redeem_data (E := engine) (C := ecc)
              (inl TestData.pk) (inl TestData.pub) None None None
              (Some (inr (str "test_salt"))) (Int 0) TestData.keypair eq_refl)
    as [_ Hok].
  specialize (Hok (fst rs) (snd rs)). signer_returns Hok.
  rewrite Hok. do 2 eexists. repeat split.
Defined.

Lemma signMint_verifies_signed_text_witness :
  exists signed r,
    Tap.signMint (inl TestData.pk) (inl TestData.pub) (str "TAP-Token-Auth")
      (Int 1000) TestData.readme_minter (Some (inr TestData.readme_salt)) (Int 0)
    = (Some signed, Ok r)
    /\ Utils.result r = JSON_stringify signed
    /\ Utils.valid (Utils.test r) = true.
Proof.
  let signed := eval vm_compute in
    (match ecc_signRecoverable
             (bcSha256
                (utf8 (str "tap-token-mint-tap-token-auth-1000-" ++ TestData.readme_minter
                         ++ str "-" ++ TestData.readme_salt)))
             (Utils.privKeyBuffer TestData.keypair) with
     | Ok rs => rs
     | Throw _ => ([], NaN)
     end) in
  pose (rs := signed).
  pose proof (signMint_verifies_signed_text (E := engine) (C := ecc)
                (inl TestData.pk) (inl TestData.pub) (str "TAP-Token-Auth")
                (Int 1000) TestData.readme_minter (Some (inr TestData.readme_salt))
                (Int 0) TestData.keypair eq_refl (fst rs) (snd rs)) as Hok.
  signer_returns Hok.
  rewrite Hok. unfold library_verdict.
  destruct (ecc_verify _ _ _) as [isValid|e] eqn:Everify;
    [|exfalso; vm_compute in Everify; discriminate Everify].
  destruct (ecc_recover _ _ _ _) as [recovered|e] eqn:Erecover;
    [|exfalso; vm_compute in Erecover; discriminate Erecover].
  cbn [bind]. do 2 eexists. split; [reflexivity|]. split; [reflexivity|].
  cbn [Utils.valid Utils.test]. vm_compute in Everify. injection Everify as <-.
  reflexivity.
Defined.
